(** * OpenAPI -> Repeater: a shallow embedding of [openapi_to_repeater.py]

    The development follows the source file top to bottom:

    - the Python built-ins the program relies on (strings, insertion-ordered
      mappings, JSON values, exceptions);
    - [simple_sample_from_schema], [normalize_crlf], [parse_host_and_port];
    - the per-parameter and query-string steps of [parse_and_generate],
      with [_url_encode];
    - [_build_final_raw].

    Conventions.  The texts of the program are Unicode strings; a text is
    modelled as the list of its characters ([str]), a character being a code
    point below 256 (the Latin-1 range); characters beyond that range are
    outside the model.  Whitespace, line boundaries, letter case and decimal
    digits are those of Python 2's [unicode] type on that range.  A
    mapping is an association list in insertion order with unique keys, which
    is the iteration order the program assumes when it emits headers.  A call
    that may raise returns an [outcome].  The interpreter's recursion limit is
    the [depth] argument of the sampler. *)

From Stdlib Require Import Ascii String ZArith Lia Bool Arith List.
From Stdlib Require Import SpecFloat.
Import ListNotations.

Set Implicit Arguments.

(* ------------------------------------------------------------------ *)
(** ** Strings *)

Definition str := list ascii.

Notation "# s" := (list_ascii_of_string s) (at level 1, s at level 0, format "# s").

Definition LF : ascii := "010"%char.
Definition CR : ascii := "013"%char.
Definition CRLF : str := [CR; LF].

Module Py.

Definition str_eqb (a b : str) : bool :=
  if list_eq_dec ascii_dec a b then true else false.

(** [c in s] for a one-character [c]. *)
Definition has_char (c : ascii) (s : str) : bool :=
  existsb (Ascii.eqb c) s.

(** [s.startswith(p)] *)
Fixpoint startswith (p s : str) : bool :=
  match p, s with
  | [], _ => true
  | _ :: _, [] => false
  | a :: p', b :: s' => Ascii.eqb a b && startswith p' s'
  end.

(** [s.endswith(p)] *)
Definition endswith (p s : str) : bool :=
  startswith (rev p) (rev s).

(** [p in s] for strings: [p] occurs in [s] as a substring. *)
Fixpoint contains (p s : str) : bool :=
  startswith p s || match s with [] => false | _ :: s' => contains p s' end.

(** The whitespace of [unicode.strip()] among the code points below 256:
    U+0009-000D, U+001C-0020, U+0085 and U+00A0. *)
Definition is_space (c : ascii) : bool :=
  let n := nat_of_ascii c in
  ((9 <=? n) && (n <=? 13)) || ((28 <=? n) && (n <=? 32))
  || (n =? 133) || (n =? 160).

Fixpoint lstrip (s : str) : str :=
  match s with
  | c :: s' => if is_space c then lstrip s' else s
  | [] => []
  end.

Definition rstrip (s : str) : str := rev (lstrip (rev s)).

(** [s.strip()] *)
Definition strip (s : str) : str := rstrip (lstrip s).

(** [s.lstrip(chars)]: drop leading characters that belong to [chars]. *)
Fixpoint lstrip_chars (chars s : str) : str :=
  match s with
  | c :: s' => if has_char c chars then lstrip_chars chars s' else s
  | [] => []
  end.

Definition lower_char (c : ascii) : ascii :=
  let n := nat_of_ascii c in
  if ((65 <=? n) && (n <=? 90)) || ((192 <=? n) && (n <=? 222) && negb (n =? 215))
  then ascii_of_nat (n + 32) else c.

(** [s.lower()] *)
Definition lower (s : str) : str := map lower_char s.

(** Put [c] in front of the first piece of a split. *)
Definition cons_hd (c : ascii) (ls : list str) : list str :=
  match ls with
  | l :: ls' => (c :: l) :: ls'
  | [] => [[c]]
  end.

(** [s.split(c)] for a one-character separator. *)
Fixpoint split (c : ascii) (s : str) : list str :=
  match s with
  | [] => [[]]
  | x :: s' => if Ascii.eqb x c then [] :: split c s' else cons_hd x (split c s')
  end.

(** [s.split(c, 1)]: at most one cut, at the first [c]. *)
Fixpoint split1 (c : ascii) (s : str) : list str :=
  match s with
  | [] => [[]]
  | x :: s' => if Ascii.eqb x c then [[]; s'] else cons_hd x (split1 c s')
  end.

(** [sep.join(ls)] *)
Fixpoint join (sep : str) (ls : list str) : str :=
  match ls with
  | [] => []
  | [l] => l
  | l :: ls' => l ++ sep ++ join sep ls'
  end.

(** [s.replace(old, new)] for a non-empty [old]: occurrences are replaced
    from left to right and do not overlap.  [skip] counts the characters of
    a match that are still to be dropped. *)
Fixpoint replace_from (old new : str) (skip : nat) (s : str) : str :=
  match s with
  | [] => []
  | c :: s' =>
      match skip with
      | S k => replace_from old new k s'
      | O => if startswith old s
             then new ++ replace_from old new (length old - 1) s'
             else c :: replace_from old new 0 s'
      end
  end.

Definition replace (old new s : str) : str := replace_from old new 0 s.

End Py.

(* ------------------------------------------------------------------ *)
(** ** Exceptions, mappings and JSON values *)

Inductive exn : Type :=
| TypeError
| AttributeError
| KeyError
| UnicodeEncodeError
| RuntimeError.   (* "maximum recursion depth exceeded" *)

Inductive outcome (A : Type) : Type :=
| Ret (a : A)
| Raise (e : exn).

Arguments Ret {A} a.
Arguments Raise {A} e.

Definition bind {A B : Type} (m : outcome A) (k : A -> outcome B) : outcome B :=
  match m with
  | Ret a => k a
  | Raise e => Raise e
  end.

Notation "x <- m ;; k" := (bind m (fun x => k))
  (at level 61, m at next level, right associativity).

(** [try: m  except: handler] *)
Definition try_except {A : Type} (m : outcome A) (handler : A) : A :=
  match m with
  | Ret a => a
  | Raise _ => handler
  end.

(** A mapping with string keys, in insertion order. *)
Definition dict (V : Type) := list (str * V).

Module Dict.
Section Ops.
Variable V : Type.

Fixpoint lookup (k : str) (d : dict V) : option V :=
  match d with
  | [] => None
  | (k', v) :: d' => if Py.str_eqb k k' then Some v else lookup k d'
  end.

(** [k in d] *)
Definition mem (k : str) (d : dict V) : bool :=
  match lookup k d with Some _ => true | None => false end.

(** [d[k] = v]: an existing key keeps its place, a new key goes last. *)
Fixpoint set (k : str) (v : V) (d : dict V) : dict V :=
  match d with
  | [] => [(k, v)]
  | (k', v') :: d' =>
      if Py.str_eqb k k' then (k', v) :: d' else (k', v') :: set k v d'
  end.

Definition keys (d : dict V) : list str := map fst d.
End Ops.
End Dict.

(** What [json.load] builds. *)
#[warnings="-register-all"]
Inductive value : Type :=
| VNone
| VBool (b : bool)
| VInt (z : Z)
| VFloat (f : spec_float)
| VStr (s : str)
| VList (l : list value)
| VDict (d : list (str * value)).

(** [bool(v)] *)
Definition truthy (v : value) : bool :=
  match v with
  | VNone => false
  | VBool b => b
  | VInt z => negb (z =? 0)%Z
  | VFloat (S754_zero _) => false
  | VFloat _ => true
  | VStr s => match s with [] => false | _ => true end
  | VList l => match l with [] => false | _ => true end
  | VDict d => match d with [] => false | _ => true end
  end.

(** [v == s] for a string literal [s]. *)
Definition eq_str (v : value) (s : str) : bool :=
  match v with
  | VStr s' => Py.str_eqb s' s
  | _ => false
  end.

(** [v is None] *)
Definition is_none (v : value) : bool :=
  match v with VNone => true | _ => false end.

(** [a or b] *)
Definition py_or (a b : value) : value := if truthy a then a else b.

(** [k in v] *)
Definition py_in (k : str) (v : value) : outcome bool :=
  match v with
  | VDict d => Ret (Dict.mem k d)
  | VList l => Ret (existsb (fun x => eq_str x k) l)
  | VStr s => Ret (Py.contains k s)
  | _ => Raise TypeError
  end.

(** [v[k]] for a string [k] *)
Definition py_getitem (v : value) (k : str) : outcome value :=
  match v with
  | VDict d => match Dict.lookup k d with Some x => Ret x | None => Raise KeyError end
  | _ => Raise TypeError
  end.

(** [v.get(k, default)] *)
Definition py_get (v : value) (k : str) (default : value) : outcome value :=
  match v with
  | VDict d => Ret (match Dict.lookup k d with Some x => x | None => default end)
  | _ => Raise AttributeError
  end.

(** [v.startswith(p)] *)
Definition py_startswith (v : value) (p : str) : outcome bool :=
  match v with
  | VStr s => Ret (Py.startswith p s)
  | _ => Raise AttributeError
  end.

(** [v.items()] *)
Definition py_items (v : value) : outcome (list (str * value)) :=
  match v with
  | VDict d => Ret d
  | _ => Raise AttributeError
  end.

(** *** [int(v)] *)

Definition digit_val (c : ascii) : option Z :=
  let n := nat_of_ascii c in
  if (48 <=? n) && (n <=? 57) then Some (Z.of_nat (n - 48)) else None.

Fixpoint digits_val (acc : Z) (s : str) : option Z :=
  match s with
  | [] => Some acc
  | c :: s' =>
      match digit_val c with
      | Some d => digits_val (10 * acc + d) s'
      | None => None
      end
  end.

Definition unsigned_val (s : str) : option Z :=
  match s with
  | [] => None
  | _ => digits_val 0 s
  end.

(** [int(s)] for a string, as Python 2 reads it: surrounding whitespace,
    an optional sign, whitespace again, then decimal digits; [int("- 5")]
    is [-5]. *)
Definition int_of_str (s : str) : option Z :=
  match Py.strip s with
  | [] => None
  | c :: r =>
      if Ascii.eqb c "-" then option_map Z.opp (unsigned_val (Py.lstrip r))
      else if Ascii.eqb c "+" then unsigned_val (Py.lstrip r)
      else unsigned_val (c :: r)
  end.

(** [int(f)] for a float: truncation towards zero; infinities and NaN raise. *)
Definition int_of_float (f : spec_float) : option Z :=
  match f with
  | S754_zero _ => Some 0%Z
  | S754_infinity _ => None
  | S754_nan => None
  | S754_finite s m e =>
      let mag := Z.shiftl (Z.pos m) e in
      Some (if s then Z.opp mag else mag)
  end.

(** [int(v)]; [None] stands for any exception. *)
Definition py_int (v : value) : option Z :=
  match v with
  | VNone => None
  | VBool b => Some (if b then 1 else 0)%Z
  | VInt z => Some z
  | VFloat f => int_of_float f
  | VStr s => int_of_str s
  | VList _ => None
  | VDict _ => None
  end.

(* ------------------------------------------------------------------ *)
(** ** [simple_sample_from_schema] *)

(** The walk along the parts of a local pointer (source lines 50-56). *)
Fixpoint walk_ref (node : value) (parts : list str) : value :=
  match parts with
  | [] => node
  | p :: parts' =>
      match node with
      | VDict d =>
          match Dict.lookup p d with
          | Some n => walk_ref n parts'
          | None => VDict []
          end
      | _ => VDict []
      end
  end.

Definition ref_parts (ref : str) : list str :=
  Py.split "/" (Py.lstrip_chars #"#/" ref).

(** [try: return int(x)  except: return 1] *)
Definition int_or_one (x : value) : value :=
  VInt (match py_int x with Some z => z | None => 1%Z end).

(** The loop over [props.items()] (source lines 110-113). *)
Fixpoint sample_props (f : value -> outcome value)
    (props : list (str * value)) (obj : dict value) : outcome value :=
  match props with
  | [] => Ret (VDict obj)
  | (k, subschema) :: props' =>
      v <- f subschema ;;
      sample_props f props' (Dict.set k v obj)
  end.

(** Source lines 76-115: sampling by type, once [t] is known. *)
Definition sample_by_type (rec : value -> outcome value)
    (t schema : value) : outcome value :=
  if eq_str t #"string" then
    fmt <- py_get schema #"format" (VStr []) ;;
    if eq_str fmt #"date-time" then Ret (VStr #"2025-10-02T12:00:00Z")
    else if eq_str fmt #"date" then Ret (VStr #"2025-10-02")
    else if eq_str fmt #"email" then Ret (VStr #"user@example.com")
    else if eq_str fmt #"uuid" then Ret (VStr #"00000000-0000-0000-0000-000000000000")
    else
      title <- py_get schema #"title" VNone ;;
      name <- py_get schema #"name" VNone ;;
      Ret (py_or (py_or title name) (VStr #"example"))
  else if eq_str t #"integer" || eq_str t #"number" then
    has_min <- py_in #"minimum" schema ;;
    if has_min then
      m <- py_get schema #"minimum" VNone ;; Ret (int_or_one m)
    else
      has_max <- py_in #"maximum" schema ;;
      if has_max then
        m <- py_get schema #"maximum" VNone ;; Ret (int_or_one m)
      else Ret (VInt 1)
  else if eq_str t #"boolean" then Ret (VBool false)
  else if eq_str t #"array" then
    items <- py_get schema #"items" (VDict [(#"type", VStr #"string")]) ;;
    v <- rec items ;;
    Ret (VList [v])
  else if eq_str t #"object" then
    props <- py_get schema #"properties" (VDict []) ;;
    items <- py_items props ;;
    sample_props rec items []
  else Ret (VStr #"example").

(** [depth] is the number of nested calls the interpreter still allows; a
    call beyond it raises [RuntimeError]. *)
Fixpoint simple_sample_from_schema (depth : nat) (schema spec : value)
    : outcome value :=
  match depth with
  | O => Raise RuntimeError
  | S depth' =>
    if negb (truthy schema) then Ret VNone else
    has_ref <- py_in #"$ref" schema ;;
    if has_ref then
      ref <- py_getitem schema #"$ref" ;;
      local <- py_startswith ref #"#/" ;;
      if local then
        match ref with
        | VStr r =>
            simple_sample_from_schema depth' (walk_ref spec (ref_parts r)) spec
        | _ => Raise AttributeError
        end
      else Ret (VStr #"example")
    else
    has_example <- py_in #"example" schema ;;
    if has_example then py_getitem schema #"example" else
    has_default <- py_in #"default" schema ;;
    if has_default then py_getitem schema #"default" else
    t <- py_get schema #"type" VNone ;;
    if negb (truthy t) then
      has_props <- py_in #"properties" schema ;;
      if has_props then
        sample_by_type (fun s => simple_sample_from_schema depth' s spec)
          (VStr #"object") schema
      else
        has_enum <- py_in #"enum" schema ;;
        if has_enum then
          enums <- py_get schema #"enum" VNone ;;
          match enums with
          | VList (e :: _) => Ret e
          | _ => Ret (VStr #"example")
          end
        else
          sample_by_type (fun s => simple_sample_from_schema depth' s spec)
            (VStr #"string") schema
    else
      sample_by_type (fun s => simple_sample_from_schema depth' s spec) t schema
  end.

(* ------------------------------------------------------------------ *)
(** ** [normalize_crlf] *)

Definition normalize_crlf (s : str) : str :=
  let s := Py.replace [CR] [LF] (Py.replace CRLF [LF] s) in
  let s := Py.replace [LF] CRLF s in
  if negb (Py.endswith CRLF s) then s ++ CRLF else s.

(* ------------------------------------------------------------------ *)
(** ** [parse_host_and_port] *)

Definition default_port (use_https : bool) : Z :=
  if use_https then 443%Z else 80%Z.

(** Source lines 159-164: surrounding whitespace, then one leading scheme. *)
Definition strip_scheme (host_field : str) : str :=
  if Py.startswith #"http://" host_field
  then skipn (length #"http://") host_field
  else if Py.startswith #"https://" host_field
  then skipn (length #"https://") host_field
  else host_field.

(** Source lines 166-167. *)
Definition strip_path (host_field : str) : str :=
  if Py.has_char "/" host_field
  then nth 0 (Py.split "/" host_field) []
  else host_field.

Definition parse_host_and_port (host_field : str) (use_https : bool)
    : str * Z :=
  let host_field := Py.strip host_field in
  let host_field := strip_scheme host_field in
  let host_field := strip_path host_field in
  let '(host, port) :=
    if Py.has_char ":" host_field then
      let parts := Py.split1 ":" host_field in
      (nth 0 parts [], py_int (VStr (nth 1 parts [])))
    else (host_field, None) in
  (host, match port with Some p => p | None => default_port use_https end).

(** The same function as the prose describes it, cutting at the LAST colon;
    it is only compared with [parse_host_and_port]. *)
Definition rsplit1 (c : ascii) (s : str) : list str :=
  match Py.split1 c (rev s) with
  | [a; b] => [rev b; rev a]
  | _ => [s]
  end.

Definition parse_host_and_port_last_colon (host_field : str)
    (use_https : bool) : str * Z :=
  let host_field := strip_path (strip_scheme (Py.strip host_field)) in
  let '(host, port) :=
    if Py.has_char ":" host_field then
      let parts := rsplit1 ":" host_field in
      (nth 0 parts [], py_int (VStr (nth 1 parts [])))
    else (host_field, None) in
  (host, match port with Some p => p | None => default_port use_https end).

(* ------------------------------------------------------------------ *)
(** ** [parse_and_generate]: one parameter *)

(** Source lines 304-313: a parameter that is a reference is replaced by
    its target. *)
Fixpoint get_path (node : value) (parts : list str) : outcome value :=
  match parts with
  | [] => Ret node
  | part :: parts' =>
      n <- py_get node part (VDict []) ;;
      get_path n parts'
  end.

Definition resolve_param (p spec : value) : outcome value :=
  match p with
  | VDict d =>
      if Dict.mem #"$ref" d then
        ref <- py_getitem p #"$ref" ;;
        local <- py_startswith ref #"#/" ;;
        if local then
          match ref with
          | VStr r => get_path spec (ref_parts r)
          | _ => Raise AttributeError
          end
        else Ret (VDict [])
      else Ret p
  | _ => Ret p
  end.

Record sampled_param : Type := {
  sp_name : value;
  sp_location : value;
  sp_val : value
}.

(** Source lines 314-321, on the resolved parameter. *)
Definition sample_param (depth : nat) (p spec : value)
    : outcome sampled_param :=
  name <- py_get p #"name" VNone ;;
  location <- py_get p #"in" VNone ;;
  sch <- py_get p #"schema" VNone ;;
  let schema := py_or sch (VDict []) in
  example <- py_get p #"example" VNone ;;
  val <- (if is_none example
          then simple_sample_from_schema depth schema spec
          else Ret example) ;;
  Ret {| sp_name := name; sp_location := location; sp_val := val |}.

(* ------------------------------------------------------------------ *)
(** ** [_url_encode] and the query string *)

Definition hex_digit (n : nat) : ascii :=
  if n <? 10 then ascii_of_nat (48 + n) else ascii_of_nat (55 + n).

Definition is_alnum (c : ascii) : bool :=
  let n := nat_of_ascii c in
  ((48 <=? n) && (n <=? 57)) || ((65 <=? n) && (n <=? 90))
  || ((97 <=? n) && (n <=? 122)).

(** The bytes of the UTF-8 form of a code point below 256. *)
Definition utf8_bytes (c : ascii) : list nat :=
  let n := nat_of_ascii c in
  if n <? 128 then [n] else [192 + n / 64; 128 + n mod 64].

Definition percent_byte (b : nat) : str :=
  ["%"%char; hex_digit (b / 16); hex_digit (b mod 16)].

(** [java.net.URLEncoder.encode(s, "UTF-8")], as the Java SE documentation
    gives it: the letters [a-z], [A-Z], the digits and [.-*_] stay, a space
    becomes [+], any other character becomes the bytes of its UTF-8 form,
    each byte as [%XY] in upper-case hexadecimal. *)
Definition url_char (c : ascii) : str :=
  if is_alnum c || Py.has_char c #".-*_" then [c]
  else if Ascii.eqb c " " then ["+"%char]
  else flat_map percent_byte (utf8_bytes c).

Definition URLEncoder_encode (s : str) : outcome str :=
  Ret (flat_map url_char s).

(** Source lines 401-406 around an arbitrary encoder call. *)
Definition _url_encode_with (encode : str -> outcome str) (s : str) : str :=
  try_except (encode s) (Py.replace #" " #"%20" s).

Definition _url_encode (s : str) : str :=
  _url_encode_with URLEncoder_encode s.

Section QueryString.

(** The built-in [str()], which is not part of this program. *)
Variable py_str : value -> outcome str.

(** ["%s=%s" % (self._url_encode(str(k)), self._url_encode(str(v)))] *)
Definition query_pair (kv : value * value) : outcome str :=
  k <- py_str (fst kv) ;;
  v <- py_str (snd kv) ;;
  Ret (_url_encode k ++ #"=" ++ _url_encode v).

Fixpoint query_pairs (items : list (value * value)) : outcome (list str) :=
  match items with
  | [] => Ret []
  | kv :: items' =>
      pair <- query_pair kv ;;
      pairs <- query_pairs items' ;;
      Ret (pair :: pairs)
  end.

(** Source lines 364-369. *)
Definition query_string (query_params : list (value * value))
    : outcome str :=
  match query_params with
  | [] => Ret []
  | _ =>
      pairs <- query_pairs query_params ;;
      Ret (#"?" ++ Py.join #"&" pairs)
  end.

End QueryString.

Definition is_ascii (c : ascii) : bool := nat_of_ascii c <? 128.

(** [str()] on text and [None], for running examples: text is encoded with
    the [ascii] codec, which raises on any other character.  The printing
    of the other values is not modelled; the examples hold none of them. *)
Definition str_of_text (v : value) : outcome str :=
  match v with
  | VStr s => if forallb is_ascii s then Ret s else Raise UnicodeEncodeError
  | VNone => Ret #"None"
  | _ => Raise TypeError
  end.

(* ------------------------------------------------------------------ *)
(** ** [_build_final_raw] *)

(** Index of the first element satisfying [f]. *)
Fixpoint find_index {A : Type} (f : A -> bool) (l : list A) : option nat :=
  match l with
  | [] => None
  | x :: l' => if f x then Some 0 else option_map S (find_index f l')
  end.

Definition is_blank (l : str) : bool := Py.str_eqb (Py.strip l) [].

(** Source lines 427-433. *)
Definition headers_part (rest : list str) : list str :=
  match find_index is_blank rest with
  | None => rest
  | Some i => firstn i rest
  end.

Definition body_part (rest : list str) : list str :=
  match find_index is_blank rest with
  | None => []
  | Some i => skipn (i + 1) rest
  end.

(** Source lines 436-440. *)
Definition add_header (existing : dict str) (h : str) : dict str :=
  if Py.has_char ":" h then
    let parts := Py.split1 ":" h in
    Dict.set (Py.strip (nth 0 parts [])) (Py.strip (nth 1 parts [])) existing
  else existing.

Definition parse_headers (hs : list str) : dict str :=
  fold_left add_header hs [].

Definition is_host (k : str) : bool := Py.str_eqb (Py.lower k) #"host".

(** Source lines 447-451. *)
Definition add_extra (existing : dict str) (kv : str * str) : dict str :=
  if is_host (fst kv) then existing else Dict.set (fst kv) (snd kv) existing.

(** The mapping [existing] when the headers are emitted. *)
Definition merged_headers (hs : list str) (bearer_token : str)
    (extra_headers_dict : dict str) : dict str :=
  let existing := parse_headers hs in
  let existing :=
    match bearer_token with
    | [] => existing
    | _ => Dict.set #"Authorization" (#"Bearer " ++ bearer_token) existing
    end in
  fold_left add_extra extra_headers_dict existing.

Definition header_line (kv : str * str) : str :=
  fst kv ++ #": " ++ snd kv.

(** Source lines 454-457. *)
Definition emit_headers (existing : dict str) : list str :=
  map header_line (filter (fun kv => negb (is_host (fst kv))) existing).

(** The list [new_lines] when it is joined. *)
Definition final_lines (base host bearer_token : str)
    (extra_headers_dict : dict str) : list str :=
  let lines := Py.split LF base in
  let request_line := nth 0 lines [] in
  let rest := tl lines in
  [request_line; #"Host: " ++ host]
  ++ emit_headers (merged_headers (headers_part rest) bearer_token
                     extra_headers_dict)
  ++ [[]]
  ++ body_part rest.

(** [extra_headers_dict or {}] is [extra_headers_dict] on a mapping. *)
Definition _build_final_raw (base host bearer_token : str)
    (extra_headers_dict : dict str) : str :=
  normalize_crlf
    (Py.join [LF] (final_lines base host bearer_token extra_headers_dict)).

(* ------------------------------------------------------------------ *)
(** ** Reading a rendered request *)

(** The lines of a text whose line terminator is CRLF. *)
Fixpoint lines_crlf (s : str) : list str :=
  match s with
  | [] => [[]]
  | c :: s' =>
      match s' with
      | d :: s'' =>
          if Ascii.eqb c CR && Ascii.eqb d LF
          then [] :: lines_crlf s''
          else Py.cons_hd c (lines_crlf s')
      | [] => Py.cons_hd c (lines_crlf s')
      end
  end.

Definition nonempty (l : str) : bool :=
  match l with [] => false | _ => true end.

Fixpoint take_while {A : Type} (f : A -> bool) (l : list A) : list A :=
  match l with
  | x :: l' => if f x then x :: take_while f l' else []
  | [] => []
  end.

(** The lines between the request line and the first empty line. *)
Definition header_section (out : str) : list str :=
  take_while nonempty (tl (lines_crlf out)).

(** The name of a header line: the text before its first colon. *)
Definition header_name (l : str) : str := nth 0 (Py.split1 ":" l) [].

Definition is_header_line (l : str) : bool := Py.has_char ":" l.

(** A header line whose name is [name], letter case ignored. *)
Definition named_ci (name l : str) : bool :=
  is_header_line l && Py.str_eqb (Py.lower (header_name l)) name.

(** A header line whose name is [name] exactly. *)
Definition named (name l : str) : bool :=
  is_header_line l && Py.str_eqb (header_name l) name.

Definition no_char (c : ascii) (s : str) : Prop := ~ In c s.

(** No line break inside a piece of text. *)
Definition one_line (s : str) : Prop := no_char CR s /\ no_char LF s.

(** An extra header that is one header: no colon in its name, no line break
    in its name or value. *)
Definition plain_header (kv : str * str) : Prop :=
  no_char ":"%char (fst kv) /\ one_line (fst kv) /\ one_line (snd kv).

(** Character-wise readings of the three replacements of [normalize_crlf]. *)
Definition cr_to_lf (c : ascii) : ascii := if Ascii.eqb c CR then LF else c.

Definition lf_to_crlf (c : ascii) : str := if Ascii.eqb c LF then CRLF else [c].

(** The text just before the final [endswith] test. *)
Definition crlf_lines (s : str) : str :=
  Py.replace [LF] CRLF (Py.replace [CR] [LF] (Py.replace CRLF [LF] s)).

(** All of [hs], each followed by CRLF. *)
Definition terminated (hs : list str) : str :=
  flat_map (fun h => h ++ CRLF) hs.

(** *** Concrete requests used in examples *)

(** [GET / HTTP/1.1], one sampled header, the empty line: what
    [parse_and_generate] builds for an operation without a body. *)
Definition base_no_body : str :=
  #"GET / HTTP/1.1" ++ [LF] ++ #"Accept: application/json" ++ [LF].

Definition base_with_body : str :=
  #"POST /pets HTTP/1.1" ++ [LF] ++ #"Accept: application/json" ++ [LF]
  ++ #"Host: sampled.example" ++ [LF] ++ #"not a header" ++ [LF]
  ++ #"Authorization: Basic c2FtcGxl" ++ [LF] ++ [LF] ++ #"{}".

Definition extras_demo : dict str :=
  [(#"HOST", #"evil.example"); (#"X-Debug", #"1")].

(** A sampled header value with a carriage return in it. *)
Definition base_cr_in_header : str :=
  #"GET / HTTP/1.1" ++ [LF] ++ #"X-A: 1" ++ [CR] ++ #"Host: evil.example"
  ++ [LF] ++ [LF].

Definition base_cr_in_request_line : str :=
  #"GET /a" ++ [CR] ++ #"b HTTP/1.1" ++ [LF] ++ [LF].

Definition base_lowercase_auth : str :=
  #"GET / HTTP/1.1" ++ [LF] ++ #"authorization: Basic c2FtcGxl" ++ [LF]
  ++ [LF].

(** The value part of [sample_param]. *)
Definition sampled_val (depth : nat) (p spec : value) : outcome value :=
  sp <- sample_param depth p spec ;; Ret (sp_val sp).

(** The schema that [sample_param] samples: [p.get("schema") or {}]. *)
Definition param_schema (d : dict value) : value :=
  py_or (match Dict.lookup #"schema" d with Some s => s | None => VNone end)
        (VDict []).

(** [{"name": "id", "in": "query", "schema": {"type": "integer"},
     "example": null}] *)
Definition param_null_example : dict value :=
  [(#"name", VStr #"id"); (#"in", VStr #"query");
   (#"schema", VDict [(#"type", VStr #"integer")]); (#"example", VNone)].

Definition param_with_example : dict value :=
  [(#"name", VStr #"id"); (#"in", VStr #"query");
   (#"schema", VDict [(#"type", VStr #"integer")]); (#"example", VInt 7)].

(** Characters that need no further encoding in a query string. *)
Definition url_safe (c : ascii) : bool :=
  is_alnum c || Py.has_char c #".-*_+%".

(** The encoding of one character as the documentation of the encoder
    words it: the characters that stay, and a byte as [%XY] with upper-case
    hexadecimal digits. *)
Definition unreserved : str :=
  #"abcdefghijklmnopqrstuvwxyzABCDEFGHIJKLMNOPQRSTUVWXYZ0123456789.-*_".

Definition upper_hex (n : nat) : ascii := nth n #"0123456789ABCDEF" "0"%char.

Definition escaped (b : nat) : str :=
  ["%"%char; upper_hex (b / 16); upper_hex (b mod 16)].

(** [k=v] for an already stringified pair. *)
Definition encoded_pair (ss : str * str) : str :=
  _url_encode (fst ss) ++ #"=" ++ _url_encode (snd ss).

(** [str()] succeeded on every key and value of [query_params]. *)
Definition stringified (py_str : value -> outcome str)
    (query_params : list (value * value)) (strs : list (str * str)) : Prop :=
  Forall2 (fun kv ss => py_str (fst kv) = Ret (fst ss)
                        /\ py_str (snd kv) = Ret (snd ss))
    query_params strs.

(** *** Well-formed schema nodes *)

Definition is_dict (v : value) : bool :=
  match v with VDict _ => true | _ => false end.

(** A node that the sampler can handle, relative to the document [spec]:
    a falsy value; a mapping whose [$ref] is a string that, when it is a
    local pointer, leads to a well-formed node; or a mapping without [$ref]
    whose [items] is well-formed and whose [properties] is a mapping of
    well-formed nodes.  Being inductive, the predicate has no place for a
    chain of references that comes back to itself. *)
Inductive wf_schema (spec : value) : value -> Prop :=
| wf_falsy (s : value) :
    truthy s = false -> wf_schema spec s
| wf_ref (d : dict value) (r : str) :
    Dict.lookup #"$ref" d = Some (VStr r) ->
    (Py.startswith #"#/" r = true ->
     wf_schema spec (walk_ref spec (ref_parts r))) ->
    wf_schema spec (VDict d)
| wf_node (d : dict value) :
    Dict.lookup #"$ref" d = None ->
    (forall items, Dict.lookup #"items" d = Some items ->
                   wf_schema spec items) ->
    (forall props, Dict.lookup #"properties" d = Some props ->
                   is_dict props = true) ->
    (forall ps k s, Dict.lookup #"properties" d = Some (VDict ps) ->
                    In (k, s) ps -> wf_schema spec s) ->
    wf_schema spec (VDict d).

(** [{"$ref": 5}], [["a"]] as a schema node, and a document whose schema
    [Loop] refers to itself. *)
Definition schema_ref_not_string : value := VDict [(#"$ref", VInt 5)].

Definition schema_list : value := VList [VStr #"a"].

Definition spec_loop : value :=
  VDict [(#"Loop", VDict [(#"$ref", VStr #"#/Loop")])].

Definition schema_loop : value := VDict [(#"$ref", VStr #"#/Loop")].

(** A document with one object schema, and a reference to it. *)
Definition spec_pet : value :=
  VDict [(#"components",
          VDict [(#"schemas",
                  VDict [(#"Pet",
                          VDict [(#"type", VStr #"object");
                                 (#"properties",
                                  VDict [(#"name", VDict [(#"type", VStr #"string")]);
                                         (#"tags", VDict [(#"type", VStr #"array")])])])])])].

Definition schema_pet_ref : value :=
  VDict [(#"$ref", VStr #"#/components/schemas/Pet")].

(* ------------------------------------------------------------------ *)
(** ** [parse_extra_headers] *)

(** The line boundaries of [unicode.splitlines()] among the code points
    below 256: LF, VT, FF, CR, U+001C, U+001D, U+001E and U+0085. *)
Definition is_linebreak (c : ascii) : bool :=
  let n := nat_of_ascii c in
  ((10 <=? n) && (n <=? 13)) || ((28 <=? n) && (n <=? 30)) || (n =? 133).

(** [s.splitlines()]: a line ends at a line boundary, CR followed by LF
    being one boundary; no empty piece is added after a final boundary. *)
Fixpoint splitlines (s : str) : list str :=
  match s with
  | [] => []
  | c :: s' =>
      if is_linebreak c then
        if Ascii.eqb c CR then
          match s' with
          | d :: s'' =>
              if Ascii.eqb d LF then [] :: splitlines s''
              else [] :: splitlines s'
          | [] => [[]]
          end
        else [] :: splitlines s'
      else Py.cons_hd c (splitlines s')
  end.

(** The body of the loop, source lines 123-132. *)
Definition add_extra_line (headers : dict str) (raw : str) : dict str :=
  let line := Py.strip raw in
  if negb (nonempty line) || Py.startswith #"#" line then headers
  else
    let parts := Py.split1 ":" line in
    if negb (length parts =? 2) then headers
    else
      let name := Py.strip (nth 0 parts []) in
      let value := Py.strip (nth 1 parts []) in
      if nonempty name then Dict.set name value headers else headers.

Definition parse_extra_headers (textarea_value : str) : dict str :=
  match textarea_value with
  | [] => []
  | _ => fold_left add_extra_line (splitlines textarea_value) []
  end.

(* ------------------------------------------------------------------ *)
(** ** [parse_and_generate]: the request text *)

(** [upper] is applied to the method names of source line 291 only, which
    are ASCII literals: the letters [a-z] change. *)
Definition upper_char (c : ascii) : ascii :=
  let n := nat_of_ascii c in
  if (97 <=? n) && (n <=? 122) then ascii_of_nat (n - 32) else c.

(** [s.upper()] *)
Definition upper (s : str) : str := map upper_char s.

(** Source line 371. *)
Definition request_line (method final_path qs : str) : str :=
  upper method ++ #" " ++ final_path ++ qs ++ #" HTTP/1.1".

(** Source lines 373-384.  [body_text] is the serialised body sample,
    [None] when there is no body. *)
Definition compose_raw_base (method final_path qs : str)
    (headers_base : dict str) (body_text : option str) : str :=
  Py.join [LF]
    ([request_line method final_path qs]
     ++ map header_line headers_base
     ++ [[]]
     ++ match body_text with Some b => [b] | None => [] end).

(** Source lines 329-331: the seeded headers and the overlay of the header
    parameters, already stringified. *)
Definition seed_headers : dict str :=
  [(#"User-Agent", #"OpenAPI-to-Repeater/1.0"); (#"Accept", #"application/json")].

Definition overlay_headers (header_params : dict str) : dict str :=
  fold_left (fun hb kv => Dict.set (fst kv) (snd kv) hb) header_params
    seed_headers.

(** Source lines 360-362, with the sampled path parameters already
    stringified. *)
Definition placeholder (name : str) : str := #"{" ++ name ++ #"}".

Definition substitute_path (path_params : dict str) (path_template : str)
    : str :=
  fold_left
    (fun final_path kv => Py.replace (placeholder (fst kv)) (snd kv) final_path)
    path_params path_template.

(* ------------------------------------------------------------------ *)
(** ** [get_selected_item] and [view_selected_raw] *)

Record generated_request : Type := {
  label : str;
  raw_base : str;
  headers_base : dict str
}.

(** Source lines 411-415; [idx] is what the list widget reports. *)
Definition get_selected_item (idx : Z) (generated : list generated_request)
    : option generated_request :=
  if (idx <? 0)%Z || (Z.of_nat (length generated) <=? idx)%Z then None
  else nth_error generated (Z.to_nat idx).

Inductive view_result : Type :=
| SelectFirst             (* "Select a request first" *)
| HostEmpty               (* "Target host is empty." *)
| Preview (final_raw : str).

(** Source lines 498-518, with the texts of the three input fields. *)
Definition view_selected_raw (idx : Z) (generated : list generated_request)
    (txt_host txt_bearer ta_extra_headers : str) : view_result :=
  match get_selected_item idx generated with
  | None => SelectFirst
  | Some it =>
      let host_field := Py.strip txt_host in
      if negb (nonempty host_field) then HostEmpty
      else
        let extras := parse_extra_headers ta_extra_headers in
        let bearer := Py.strip txt_bearer in
        Preview (_build_final_raw (raw_base it) host_field bearer extras)
  end.

(* ------------------------------------------------------------------ *)
(** ** Auxiliary notions for the further properties *)

(** One call of the sampler with its recursive calls abstracted as [rec]. *)
Definition sample_step (rec : value -> outcome value) (schema spec : value)
    : outcome value :=
  if negb (truthy schema) then Ret VNone else
  has_ref <- py_in #"$ref" schema ;;
  if has_ref then
    ref <- py_getitem schema #"$ref" ;;
    local <- py_startswith ref #"#/" ;;
    if local then
      match ref with
      | VStr r => rec (walk_ref spec (ref_parts r))
      | _ => Raise AttributeError
      end
    else Ret (VStr #"example")
  else
  has_example <- py_in #"example" schema ;;
  if has_example then py_getitem schema #"example" else
  has_default <- py_in #"default" schema ;;
  if has_default then py_getitem schema #"default" else
  t <- py_get schema #"type" VNone ;;
  if negb (truthy t) then
    has_props <- py_in #"properties" schema ;;
    if has_props then sample_by_type rec (VStr #"object") schema
    else
      has_enum <- py_in #"enum" schema ;;
      if has_enum then
        enums <- py_get schema #"enum" VNone ;;
        match enums with
        | VList (e :: _) => Ret e
        | _ => Ret (VStr #"example")
        end
      else sample_by_type rec (VStr #"string") schema
  else sample_by_type rec t schema.

(** A call that does not end in [KeyError]. *)
Definition no_key_error {A : Type} (m : outcome A) : Prop :=
  m <> Raise KeyError.

(** A line of text: no line boundary of [splitlines] inside. *)
Definition no_line_break (s : str) : Prop :=
  forall c, In c s -> is_linebreak c = false.

(** Text without surrounding whitespace. *)
Definition stripped (s : str) : Prop := Py.strip s = s.

(** A header as [parse_and_generate] can hand it to the renderer without
    loss: a name without colon, both parts on one line and without
    surrounding whitespace. *)
Definition tidy_header (kv : str * str) : Prop :=
  plain_header kv /\ stripped (fst kv) /\ stripped (snd kv).

(** An extra header as [parse_extra_headers] stores it. *)
Definition good_extra (kv : str * str) : Prop :=
  tidy_header kv /\ fst kv <> [].

(** CR and LF occur only together, as CRLF. *)
Fixpoint crlf_only (s : str) : bool :=
  match s with
  | [] => true
  | c :: s' =>
      if Ascii.eqb c CR then
        match s' with
        | d :: s'' => Ascii.eqb d LF && crlf_only s''
        | [] => false
        end
      else negb (Ascii.eqb c LF) && crlf_only s'
  end.

(** Whether a list of at least two lines ends with an empty line. *)
Definition ends_blank (ls : list str) : bool :=
  match rev ls with
  | [] :: _ :: _ => true
  | _ => false
  end.

Definition is_digit (c : ascii) : bool :=
  match digit_val c with Some _ => true | None => false end.

Definition no_space (s : str) : Prop := forall c, In c s -> Py.is_space c = false.

(** Text made of whitespace only. *)
Definition all_space (s : str) : Prop :=
  forall c, In c s -> Py.is_space c = true.

(** The whitespace characters below U+0100, by code point: tab, LF, VT,
    FF, CR, U+001C-001F, space, U+0085 and U+00A0. *)
Definition whitespace : str :=
  map ascii_of_nat [9; 10; 11; 12; 13; 28; 29; 30; 31; 32; 133; 160].

Definition whitespace_only (s : str) : Prop :=
  forall c, In c s -> In c whitespace.

(** A non-empty string of decimal digits, and its value. *)
Definition digits (ds : str) : Prop :=
  ds <> [] /\ forall c, In c ds -> In c #"0123456789".

Definition decimal (ds : str) : Z :=
  fold_left (fun acc c => (10 * acc + (Z.of_nat (nat_of_ascii c) - 48))%Z)
    ds 0%Z.

(** The texts that are read as the integer [p]: decimal digits after an
    optional sign, with whitespace allowed before, after, and between the
    sign and the digits. *)
Definition integer_text (b : str) (p : Z) : Prop :=
  exists ws1 sign ws2 ds ws3 : str,
    b = ws1 ++ sign ++ ws2 ++ ds ++ ws3
    /\ all_space ws1 /\ all_space ws2 /\ all_space ws3 /\ digits ds
    /\ ((sign = [] /\ ws2 = [] /\ p = decimal ds)
        \/ (sign = #"+" /\ p = decimal ds)
        \/ (sign = #"-" /\ p = (- decimal ds)%Z)).

Definition first_char_not_in (chars s : str) : Prop :=
  match s with
  | c :: _ => Py.has_char c chars = false
  | [] => False
  end.

(** An object schema with two properties. *)
Definition schema_pet : dict value :=
  [(#"type", VStr #"object");
   (#"properties",
    VDict [(#"name", VDict [(#"type", VStr #"string")]);
           (#"age", VDict [(#"type", VStr #"integer"); (#"minimum", VInt 3)])])].

(** The three inputs behind the preview of the first generated request. *)
Definition demo_generated : list generated_request :=
  [{| label := #"POST /pets"; raw_base := base_with_body;
      headers_base := seed_headers |}].

Definition extras_text_demo : str :=
  #"X-Debug: 1" ++ [LF] ++ #"# comment" ++ [LF] ++ #"malformed-line" ++ [CR; LF]
  ++ #"Host: evil.example" ++ [LF] ++ #"X-Trace:42".

(* ================================================================== *)
(** * Facts about the built-ins *)

(** Case analysis over the 256 characters. *)
Ltac each_char c :=
  destruct c as [b0 b1 b2 b3 b4 b5 b6 b7];
  destruct b0, b1, b2, b3, b4, b5, b6, b7.

Module PyFacts.

Lemma str_eqb_eq (a b : str) : Py.str_eqb a b = true <-> a = b.
Proof.
  unfold Py.str_eqb. destruct (list_eq_dec ascii_dec a b); split; congruence.
Qed.

Lemma str_eqb_refl (a : str) : Py.str_eqb a a = true.
Proof. now apply str_eqb_eq. Qed.

Lemma str_eqb_neq (a b : str) : Py.str_eqb a b = false <-> a <> b.
Proof.
  unfold Py.str_eqb. destruct (list_eq_dec ascii_dec a b); split; congruence.
Qed.

Lemma has_char_In (c : ascii) (s : str) : Py.has_char c s = true <-> In c s.
Proof.
  unfold Py.has_char. rewrite existsb_exists. split.
  - intros [x [Hin Heq]]. apply Ascii.eqb_eq in Heq. now subst.
  - intros Hin. exists c. split; [assumption | apply Ascii.eqb_refl].
Qed.

Lemma has_char_false (c : ascii) (s : str) :
  Py.has_char c s = false <-> no_char c s.
Proof.
  unfold no_char. rewrite <- has_char_In.
  destruct (Py.has_char c s); split; congruence.
Qed.

Lemma no_char_cons (c x : ascii) (s : str) :
  no_char c (x :: s) <-> x <> c /\ no_char c s.
Proof. unfold no_char. simpl. intuition congruence. Qed.

Lemma no_char_app (c : ascii) (a b : str) :
  no_char c (a ++ b) <-> no_char c a /\ no_char c b.
Proof. unfold no_char. rewrite in_app_iff. tauto. Qed.

Lemma eqb_neq_false (x c : ascii) : x <> c -> Ascii.eqb x c = false.
Proof. intros H. now apply Ascii.eqb_neq. Qed.

(** *** [replace] *)

Lemma replace_char (a : ascii) (new s : str) :
  Py.replace [a] new s
  = flat_map (fun c => if Ascii.eqb c a then new else [c]) s.
Proof.
  unfold Py.replace. induction s as [|c s IH]; [reflexivity|].
  simpl. rewrite (Ascii.eqb_sym a c), andb_true_r.
  destruct (Ascii.eqb c a); simpl; now rewrite IH.
Qed.

Lemma replace_cr (s : str) : Py.replace [CR] [LF] s = map cr_to_lf s.
Proof.
  rewrite replace_char. induction s as [|c s IH]; [reflexivity|].
  simpl. unfold cr_to_lf at 1. destruct (Ascii.eqb c CR); simpl; now rewrite IH.
Qed.

Lemma replace_lf (s : str) : Py.replace [LF] CRLF s = flat_map lf_to_crlf s.
Proof. apply replace_char. Qed.

Lemma replace_crlf_nil : Py.replace CRLF [LF] [] = [].
Proof. reflexivity. Qed.

Lemma replace_crlf_hit (s : str) :
  Py.replace CRLF [LF] (CR :: LF :: s) = LF :: Py.replace CRLF [LF] s.
Proof. reflexivity. Qed.

Lemma replace_crlf_other (c : ascii) (s : str) :
  c <> CR ->
  Py.replace CRLF [LF] (c :: s) = c :: Py.replace CRLF [LF] s.
Proof.
  intros H. unfold Py.replace, CRLF.
  cbn [Py.replace_from Py.startswith].
  rewrite (Ascii.eqb_sym CR c), (eqb_neq_false H). reflexivity.
Qed.

Lemma replace_crlf_free (s : str) :
  no_char CR s -> Py.replace CRLF [LF] s = s.
Proof.
  induction s as [|c s IH]; [reflexivity|].
  intros H. apply no_char_cons in H. destruct H as [Hc Hs].
  rewrite replace_crlf_other by assumption. now rewrite IH.
Qed.

Lemma replace_crlf_app (a : str) (c : ascii) (s : str) :
  no_char CR a -> c <> CR ->
  Py.replace CRLF [LF] (a ++ c :: s) = a ++ c :: Py.replace CRLF [LF] s.
Proof.
  induction a as [|x a IH]; intros Ha Hc; simpl.
  - now apply replace_crlf_other.
  - apply no_char_cons in Ha. destruct Ha as [Hx Ha].
    rewrite replace_crlf_other by assumption. now rewrite IH.
Qed.

Lemma map_cr_to_lf_free (s : str) : no_char CR s -> map cr_to_lf s = s.
Proof.
  induction s as [|c s IH]; [reflexivity|].
  intros H. apply no_char_cons in H. destruct H as [Hc Hs].
  simpl. unfold cr_to_lf at 1. rewrite (eqb_neq_false Hc). now rewrite IH.
Qed.

Lemma map_cr_to_lf_no_cr (s : str) : no_char CR (map cr_to_lf s).
Proof.
  induction s as [|c s IH]; [intros []|].
  simpl. apply no_char_cons. split; [|assumption].
  unfold cr_to_lf. destruct (Ascii.eqb c CR) eqn:E.
  - discriminate.
  - now apply Ascii.eqb_neq.
Qed.

Lemma flat_map_lf_free (s : str) : no_char LF s -> flat_map lf_to_crlf s = s.
Proof.
  induction s as [|c s IH]; [reflexivity|].
  intros H. apply no_char_cons in H. destruct H as [Hc Hs].
  simpl. unfold lf_to_crlf at 1. rewrite (eqb_neq_false Hc). simpl.
  now rewrite IH.
Qed.

(** Collapsing CRLF undoes the expansion of LF on a text without CR. *)
Lemma collapse_expand (u : str) :
  no_char CR u -> Py.replace CRLF [LF] (flat_map lf_to_crlf u) = u.
Proof.
  induction u as [|c u IH]; [reflexivity|].
  intros H. apply no_char_cons in H. destruct H as [Hc Hu].
  simpl. unfold lf_to_crlf at 1. destruct (Ascii.eqb c LF) eqn:E.
  - apply Ascii.eqb_eq in E. subst c. simpl.
    rewrite replace_crlf_hit. now rewrite IH.
  - simpl. rewrite replace_crlf_other by assumption. now rewrite IH.
Qed.

Lemma endswith_app (p s : str) : Py.endswith p (s ++ p) = true.
Proof.
  unfold Py.endswith. rewrite rev_app_distr.
  induction (rev p) as [|c r IH]; [reflexivity|].
  simpl. now rewrite Ascii.eqb_refl, IH.
Qed.

End PyFacts.

(* ================================================================== *)
(** * [normalize_crlf] *)

Section Normalize.
Import PyFacts.

Lemma crlf_lines_eq (s : str) :
  crlf_lines s = flat_map lf_to_crlf (map cr_to_lf (Py.replace CRLF [LF] s)).
Proof. unfold crlf_lines. now rewrite replace_lf, replace_cr. Qed.

Lemma normalize_crlf_eq (s : str) :
  normalize_crlf s
  = if Py.endswith CRLF (crlf_lines s) then crlf_lines s
    else crlf_lines s ++ CRLF.
Proof.
  unfold normalize_crlf, crlf_lines.
  now destruct (Py.endswith CRLF _).
Qed.

(** The result always ends with CRLF. *)
Lemma normalize_crlf_ends_crlf (s : str) :
  Py.endswith CRLF (normalize_crlf s) = true.
Proof.
  rewrite normalize_crlf_eq.
  destruct (Py.endswith CRLF (crlf_lines s)) eqn:E; [assumption|].
  apply endswith_app.
Qed.

(** A CRLF-terminated expansion of a text without CR is a fixed point. *)
Lemma normalize_crlf_fixed (u : str) :
  no_char CR u ->
  Py.endswith CRLF (flat_map lf_to_crlf u) = true ->
  normalize_crlf (flat_map lf_to_crlf u) = flat_map lf_to_crlf u.
Proof.
  intros Hu Hend.
  rewrite normalize_crlf_eq, crlf_lines_eq.
  rewrite collapse_expand, map_cr_to_lf_free by assumption.
  now rewrite Hend.
Qed.

End Normalize.

(** C9.  Normalising twice is the same as normalising once: for every string
    [s], [normalize_crlf (normalize_crlf s) = normalize_crlf s]. *)
Theorem normalize_crlf_idempotent (s : str) :
  normalize_crlf (normalize_crlf s) = normalize_crlf s.
Proof.
  rewrite (normalize_crlf_eq s), crlf_lines_eq.
  set (u := map cr_to_lf (Py.replace CRLF [LF] s)).
  assert (Hu : no_char CR u) by apply PyFacts.map_cr_to_lf_no_cr.
  destruct (Py.endswith CRLF (flat_map lf_to_crlf u)) eqn:E.
  - now apply normalize_crlf_fixed.
  - replace (flat_map lf_to_crlf u ++ CRLF) with (flat_map lf_to_crlf (u ++ [LF]))
      by (rewrite flat_map_app; reflexivity).
    apply normalize_crlf_fixed.
    + apply PyFacts.no_char_app. split; [assumption|].
      apply PyFacts.no_char_cons. split; [discriminate | intros []].
    + rewrite flat_map_app. apply PyFacts.endswith_app.
Qed.

(* ================================================================== *)
(** * Lines: [split], [join] and the reading of a CRLF text *)

Module LineFacts.
Import PyFacts.

Lemma split_not_nil (c : ascii) (s : str) : Py.split c s <> [].
Proof.
  destruct s as [|x s]; simpl; [discriminate|].
  destruct (Ascii.eqb x c); [discriminate|].
  destruct (Py.split c s); discriminate.
Qed.

Lemma split_pieces (c : ascii) (s : str) : Forall (no_char c) (Py.split c s).
Proof.
  induction s as [|x s IH]; simpl.
  - constructor; [intros [] | constructor].
  - destruct (Ascii.eqb x c) eqn:E.
    + constructor; [intros [] | assumption].
    + apply Ascii.eqb_neq in E.
      destruct (Py.split c s) as [|l ls]; simpl.
      * constructor; [|constructor].
        apply no_char_cons. split; [assumption | intros []].
      * inversion IH; subst. constructor; [|assumption].
        apply no_char_cons. now split.
Qed.

(** Every piece of a split is made of characters of the text. *)
Lemma split_pieces_of (P : ascii -> Prop) (c : ascii) (s : str) :
  Forall P s -> Forall (Forall P) (Py.split c s).
Proof.
  induction s as [|x s IH]; intros H; simpl.
  - repeat constructor.
  - inversion H; subst. specialize (IH H3).
    destruct (Ascii.eqb x c).
    + constructor; [constructor | assumption].
    + destruct (Py.split c s) as [|l ls]; simpl.
      * repeat constructor. assumption.
      * inversion IH; subst. constructor; [|assumption]. now constructor.
Qed.

Lemma split_free (c : ascii) (s : str) : no_char c s -> Py.split c s = [s].
Proof.
  induction s as [|x s IH]; [reflexivity|].
  intros H. apply no_char_cons in H. destruct H as [Hx Hs].
  simpl. rewrite (eqb_neq_false Hx), IH by assumption. reflexivity.
Qed.

Lemma split_app (c : ascii) (a s : str) :
  no_char c a -> Py.split c (a ++ c :: s) = a :: Py.split c s.
Proof.
  induction a as [|x a IH]; intros H; simpl.
  - now rewrite Ascii.eqb_refl.
  - apply no_char_cons in H. destruct H as [Hx Ha].
    rewrite (eqb_neq_false Hx), IH by assumption. reflexivity.
Qed.

Lemma join_cons (sep l : str) (ls : list str) :
  ls <> [] -> Py.join sep (l :: ls) = l ++ sep ++ Py.join sep ls.
Proof. destruct ls; [congruence | reflexivity]. Qed.

(** Splitting a joined list of pieces gives the pieces back. *)
Lemma split_join (c : ascii) (ls : list str) :
  ls <> [] -> Forall (no_char c) ls -> Py.split c (Py.join [c] ls) = ls.
Proof.
  induction ls as [|l ls IH]; [congruence|].
  intros _ H. inversion H; subst.
  destruct ls as [|l' ls].
  - simpl. now apply split_free.
  - rewrite join_cons by discriminate.
    change ([c] ++ Py.join [c] (l' :: ls)) with (c :: Py.join [c] (l' :: ls)).
    rewrite split_app by assumption.
    rewrite IH; [reflexivity | discriminate | assumption].
Qed.

Lemma split1_free (c : ascii) (s : str) : no_char c s -> Py.split1 c s = [s].
Proof.
  induction s as [|x s IH]; [reflexivity|].
  intros H. apply no_char_cons in H. destruct H as [Hx Hs].
  simpl. rewrite (eqb_neq_false Hx), IH by assumption. reflexivity.
Qed.

(** [split1] cuts at the first separator. *)
Lemma split1_app (c : ascii) (a b : str) :
  no_char c a -> Py.split1 c (a ++ c :: b) = [a; b].
Proof.
  induction a as [|x a IH]; intros H; simpl.
  - now rewrite Ascii.eqb_refl.
  - apply no_char_cons in H. destruct H as [Hx Ha].
    rewrite (eqb_neq_false Hx), IH by assumption. reflexivity.
Qed.

(** A text with a separator is cut into a separator-free head and a tail. *)
Lemma first_cut (c : ascii) (s : str) :
  In c s -> exists a b, s = a ++ c :: b /\ no_char c a.
Proof.
  induction s as [|x s IH]; [intros []|].
  intros H. destruct (ascii_dec x c) as [->|Hx].
  - exists [], s. split; [reflexivity | intros []].
  - destruct H as [H|H]; [congruence|].
    destruct (IH H) as [a [b [Hs Ha]]].
    exists (x :: a), b. split; [now rewrite Hs|].
    apply no_char_cons. now split.
Qed.

Lemma lstrip_of (P : ascii -> Prop) (s : str) :
  Forall P s -> Forall P (Py.lstrip s).
Proof.
  induction s as [|x s IH]; intros H; simpl; [constructor|].
  destruct (Py.is_space x); [|assumption].
  inversion H; subst. now apply IH.
Qed.

Lemma strip_of (P : ascii -> Prop) (s : str) :
  Forall P s -> Forall P (Py.strip s).
Proof.
  intros H. unfold Py.strip, Py.rstrip.
  apply Forall_rev, lstrip_of, Forall_rev, lstrip_of, H.
Qed.

Lemma no_char_Forall (c : ascii) (s : str) :
  no_char c s <-> Forall (fun x => x <> c) s.
Proof.
  unfold no_char. rewrite Forall_forall. split.
  - intros H x Hx ->. contradiction.
  - intros H Hc. now apply (H c).
Qed.

Lemma strip_no_char (c : ascii) (s : str) :
  no_char c s -> no_char c (Py.strip s).
Proof. rewrite !no_char_Forall. apply strip_of. Qed.

(** *** Reading lines back *)

Lemma lines_crlf_not_nil (s : str) : lines_crlf s <> [].
Proof.
  destruct s as [|c [|d s]]; simpl; try discriminate.
  destruct (Ascii.eqb c CR && Ascii.eqb d LF); [discriminate|].
  destruct (match s with [] => _ | _ => _ end); discriminate.
Qed.

Lemma lines_crlf_cons (c : ascii) (s : str) :
  c <> CR -> lines_crlf (c :: s) = Py.cons_hd c (lines_crlf s).
Proof.
  intros H. destruct s as [|d s]; [reflexivity|].
  cbn [lines_crlf]. rewrite (eqb_neq_false H). reflexivity.
Qed.

Lemma lines_crlf_app (a s : str) :
  no_char CR a -> lines_crlf (a ++ CRLF ++ s) = a :: lines_crlf s.
Proof.
  induction a as [|x a IH]; intros H.
  - reflexivity.
  - apply no_char_cons in H. destruct H as [Hx Ha].
    simpl app. rewrite lines_crlf_cons by assumption.
    simpl app in IH. rewrite IH by assumption. reflexivity.
Qed.

(** The line terminator conversion goes through a clean first line. *)
Lemma crlf_lines_app (a s : str) :
  one_line a -> crlf_lines (a ++ LF :: s) = a ++ CRLF ++ crlf_lines s.
Proof.
  intros [Hcr Hlf].
  rewrite !crlf_lines_eq.
  rewrite replace_crlf_app by (assumption || discriminate).
  rewrite map_app, flat_map_app. simpl map. simpl flat_map.
  rewrite map_cr_to_lf_free, flat_map_lf_free by assumption.
  reflexivity.
Qed.

Lemma crlf_lines_nil : crlf_lines [] = [].
Proof. reflexivity. Qed.

Lemma crlf_lines_join (hs rest : list str) :
  Forall one_line hs -> rest <> [] ->
  crlf_lines (Py.join [LF] (hs ++ rest))
  = terminated hs ++ crlf_lines (Py.join [LF] rest).
Proof.
  intros H Hrest. induction H as [|h hs Hh Hhs IH]; [reflexivity|].
  simpl app. rewrite join_cons by (destruct hs; [assumption | discriminate]).
  simpl app. rewrite crlf_lines_app by assumption.
  rewrite IH. simpl. now rewrite <- !app_assoc.
Qed.

Lemma lines_crlf_terminated (hs : list str) (s : str) :
  Forall (no_char CR) hs ->
  lines_crlf (terminated hs ++ s) = hs ++ lines_crlf s.
Proof.
  intros H. induction H as [|h hs Hh Hhs IH]; [reflexivity|].
  simpl. rewrite <- !app_assoc.
  change (h ++ CRLF ++ terminated hs ++ s)
    with (h ++ CRLF ++ (terminated hs ++ s)).
  rewrite lines_crlf_app by assumption. now rewrite IH.
Qed.

Lemma endswith_crlf_terminated (hs : list str) :
  hs <> [] -> Py.endswith CRLF (terminated hs) = true.
Proof.
  intros H. destruct (exists_last H) as [hs' [h ->]].
  unfold terminated. rewrite flat_map_app. simpl. rewrite app_nil_r.
  rewrite app_assoc. apply endswith_app.
Qed.

End LineFacts.

(* ================================================================== *)
(** * The rendered request, line by line *)

Module RenderFacts.
Import PyFacts LineFacts.

(** What follows the clean leading lines [hs] in the rendered text. *)
Lemma normalize_join_prefix (hs rest : list str) :
  Forall one_line hs -> rest <> [] ->
  let t := crlf_lines (Py.join [LF] rest) in
  exists tail,
    normalize_crlf (Py.join [LF] (hs ++ rest)) = terminated hs ++ tail
    /\ (tail = t \/ tail = t ++ CRLF).
Proof.
  intros H Hrest t.
  rewrite normalize_crlf_eq, crlf_lines_join by assumption. fold t.
  destruct (Py.endswith CRLF (terminated hs ++ t)).
  - exists t. split; [reflexivity | now left].
  - exists (t ++ CRLF). split; [now rewrite app_assoc | now right].
Qed.

Lemma one_line_no_cr (hs : list str) :
  Forall one_line hs -> Forall (no_char CR) hs.
Proof. apply Forall_impl. now intros a [H _]. Qed.

(** The first lines of the output are the clean lines that were joined. *)
Lemma rendered_first_lines (hs rest : list str) :
  Forall one_line hs -> rest <> [] ->
  exists more,
    lines_crlf (normalize_crlf (Py.join [LF] (hs ++ rest))) = hs ++ more.
Proof.
  intros H Hrest.
  destruct (normalize_join_prefix H Hrest) as [tail [-> _]].
  exists (lines_crlf tail).
  apply lines_crlf_terminated, one_line_no_cr, H.
Qed.

(** When an empty line follows them, it is read back as an empty line. *)
Lemma rendered_header_lines (hs body : list str) :
  Forall one_line hs -> hs <> [] ->
  exists more,
    lines_crlf (normalize_crlf (Py.join [LF] (hs ++ [] :: body)))
    = hs ++ [] :: more.
Proof.
  intros H Hne.
  assert (Hrest : [] :: body <> []) by discriminate.
  destruct (normalize_join_prefix H Hrest) as [tail [Hout Htail]].
  rewrite Hout, lines_crlf_terminated by now apply one_line_no_cr.
  destruct body as [|b bs].
  - (* no body: nothing follows the last CRLF *)
    simpl in Htail.
    destruct Htail as [-> | ->]; [exists [] | exists [[]]]; reflexivity.
  - rewrite join_cons in Htail by discriminate.
    change ([] ++ [LF] ++ Py.join [LF] (b :: bs))
      with ([] ++ LF :: Py.join [LF] (b :: bs)) in Htail.
    rewrite crlf_lines_app in Htail
      by (split; intros []).
    destruct Htail as [-> | ->].
    + eexists. rewrite (lines_crlf_app (a := [])); [reflexivity | intros []].
    + eexists. rewrite <- !app_assoc.
      rewrite (lines_crlf_app (a := [])); [reflexivity | intros []].
Qed.

Lemma take_while_app {A : Type} (f : A -> bool) (l r : list A) (x : A) :
  Forall (fun y => f y = true) l -> f x = false ->
  take_while f (l ++ x :: r) = l.
Proof.
  intros H Hx. induction H as [|y l Hy Hl IH]; simpl.
  - now rewrite Hx.
  - now rewrite Hy, IH.
Qed.

Lemma header_section_of_lines (out : str) (h0 : str) (hs more : list str) :
  lines_crlf out = (h0 :: hs) ++ [] :: more ->
  Forall (fun h => nonempty h = true) hs ->
  header_section out = hs.
Proof.
  intros Hl Hne. unfold header_section. rewrite Hl. simpl.
  now apply take_while_app.
Qed.

(** *** The merged header mapping *)

Lemma set_Forall {V : Type} (P : str * V -> Prop) (k : str) (v : V)
    (d : dict V) :
  P (k, v) -> Forall P d -> Forall P (Dict.set k v d).
Proof.
  intros Hp H. induction H as [|[k' v'] d Hkv Hd IH]; simpl.
  - now repeat constructor.
  - destruct (Py.str_eqb k k') eqn:E.
    + apply str_eqb_eq in E. subst k'. now constructor.
    + now constructor.
Qed.

Lemma set_plain (k v : str) (d : dict str) :
  plain_header (k, v) -> Forall plain_header d ->
  Forall plain_header (Dict.set k v d).
Proof. apply set_Forall. Qed.

Lemma one_line_strip (s : str) : one_line s -> one_line (Py.strip s).
Proof. intros [H1 H2]. split; now apply strip_no_char. Qed.

Lemma one_line_app (a b : str) :
  one_line (a ++ b) <-> one_line a /\ one_line b.
Proof. unfold one_line. rewrite !no_char_app. tauto. Qed.

Lemma add_header_plain (ex : dict str) (h : str) :
  one_line h -> Forall plain_header ex -> Forall plain_header (add_header ex h).
Proof.
  intros Hh Hex. unfold add_header.
  destruct (Py.has_char ":" h) eqn:E; [|assumption].
  apply has_char_In, first_cut in E. destruct E as [a [b [-> Ha]]].
  rewrite split1_app by assumption. simpl nth.
  change (a ++ ":"%char :: b) with (a ++ [":"%char] ++ b) in Hh.
  apply one_line_app in Hh. destruct Hh as [Hla Hlb].
  apply one_line_app in Hlb. destruct Hlb as [_ Hlb].
  apply set_plain; [|assumption].
  repeat split; simpl.
  - now apply strip_no_char.
  - now apply one_line_strip.
  - now apply one_line_strip.
  - now apply one_line_strip.
  - now apply one_line_strip.
Qed.

Lemma fold_left_invariant {A B : Type} (P : A -> Prop) (Q : B -> Prop)
    (f : A -> B -> A) (l : list B) (a : A) :
  (forall a b, Q b -> P a -> P (f a b)) ->
  Forall Q l -> P a -> P (fold_left f l a).
Proof.
  intros Hf H. revert a. induction H as [|b l Hb Hl IH]; intros a Ha; simpl.
  - assumption.
  - apply IH. now apply Hf.
Qed.

Lemma parse_headers_plain (hs : list str) :
  Forall one_line hs -> Forall plain_header (parse_headers hs).
Proof.
  intros H. unfold parse_headers.
  apply fold_left_invariant with (Q := one_line); [|assumption|constructor].
  intros a b Hb Ha. now apply add_header_plain.
Qed.

Lemma add_extra_plain (ex : dict str) (kv : str * str) :
  plain_header kv -> Forall plain_header ex ->
  Forall plain_header (add_extra ex kv).
Proof.
  intros Hkv Hex. unfold add_extra. destruct (is_host (fst kv)); [assumption|].
  apply set_plain; [|assumption]. now destruct kv.
Qed.

Lemma bearer_plain (token : str) :
  one_line token -> plain_header (#"Authorization", #"Bearer " ++ token).
Proof.
  intros Ht. unfold plain_header, fst, snd. repeat split.
  - apply has_char_false. reflexivity.
  - apply has_char_false. reflexivity.
  - apply has_char_false. reflexivity.
  - apply no_char_app. split; [now apply has_char_false | apply Ht].
  - apply no_char_app. split; [now apply has_char_false | apply Ht].
Qed.

Lemma merged_headers_plain (hs : list str) (token : str) (extras : dict str) :
  Forall one_line hs -> one_line token -> Forall plain_header extras ->
  Forall plain_header (merged_headers hs token extras).
Proof.
  intros Hhs Ht Hex. unfold merged_headers.
  apply fold_left_invariant with (Q := plain_header); [|assumption|].
  - intros a b Hb Ha. now apply add_extra_plain.
  - destruct token as [|c token].
    + now apply parse_headers_plain.
    + apply set_plain; [now apply bearer_plain | now apply parse_headers_plain].
Qed.

(** *** Emitted header lines *)

Lemma header_line_one_line (kv : str * str) :
  plain_header kv -> one_line (header_line kv).
Proof.
  intros [_ [Hk Hv]]. unfold header_line.
  apply one_line_app. split; [assumption|].
  apply one_line_app. split; [|assumption].
  split; apply has_char_false; reflexivity.
Qed.

Lemma header_line_nonempty (kv : str * str) :
  nonempty (header_line kv) = true.
Proof. unfold header_line. destruct (fst kv); reflexivity. Qed.

Lemma header_line_has_colon (kv : str * str) :
  Py.has_char ":" (header_line kv) = true.
Proof.
  apply has_char_In. unfold header_line.
  apply in_or_app. right. now left.
Qed.

Lemma header_line_name (kv : str * str) :
  no_char ":"%char (fst kv) -> header_name (header_line kv) = fst kv.
Proof.
  intros H. unfold header_name, header_line.
  change (fst kv ++ #": " ++ snd kv)
    with (fst kv ++ ":"%char :: (" "%char :: snd kv)).
  now rewrite split1_app.
Qed.

Lemma named_ci_header_line (name : str) (kv : str * str) :
  plain_header kv ->
  named_ci name (header_line kv) = Py.str_eqb (Py.lower (fst kv)) name.
Proof.
  intros [Hk _]. unfold named_ci, is_header_line.
  now rewrite header_line_has_colon, header_line_name.
Qed.

Lemma named_header_line (name : str) (kv : str * str) :
  plain_header kv ->
  named name (header_line kv) = Py.str_eqb (fst kv) name.
Proof.
  intros [Hk _]. unfold named, is_header_line.
  now rewrite header_line_has_colon, header_line_name.
Qed.

Lemma emit_headers_one_line (d : dict str) :
  Forall plain_header d -> Forall one_line (emit_headers d).
Proof.
  intros H. unfold emit_headers. apply Forall_map.
  apply Forall_forall. intros kv Hin. apply filter_In in Hin.
  apply header_line_one_line.
  rewrite Forall_forall in H. now apply H.
Qed.

Lemma emit_headers_nonempty (d : dict str) :
  Forall (fun h => nonempty h = true) (emit_headers d).
Proof.
  unfold emit_headers. apply Forall_map, Forall_forall.
  intros kv _. apply header_line_nonempty.
Qed.

Lemma emit_headers_colon (d : dict str) :
  Forall (fun h => Py.has_char ":" h = true) (emit_headers d).
Proof.
  unfold emit_headers. apply Forall_map, Forall_forall.
  intros kv _. apply header_line_has_colon.
Qed.

(** No emitted line is a Host line. *)
Lemma emit_headers_no_host (d : dict str) :
  Forall plain_header d -> filter (named_ci #"host") (emit_headers d) = [].
Proof.
  intros H. unfold emit_headers.
  induction H as [|kv d Hkv Hd IH]; [reflexivity|].
  cbn [filter]. destruct (is_host (fst kv)) eqn:E; cbn [negb map filter];
    [assumption|].
  rewrite named_ci_header_line by assumption.
  unfold is_host in E. now rewrite E.
Qed.

(** *** The lines of [raw_base] *)

Lemma base_lines_one_line (base : str) :
  no_char CR base -> Forall one_line (Py.split LF base).
Proof.
  intros H. apply no_char_Forall in H.
  pose proof (split_pieces LF base) as Hlf.
  pose proof (split_pieces_of (P := fun x => x <> CR) LF H) as Hcr.
  rewrite Forall_forall in *. intros l Hl. split.
  - apply no_char_Forall. now apply Hcr.
  - now apply Hlf.
Qed.

Lemma Forall_tl {A : Type} (P : A -> Prop) (l : list A) :
  Forall P l -> Forall P (tl l).
Proof. intros H. destruct H; [constructor | assumption]. Qed.

Lemma Forall_firstn' {A : Type} (P : A -> Prop) (n : nat) (l : list A) :
  Forall P l -> Forall P (firstn n l).
Proof.
  intros H. rewrite Forall_forall in *. intros x Hx.
  apply H. rewrite <- (firstn_skipn n l). apply in_or_app. now left.
Qed.

Lemma headers_part_of (P : str -> Prop) (rest : list str) :
  Forall P rest -> Forall P (headers_part rest).
Proof.
  intros H. unfold headers_part.
  destruct (find_index is_blank rest); [now apply Forall_firstn' | assumption].
Qed.

Lemma first_line_of (P : str -> Prop) (ls : list str) :
  P [] -> Forall P ls -> P (nth 0 ls []).
Proof. intros H0 H. destruct H; assumption. Qed.

Lemma host_line_one_line (host : str) :
  one_line host -> one_line (#"Host: " ++ host).
Proof.
  intros H. apply one_line_app. split; [|assumption].
  split; apply has_char_false; reflexivity.
Qed.

(** The output, read line by line, under the hygiene conditions: the
    request line, the Host line, the emitted headers, an empty line. *)
Lemma render_lines (base host token : str) (extras : dict str) :
  no_char CR base -> one_line host -> one_line token ->
  Forall plain_header extras ->
  let rest := tl (Py.split LF base) in
  let emitted :=
    emit_headers (merged_headers (headers_part rest) token extras) in
  exists more,
    lines_crlf (_build_final_raw base host token extras)
    = (nth 0 (Py.split LF base) [] :: (#"Host: " ++ host) :: emitted)
      ++ [] :: more.
Proof.
  intros Hb Hh Ht Hex rest emitted.
  unfold _build_final_raw, final_lines. fold rest. fold emitted.
  pose proof (base_lines_one_line Hb) as Hlines.
  change ([nth 0 (Py.split LF base) []; #"Host: " ++ host]
          ++ emitted ++ [[]] ++ body_part rest)
    with ((nth 0 (Py.split LF base) [] :: (#"Host: " ++ host) :: emitted)
          ++ [] :: body_part rest).
  apply rendered_header_lines; [|discriminate].
  constructor; [|constructor].
  - apply first_line_of; [split; intros [] | assumption].
  - now apply host_line_one_line.
  - apply emit_headers_one_line, merged_headers_plain; try assumption.
    apply headers_part_of, Forall_tl, Hlines.
Qed.

Lemma render_header_section (base host token : str) (extras : dict str) :
  no_char CR base -> one_line host -> one_line token ->
  Forall plain_header extras ->
  header_section (_build_final_raw base host token extras)
  = (#"Host: " ++ host)
    :: emit_headers (merged_headers (headers_part (tl (Py.split LF base)))
                       token extras).
Proof.
  intros Hb Hh Ht Hex.
  destruct (render_lines Hb Hh Ht Hex) as [more Hl].
  apply (header_section_of_lines _ Hl).
  constructor; [reflexivity | apply emit_headers_nonempty].
Qed.

End RenderFacts.

(* ================================================================== *)
(** * Host line and request line *)

(** C4, as stated, fails: a carriage return inside a sampled header value
    is turned into a line break by the normalisation, and what follows it
    becomes a second Host line of the header section. *)
Lemma second_host_line_after_cr :
  filter (named_ci #"host")
    (header_section (_build_final_raw base_cr_in_header #"h" [] []))
  = [#"Host: h"; #"Host: evil.example"].
Proof. vm_compute. reflexivity. Qed.

(** C4 (amended).  When [raw_base] has no carriage return, the host field
    and the bearer token have no line break, and every extra header has a
    name without colon or line break and a value without line break, the
    second line of the output is [Host: <host_field>] and it is the only
    line of the header section whose name is Host in any letter case; an
    extra header named Host does not appear. *)
Theorem single_host_line (base host token : str) (extras : dict str) :
  no_char CR base -> one_line host -> one_line token ->
  Forall plain_header extras ->
  let out := _build_final_raw base host token extras in
  nth 1 (lines_crlf out) [] = #"Host: " ++ host
  /\ filter (named_ci #"host") (header_section out) = [#"Host: " ++ host].
Proof.
  intros Hb Hh Ht Hex out. subst out. split.
  - destruct (RenderFacts.render_lines Hb Hh Ht Hex) as [more ->].
    reflexivity.
  - rewrite RenderFacts.render_header_section by assumption.
    cbn [filter].
    replace (named_ci #"host" (#"Host: " ++ host)) with true by reflexivity.
    f_equal. apply RenderFacts.emit_headers_no_host.
    apply RenderFacts.merged_headers_plain; try assumption.
    apply RenderFacts.headers_part_of, RenderFacts.Forall_tl.
    now apply RenderFacts.base_lines_one_line.
Qed.

Lemma single_host_line_witness :
  filter (named_ci #"host")
    (header_section (_build_final_raw base_with_body #"h" #"tok" extras_demo))
  = [#"Host: h"].
Proof.
  apply (@single_host_line base_with_body #"h" #"tok" extras_demo).
  - apply PyFacts.has_char_false. reflexivity.
  - split; apply PyFacts.has_char_false; reflexivity.
  - split; apply PyFacts.has_char_false; reflexivity.
  - repeat constructor; apply PyFacts.has_char_false; reflexivity.
Defined.

(** C5, as stated, fails: a line break in the host argument ends the Host
    line early, and a carriage return in the first line of [raw_base] cuts
    the request line. *)
Lemma line_break_changes_host_or_request_line :
  nth 1 (lines_crlf (_build_final_raw base_no_body (#"a" ++ [LF] ++ #"b") [] []))
    [] = #"Host: a"
  /\ nth 0 (lines_crlf (_build_final_raw base_cr_in_request_line #"h" [] [])) []
     = #"GET /a"
  /\ nth 0 (Py.split LF base_cr_in_request_line) []
     = #"GET /a" ++ [CR] ++ #"b HTTP/1.1".
Proof. vm_compute. repeat split. Qed.

(** C5 (amended).  When the first line of [raw_base] has no carriage
    return and the host has no line break, rendering with an empty token and
    no extra headers gives an output whose first line is the first line of
    [raw_base] and whose second line is [Host: <host>]. *)
Theorem render_keeps_request_line_and_host (base host : str) :
  no_char CR (nth 0 (Py.split LF base) []) -> one_line host ->
  let out := _build_final_raw base host [] [] in
  nth 0 (lines_crlf out) [] = nth 0 (Py.split LF base) []
  /\ nth 1 (lines_crlf out) [] = #"Host: " ++ host.
Proof.
  intros Hrl Hh out. subst out.
  unfold _build_final_raw, final_lines.
  set (rl := nth 0 (Py.split LF base) []) in *.
  set (rest := emit_headers _ ++ [[]] ++ body_part _).
  assert (Hclean : Forall one_line [rl; #"Host: " ++ host]).
  { constructor; [|constructor; [|constructor]].
    - split; [assumption|].
      apply RenderFacts.first_line_of; [intros [] | apply LineFacts.split_pieces].
    - now apply RenderFacts.host_line_one_line. }
  assert (Hrest : rest <> []).
  { subst rest. intros E. apply app_eq_nil in E. destruct E as [_ E].
    discriminate. }
  destruct (RenderFacts.rendered_first_lines Hclean Hrest) as [more ->].
  split; reflexivity.
Qed.

Lemma render_keeps_request_line_and_host_witness :
  nth 0 (lines_crlf (_build_final_raw base_no_body #"example.com:8443" [] [])) []
  = #"GET / HTTP/1.1"
  /\ nth 1 (lines_crlf (_build_final_raw base_no_body #"example.com:8443" [] []))
       [] = #"Host: example.com:8443".
Proof.
  apply (@render_keeps_request_line_and_host base_no_body #"example.com:8443").
  - apply PyFacts.has_char_false. reflexivity.
  - split; apply PyFacts.has_char_false; reflexivity.
Defined.

(* ================================================================== *)
(** * Mappings with unique keys *)

Module DictFacts.
Import PyFacts.

Section Facts.
Variable V : Type.
Implicit Types (d : dict V) (k : str) (v : V).

Lemma lookup_set_same k v d : Dict.lookup k (Dict.set k v d) = Some v.
Proof.
  induction d as [|[k' v'] d IH]; simpl.
  - now rewrite str_eqb_refl.
  - destruct (Py.str_eqb k k') eqn:E; simpl; rewrite E; [reflexivity | apply IH].
Qed.

Lemma lookup_set_other k k' v d :
  k <> k' -> Dict.lookup k (Dict.set k' v d) = Dict.lookup k d.
Proof.
  intros Hne. induction d as [|[k0 v0] d IH]; simpl.
  - apply str_eqb_neq in Hne. now rewrite Hne.
  - destruct (Py.str_eqb k' k0) eqn:E; simpl.
    + apply str_eqb_eq in E. subst k0.
      apply str_eqb_neq in Hne. now rewrite Hne.
    + now rewrite IH.
Qed.

Lemma keys_set k v d :
  forall k0, In k0 (Dict.keys (Dict.set k v d)) ->
             k0 = k \/ In k0 (Dict.keys d).
Proof.
  intros k0. induction d as [|[k' v'] d IH]; simpl.
  - intros [H|[]]. now left.
  - destruct (Py.str_eqb k k'); simpl; intros [H|H]; auto.
    destruct (IH H); auto.
Qed.

Lemma set_NoDup k v d :
  NoDup (Dict.keys d) -> NoDup (Dict.keys (Dict.set k v d)).
Proof.
  induction d as [|[k' v'] d IH]; simpl; intros H.
  - constructor; [intros [] | constructor].
  - inversion H; subst.
    destruct (Py.str_eqb k k') eqn:E; simpl.
    + now constructor.
    + constructor; [|now apply IH].
      intros Hin. apply keys_set in Hin. destruct Hin as [->|Hin].
      * now rewrite str_eqb_refl in E.
      * contradiction.
Qed.

Lemma lookup_none_filter k d :
  ~ In k (Dict.keys d) ->
  filter (fun kv => Py.str_eqb (fst kv) k) d = [].
Proof.
  induction d as [|[k' v'] d IH]; simpl; intros H; [reflexivity|].
  destruct (Py.str_eqb k' k) eqn:E.
  - apply str_eqb_eq in E. subst. exfalso. apply H. now left.
  - apply IH. intros Hin. apply H. now right.
Qed.

(** In a mapping, the entries under a key are the one that [lookup]
    returns. *)
Lemma filter_key k v d :
  NoDup (Dict.keys d) -> Dict.lookup k d = Some v ->
  filter (fun kv => Py.str_eqb (fst kv) k) d = [(k, v)].
Proof.
  induction d as [|[k' v'] d IH]; simpl; intros Hnd Hl; [discriminate|].
  inversion Hnd; subst.
  destruct (Py.str_eqb k k') eqn:E.
  - apply str_eqb_eq in E. subst k'. rewrite str_eqb_refl.
    injection Hl as ->. f_equal. now apply lookup_none_filter.
  - assert (E' : Py.str_eqb k' k = false).
    { apply str_eqb_neq. apply str_eqb_neq in E. congruence. }
    rewrite E'. now apply IH.
Qed.

Lemma mem_false k d :
  Dict.mem k d = false -> Forall (fun kv => fst kv <> k) d.
Proof.
  unfold Dict.mem. induction d as [|[k' v'] d IH]; simpl; intros H.
  - constructor.
  - destruct (Py.str_eqb k k') eqn:E; [discriminate|].
    constructor; [|now apply IH].
    simpl. apply str_eqb_neq in E. congruence.
Qed.

End Facts.

Lemma filter_map_comm {A B : Type} (f : B -> bool) (g : A -> B)
    (l : list A) :
  filter f (map g l) = map g (filter (fun x => f (g x)) l).
Proof.
  induction l as [|x l IH]; simpl; [reflexivity|].
  destruct (f (g x)); simpl; now rewrite IH.
Qed.

Lemma filter_swap {A : Type} (f g : A -> bool) (l : list A) :
  filter f (filter g l) = filter g (filter f l).
Proof.
  induction l as [|x l IH]; simpl; [reflexivity|].
  destruct (f x) eqn:Ef, (g x) eqn:Eg; simpl;
    rewrite ?Ef, ?Eg, IH; reflexivity.
Qed.

Lemma filter_agree {A : Type} (P : A -> Prop) (f g : A -> bool)
    (l : list A) :
  (forall x, P x -> f x = g x) -> Forall P l -> filter f l = filter g l.
Proof.
  intros Hfg H. induction H as [|x l Hx Hl IH]; simpl; [reflexivity|].
  now rewrite (Hfg x Hx), IH.
Qed.

Lemma filter_Forall {A : Type} (P : A -> Prop) (f : A -> bool) (l : list A) :
  Forall P l -> Forall P (filter f l).
Proof.
  intros H. induction H as [|x l Hx Hl IH]; simpl; [constructor|].
  destruct (f x); [now constructor | assumption].
Qed.

End DictFacts.

(* ================================================================== *)
(** * Authorization *)

Module AuthFacts.
Import PyFacts RenderFacts DictFacts.

Lemma add_header_NoDup (ex : dict str) (h : str) :
  NoDup (Dict.keys ex) -> NoDup (Dict.keys (add_header ex h)).
Proof.
  intros H. unfold add_header. destruct (Py.has_char ":" h); [|assumption].
  now apply set_NoDup.
Qed.

Lemma add_extra_NoDup (ex : dict str) (kv : str * str) :
  NoDup (Dict.keys ex) -> NoDup (Dict.keys (add_extra ex kv)).
Proof.
  intros H. unfold add_extra. destruct (is_host (fst kv)); [assumption|].
  now apply set_NoDup.
Qed.

Lemma fold_left_preserves {A B : Type} (P : A -> Prop) (f : A -> B -> A)
    (l : list B) (a : A) :
  (forall a b, P a -> P (f a b)) -> P a -> P (fold_left f l a).
Proof.
  intros Hf. revert a. induction l as [|b l IH]; intros a Ha; simpl; auto.
Qed.

(** The merged mapping is a mapping: no key twice. *)
Lemma merged_headers_NoDup (hs : list str) (token : str) (extras : dict str) :
  NoDup (Dict.keys (merged_headers hs token extras)).
Proof.
  unfold merged_headers.
  apply fold_left_preserves; [intros; now apply add_extra_NoDup|].
  assert (H : NoDup (Dict.keys (parse_headers hs))).
  { unfold parse_headers.
    apply fold_left_preserves; [intros; now apply add_header_NoDup|].
    constructor. }
  destruct token; [assumption | now apply set_NoDup].
Qed.

Lemma merged_headers_authorization (hs : list str) (token : str)
    (extras : dict str) :
  token <> [] -> Dict.mem #"Authorization" extras = false ->
  Dict.lookup #"Authorization" (merged_headers hs token extras)
  = Some (#"Bearer " ++ token).
Proof.
  intros Ht Hex. unfold merged_headers.
  apply mem_false in Hex.
  apply fold_left_invariant with (Q := fun kv : str * str => fst kv <> #"Authorization");
    [|assumption|].
  - intros a [k v] Hk Ha. unfold add_extra. simpl in *.
    destruct (is_host k); [assumption|].
    rewrite lookup_set_other; [assumption | congruence].
  - destruct token; [congruence|]. apply lookup_set_same.
Qed.

End AuthFacts.

(** C6, as stated, fails: a sampled header spelled [authorization] is a
    different key of the mapping, so it stays in the output next to the
    injected one. *)
Lemma lowercase_authorization_kept :
  filter (named_ci #"authorization")
    (header_section (_build_final_raw base_lowercase_auth #"h" #"tok" []))
  = [#"authorization: Basic c2FtcGxl"; #"Authorization: Bearer tok"].
Proof. vm_compute. reflexivity. Qed.

(** C6 (amended).  With a non-empty bearer token and no extra header named
    [Authorization], the header section of the output has exactly one line
    whose name is [Authorization] in that spelling, and it is
    [Authorization: Bearer <token>]: a sampled header of that name is
    overridden.  ([raw_base] has no carriage return; host, token and extra
    headers are free of line breaks, extra header names of colons.) *)
Theorem bearer_overrides_authorization (base host token : str)
    (extras : dict str) :
  no_char CR base -> one_line host -> one_line token ->
  Forall plain_header extras ->
  token <> [] -> Dict.mem #"Authorization" extras = false ->
  filter (named #"Authorization")
    (header_section (_build_final_raw base host token extras))
  = [#"Authorization: Bearer " ++ token].
Proof.
  intros Hb Hh Ht Hex Hne Hno.
  rewrite RenderFacts.render_header_section by assumption.
  set (hs := headers_part (tl (Py.split LF base))).
  assert (Hplain : Forall plain_header (merged_headers hs token extras)).
  { apply RenderFacts.merged_headers_plain; try assumption.
    apply RenderFacts.headers_part_of, RenderFacts.Forall_tl.
    now apply RenderFacts.base_lines_one_line. }
  cbn [filter].
  replace (named #"Authorization" (#"Host: " ++ host)) with false by reflexivity.
  unfold emit_headers.
  rewrite DictFacts.filter_map_comm.
  rewrite (DictFacts.filter_agree
             (P := plain_header)
             (fun kv => named #"Authorization" (header_line kv))
             (fun kv => Py.str_eqb (fst kv) #"Authorization"));
    [| intros kv Hkv; now apply RenderFacts.named_header_line
     | now apply DictFacts.filter_Forall ].
  rewrite DictFacts.filter_swap.
  rewrite DictFacts.filter_key with (v := #"Bearer " ++ token);
    [ reflexivity
    | apply AuthFacts.merged_headers_NoDup
    | now apply AuthFacts.merged_headers_authorization ].
Qed.

Lemma bearer_overrides_authorization_witness :
  filter (named #"Authorization")
    (header_section (_build_final_raw base_with_body #"h" #"tok" extras_demo))
  = [#"Authorization: Bearer tok"].
Proof.
  apply (@bearer_overrides_authorization base_with_body #"h" #"tok" extras_demo).
  - apply PyFacts.has_char_false. reflexivity.
  - split; apply PyFacts.has_char_false; reflexivity.
  - split; apply PyFacts.has_char_false; reflexivity.
  - repeat constructor; apply PyFacts.has_char_false; reflexivity.
  - discriminate.
  - reflexivity.
Defined.

(* ================================================================== *)
(** * Header lines without a colon *)

Module SplitFacts.
Import PyFacts LineFacts.

Lemma find_index_cons {A : Type} (f : A -> bool) (x : A) (l : list A) :
  f x = false -> find_index f (x :: l) = option_map S (find_index f l).
Proof. intros H. simpl. now rewrite H. Qed.

Lemma headers_part_cons (h : str) (rest : list str) :
  is_blank h = false -> headers_part (h :: rest) = h :: headers_part rest.
Proof.
  intros H. unfold headers_part. rewrite find_index_cons by assumption.
  destruct (find_index is_blank rest); reflexivity.
Qed.

Lemma body_part_cons (h : str) (rest : list str) :
  is_blank h = false -> body_part (h :: rest) = body_part rest.
Proof.
  intros H. unfold body_part. rewrite find_index_cons by assumption.
  destruct (find_index is_blank rest); reflexivity.
Qed.

Lemma headers_part_app (hs rest : list str) :
  Forall (fun h => is_blank h = false) hs ->
  headers_part (hs ++ rest) = hs ++ headers_part rest.
Proof.
  intros H. induction H as [|h hs Hh Hhs IH]; [reflexivity|].
  simpl. rewrite headers_part_cons by assumption. now rewrite IH.
Qed.

Lemma body_part_app (hs rest : list str) :
  Forall (fun h => is_blank h = false) hs ->
  body_part (hs ++ rest) = body_part rest.
Proof.
  intros H. induction H as [|h hs Hh Hhs IH]; [reflexivity|].
  simpl. now rewrite body_part_cons.
Qed.

Lemma parse_headers_skip (hs1 hs2 : list str) (l : str) :
  Py.has_char ":" l = false ->
  parse_headers (hs1 ++ l :: hs2) = parse_headers (hs1 ++ hs2).
Proof.
  intros H. unfold parse_headers. rewrite !fold_left_app. simpl.
  unfold add_header at 2. now rewrite H.
Qed.

Lemma set_In (k v k0 v0 : str) (d : dict str) :
  In (k0, v0) (Dict.set k v d) -> (k0 = k /\ v0 = v) \/ In (k0, v0) d.
Proof.
  induction d as [|[k' v'] d IH]; simpl.
  - intros [E | []]. inversion E; subst. now left.
  - destruct (Py.str_eqb k k') eqn:Ek.
    + apply PyFacts.str_eqb_eq in Ek. subst k'.
      intros [E | Hin]; [inversion E; subst; now left | right; now right].
    + intros [E | Hin]; [right; now left|].
      apply IH in Hin. destruct Hin as [Hkv | Hin]; [now left | right; now right].
Qed.

(** Every entry of the parsed mapping comes from a line with a colon: its
    name and value are the trimmed texts before and after the first colon
    of that line. *)
Lemma parse_headers_source (hs : list str) (k v : str) :
  In (k, v) (parse_headers hs) ->
  exists h, In h hs /\ Py.has_char ":" h = true
            /\ k = Py.strip (nth 0 (Py.split1 ":" h) [])
            /\ v = Py.strip (nth 1 (Py.split1 ":" h) []).
Proof.
  unfold parse_headers.
  assert (G : forall hs' d,
             (forall k v, In (k, v) d ->
                exists h, In h hs /\ Py.has_char ":" h = true
                          /\ k = Py.strip (nth 0 (Py.split1 ":" h) [])
                          /\ v = Py.strip (nth 1 (Py.split1 ":" h) [])) ->
             incl hs' hs ->
             forall k v, In (k, v) (fold_left add_header hs' d) ->
               exists h, In h hs /\ Py.has_char ":" h = true
                         /\ k = Py.strip (nth 0 (Py.split1 ":" h) [])
                         /\ v = Py.strip (nth 1 (Py.split1 ":" h) [])).
  { induction hs' as [|h hs' IH]; intros d Hd Hincl k0 v0; simpl.
    - apply Hd.
    - apply IH.
      + intros k1 v1. unfold add_header.
        destruct (Py.has_char ":" h) eqn:Eh; [|apply Hd].
        intros Hin. apply set_In in Hin.
        destruct Hin as [[Hk Hv] | Hin]; [|now apply (Hd k1 v1)].
        exists h. split; [apply Hincl; now left|]. now repeat split.
      + intros x Hx. apply Hincl. now right. }
  apply (G hs []); [intros ? ? [] | apply incl_refl].
Qed.

Lemma join_no_cr (ls : list str) :
  Forall (no_char CR) ls -> no_char CR (Py.join [LF] ls).
Proof.
  induction ls as [|l ls IH]; intros H; [intros []|].
  inversion H as [|? ? Hl Hls]; subst.
  destruct ls as [|l' ls]; [exact Hl|].
  rewrite LineFacts.join_cons by discriminate.
  apply PyFacts.no_char_app. split; [assumption|].
  apply PyFacts.no_char_app. split; [|now apply IH].
  apply PyFacts.has_char_false. reflexivity.
Qed.

(** Splitting the text that [parse_and_generate] joined. *)
Lemma split_joined_lines (ls : list str) :
  ls <> [] -> Forall (no_char LF) ls -> Py.split LF (Py.join [LF] ls) = ls.
Proof. apply split_join. Qed.

End SplitFacts.

(** C10.  A line of the header section of [raw_base] that has no colon is
    dropped: the parsed header mapping and the final output are what they
    are without that line; the line is not among the header lines that are
    emitted, and every entry of the parsed mapping comes from another line
    of the header section, one with a colon, whose trimmed name and value
    it holds.  When the output can be read back line by line -- no
    carriage return in [raw_base], one line each in the host and token
    fields, plain extra headers -- the line is not in the header section
    of the output.  The header section of [raw_base] is the run of
    non-blank lines [hs1 ++ l :: ...] after the request line [rl]. *)
Theorem colonless_header_line_dropped (rl : str) (hs1 : list str) (l : str)
    (rest : list str) (host token : str) (extras : dict str) :
  Forall (no_char LF) (rl :: hs1 ++ l :: rest) ->
  Forall (fun h => is_blank h = false) hs1 ->
  is_blank l = false ->
  Py.has_char ":" l = false ->
  parse_headers (headers_part (hs1 ++ l :: rest))
  = parse_headers (headers_part (hs1 ++ rest))
  /\ _build_final_raw (Py.join [LF] (rl :: hs1 ++ l :: rest)) host token extras
     = _build_final_raw (Py.join [LF] (rl :: hs1 ++ rest)) host token extras
  /\ ~ In l (emit_headers
               (merged_headers (headers_part (hs1 ++ l :: rest)) token extras))
  /\ (forall k v : str,
        In (k, v) (parse_headers (headers_part (hs1 ++ l :: rest))) ->
        exists h, In h (headers_part (hs1 ++ l :: rest)) /\ h <> l
                  /\ Py.has_char ":" h = true
                  /\ k = Py.strip (nth 0 (Py.split1 ":" h) [])
                  /\ v = Py.strip (nth 1 (Py.split1 ":" h) []))
  /\ (Forall (no_char CR) (rl :: hs1 ++ l :: rest) ->
      one_line host -> one_line token -> Forall plain_header extras ->
      ~ In l (header_section
                (_build_final_raw (Py.join [LF] (rl :: hs1 ++ l :: rest))
                   host token extras))).
Proof.
  intros Hlines Hhs1 Hl Hcolon.
  assert (Hparse : parse_headers (headers_part (hs1 ++ l :: rest))
                   = parse_headers (headers_part (hs1 ++ rest))).
  { rewrite !SplitFacts.headers_part_app by assumption.
    rewrite SplitFacts.headers_part_cons by assumption.
    now apply SplitFacts.parse_headers_skip. }
  assert (Hemit : ~ In l (emit_headers
                            (merged_headers (headers_part (hs1 ++ l :: rest))
                               token extras))).
  { intros Hin.
    pose proof (RenderFacts.emit_headers_colon
                  (merged_headers (headers_part (hs1 ++ l :: rest))
                     token extras)) as Hall.
    rewrite Forall_forall in Hall. apply Hall in Hin. congruence. }
  split; [assumption|]. split; [|split; [exact Hemit|split]].
  - assert (Hlines' : Forall (no_char LF) (rl :: hs1 ++ rest)).
    { inversion Hlines as [|? ? Hrl Hrest]; subst. constructor; [assumption|].
      apply Forall_app in Hrest. destruct Hrest as [H1 H2].
      inversion H2; subst. apply Forall_app. now split. }
    unfold _build_final_raw, final_lines.
    rewrite !SplitFacts.split_joined_lines by (assumption || discriminate).
    cbn [nth tl]. unfold merged_headers. rewrite Hparse.
    rewrite !SplitFacts.body_part_app by assumption.
    now rewrite SplitFacts.body_part_cons.
  - intros k v Hin.
    destruct (SplitFacts.parse_headers_source _ _ _ Hin)
      as [h [Hh [Hc [Hk Hv]]]].
    exists h. repeat split; try assumption. intros ->. congruence.
  - intros Hcr Hhost Htoken Hextras.
    rewrite RenderFacts.render_header_section;
      [|now apply SplitFacts.join_no_cr | assumption | assumption
       | assumption].
    rewrite SplitFacts.split_joined_lines by (assumption || discriminate).
    cbn [tl]. intros [E | Hin]; [|now apply Hemit].
    subst l. discriminate Hcolon.
Qed.

Lemma colonless_header_line_dropped_witness :
  _build_final_raw
    (Py.join [LF] (#"GET / HTTP/1.1"
                   :: [#"Accept: */*"] ++ #"not a header" :: [#"X-A: 1"; []; #"{}"]))
    #"h" #"tok" extras_demo
  = _build_final_raw
      (Py.join [LF] (#"GET / HTTP/1.1" :: [#"Accept: */*"] ++ [#"X-A: 1"; []; #"{}"]))
      #"h" #"tok" extras_demo.
Proof.
  refine (proj1 (proj2 (@colonless_header_line_dropped #"GET / HTTP/1.1"
            [#"Accept: */*"] #"not a header" [#"X-A: 1"; []; #"{}"]
            #"h" #"tok" extras_demo _ _ _ _))).
  - repeat constructor; apply PyFacts.has_char_false; reflexivity.
  - repeat constructor.
  - reflexivity.
  - reflexivity.
Defined.

(* ================================================================== *)
(** * The end of the rendered text *)

(** C2.  The three replacements and the conditional CRLF are as described
    ([normalize_crlf_eq], [normalize_crlf_ends_crlf]), but the rendered text
    does not always end with CRLF CRLF: for a request without a body the
    joined text already ends with a line feed, nothing is appended, and the
    output stops right after the last header line. *)
Theorem render_without_body_ends_after_last_header :
  _build_final_raw base_no_body #"h" [] []
  = #"GET / HTTP/1.1" ++ CRLF ++ #"Host: h" ++ CRLF
    ++ #"Accept: application/json" ++ CRLF
  /\ Py.endswith (CRLF ++ CRLF) (_build_final_raw base_no_body #"h" [] [])
     = false.
Proof. vm_compute. split; reflexivity. Qed.

(* ================================================================== *)
(** * [parse_host_and_port] *)

Lemma strip_scheme_http (s : str) : strip_scheme (#"http://" ++ s) = s.
Proof. reflexivity. Qed.

Lemma strip_scheme_https (s : str) : strip_scheme (#"https://" ++ s) = s.
Proof. reflexivity. Qed.

Lemma strip_path_cut (a b : str) :
  no_char "/"%char a -> strip_path (a ++ "/"%char :: b) = a.
Proof.
  intros H. unfold strip_path.
  assert (E : Py.has_char "/" (a ++ "/"%char :: b) = true).
  { apply PyFacts.has_char_In, in_or_app. right. now left. }
  rewrite E, LineFacts.split_app by assumption. reflexivity.
Qed.

Lemma strip_path_none (s : str) : no_char "/"%char s -> strip_path s = s.
Proof.
  intros H. unfold strip_path.
  apply PyFacts.has_char_false in H. now rewrite H.
Qed.

(** C3, as stated, fails: the port is cut at the first colon, so on an
    IPv6 literal the code and a cut at the last colon disagree. *)
Lemma port_is_cut_at_first_colon :
  parse_host_and_port #"[::1]:8080" false = (#"[", 80%Z)
  /\ parse_host_and_port_last_colon #"[::1]:8080" false = (#"[::1]", 8080%Z).
Proof. vm_compute. split; reflexivity. Qed.

(* ================================================================== *)
(** * The sampled value of a parameter *)

(** C8, as stated, fails: [example] is read with [get] and compared with
    [None], so an [example] key whose value is null is treated as absent
    and the schema is sampled instead. *)
Lemma null_example_is_ignored :
  Dict.lookup #"example" param_null_example = Some VNone
  /\ sampled_val 2 (VDict param_null_example) VNone = Ret (VInt 1).
Proof. vm_compute. split; reflexivity. Qed.

(** C8 (amended).  For a parameter mapping, the sampled value is the
    [example] value when the key is present with a value other than null;
    when the key is absent or its value is null it is the sample of the
    parameter's schema ([{}] when there is none). *)
Theorem sampled_val_example_or_schema (depth : nat) (d : dict value)
    (spec : value) :
  (forall e, Dict.lookup #"example" d = Some e -> e <> VNone ->
             sampled_val depth (VDict d) spec = Ret e)
  /\ (Dict.lookup #"example" d = None
      \/ Dict.lookup #"example" d = Some VNone ->
      sampled_val depth (VDict d) spec
      = simple_sample_from_schema depth (param_schema d) spec).
Proof.
  unfold sampled_val, sample_param, param_schema.
  cbn [py_get bind]. split.
  - intros e He Hne. rewrite He. destruct e; try reflexivity. congruence.
  - intros [He | He]; rewrite He; cbn [is_none];
      destruct (simple_sample_from_schema depth _ spec); reflexivity.
Qed.

Lemma sampled_val_example_or_schema_witness :
  sampled_val 2 (VDict param_with_example) VNone = Ret (VInt 7).
Proof.
  apply (proj1 (@sampled_val_example_or_schema 2 param_with_example VNone)).
  - reflexivity.
  - discriminate.
Defined.

(* ================================================================== *)
(** * The query string *)

Module UrlFacts.
Import PyFacts LineFacts.

Lemma url_char_safe (c : ascii) : forallb url_safe (url_char c) = true.
Proof.
  destruct c as [b0 b1 b2 b3 b4 b5 b6 b7].
  destruct b0, b1, b2, b3, b4, b5, b6, b7; reflexivity.
Qed.

Lemma url_encode_eq (s : str) : _url_encode s = flat_map url_char s.
Proof. reflexivity. Qed.

Lemma url_encode_safe (s : str) : forallb url_safe (_url_encode s) = true.
Proof.
  rewrite url_encode_eq. induction s as [|c s IH]; [reflexivity|].
  simpl. rewrite forallb_app, IH, url_char_safe. reflexivity.
Qed.

(** An encoded text has none of the characters that structure a query. *)
Lemma url_encode_no_char (c : ascii) (s : str) :
  url_safe c = false -> no_char c (_url_encode s).
Proof.
  intros Hc Hin.
  pose proof (url_encode_safe s) as H. rewrite forallb_forall in H.
  specialize (H c Hin). congruence.
Qed.

Lemma url_encode_app (a b : str) :
  _url_encode (a ++ b) = _url_encode a ++ _url_encode b.
Proof. rewrite !url_encode_eq. apply flat_map_app. Qed.

Lemma url_encode_unreserved (c : ascii) :
  In c unreserved -> _url_encode [c] = [c].
Proof.
  intros H. apply has_char_In in H. revert H.
  each_char c; vm_compute; intros H; (reflexivity || discriminate H).
Qed.

Lemma url_encode_one_byte (c : ascii) :
  ~ In c unreserved -> c <> " "%char -> nat_of_ascii c < 128 ->
  _url_encode [c] = escaped (nat_of_ascii c).
Proof.
  intros H Hsp Hn. apply has_char_false in H.
  assert (Hs : Ascii.eqb c " " = false) by now apply eqb_neq_false.
  apply Nat.ltb_lt in Hn. revert H Hs Hn.
  each_char c; vm_compute; intros H Hs Hn;
    (reflexivity || discriminate H || discriminate Hs || discriminate Hn).
Qed.

Lemma url_encode_two_bytes (c : ascii) :
  128 <= nat_of_ascii c ->
  _url_encode [c] = escaped (192 + nat_of_ascii c / 64)
                    ++ escaped (128 + nat_of_ascii c mod 64).
Proof.
  intros Hn. apply Nat.leb_le in Hn. revert Hn.
  each_char c; vm_compute; intros Hn; (reflexivity || discriminate Hn).
Qed.

Lemma encoded_pair_no_amp (ss : str * str) : no_char "&"%char (encoded_pair ss).
Proof.
  unfold encoded_pair. rewrite !no_char_app. repeat split.
  - now apply url_encode_no_char.
  - apply has_char_false. reflexivity.
  - now apply url_encode_no_char.
Qed.

Section Pairs.
Variable py_str : value -> outcome str.

Lemma query_pairs_stringified (qp : list (value * value))
    (strs : list (str * str)) :
  stringified py_str qp strs ->
  query_pairs py_str qp = Ret (map encoded_pair strs).
Proof.
  intros H. induction H as [|kv ss qp strs [Hk Hv] Hrest IH];
    [reflexivity|].
  cbn [query_pairs map]. unfold query_pair.
  rewrite Hk, Hv. cbn [bind]. rewrite IH. reflexivity.
Qed.
End Pairs.

End UrlFacts.

(** C7, as stated, fails: the encoder that is called turns a space into
    [+]; [%20] is produced only by the fallback. *)
Lemma space_is_encoded_as_plus :
  _url_encode #"a b" = #"a+b"
  /\ Py.contains #"%20" (_url_encode #"a b") = false
  /\ query_string str_of_text [(VStr #"q", VStr #"a b")] = Ret #"?q=a+b".
Proof. vm_compute. repeat split. Qed.

(** C7 (amended).  When [str()] succeeds on every key and value, the query
    string is empty for an operation without query parameters and otherwise
    is [?] followed by the [k=v] pairs joined with [&]; the pairs and their
    two sides can be read back by cutting at [&] and at the first [=].
    Each side is encoded character by character: the letters [a-z] and
    [A-Z], the digits and [.-*_] stay, a space becomes [+], and any other
    character becomes the bytes of its UTF-8 form -- one byte below U+0080,
    two from there on -- each byte written [%XY] in upper-case hexadecimal;
    no space is left.  When the encoder call raises, the text is kept with
    each space replaced by [%20]. *)
Theorem query_string_shape (py_str : value -> outcome str)
    (query_params : list (value * value)) (strs : list (str * str)) :
  stringified py_str query_params strs ->
  query_string py_str query_params
  = Ret (match strs with
         | [] => []
         | _ => #"?" ++ Py.join #"&"
                  (map (fun ss => _url_encode (fst ss) ++ #"="
                                  ++ _url_encode (snd ss)) strs)
         end)
  /\ (strs <> [] ->
      Py.split "&" (Py.join #"&"
                      (map (fun ss => _url_encode (fst ss) ++ #"="
                                      ++ _url_encode (snd ss)) strs))
      = map (fun ss => _url_encode (fst ss) ++ #"=" ++ _url_encode (snd ss))
          strs)
  /\ Forall (fun ss => Py.split1 "=" (_url_encode (fst ss) ++ #"="
                                      ++ _url_encode (snd ss))
                       = [_url_encode (fst ss); _url_encode (snd ss)]) strs
  /\ _url_encode [] = []
  /\ (forall a b : str, _url_encode (a ++ b) = _url_encode a ++ _url_encode b)
  /\ (forall c : ascii, In c unreserved -> _url_encode [c] = [c])
  /\ _url_encode #" " = #"+"
  /\ (forall c : ascii,
        ~ In c unreserved -> c <> " "%char -> nat_of_ascii c < 128 ->
        _url_encode [c] = escaped (nat_of_ascii c))
  /\ (forall c : ascii,
        128 <= nat_of_ascii c ->
        _url_encode [c] = escaped (192 + nat_of_ascii c / 64)
                          ++ escaped (128 + nat_of_ascii c mod 64))
  /\ (forall s : str, no_char " "%char (_url_encode s))
  /\ (forall (encode : str -> outcome str) (s : str) (e : exn),
        encode s = Raise e ->
        _url_encode_with encode s = Py.replace #" " #"%20" s).
Proof.
  intros H.
  change (fun ss : str * str =>
            _url_encode (fst ss) ++ #"=" ++ _url_encode (snd ss))
    with encoded_pair.
  split; [|split; [|split; [|split; [|split; [|split; [|split; [|split;
    [|split; [|split]]]]]]]]].
  - unfold query_string.
    pose proof (UrlFacts.query_pairs_stringified H) as Hp.
    destruct H as [|kv ss qp strs' Hkv Hrest]; [reflexivity|].
    rewrite Hp. reflexivity.
  - intros Hne. apply LineFacts.split_join.
    + destruct strs; [congruence | discriminate].
    + apply Forall_map, Forall_forall. intros ss _.
      apply UrlFacts.encoded_pair_no_amp.
  - apply Forall_forall. intros ss _.
    change (_url_encode (fst ss) ++ #"=" ++ _url_encode (snd ss))
      with (_url_encode (fst ss) ++ "="%char :: _url_encode (snd ss)).
    apply LineFacts.split1_app. now apply UrlFacts.url_encode_no_char.
  - reflexivity.
  - intros a b. apply UrlFacts.url_encode_app.
  - intros c Hc. now apply UrlFacts.url_encode_unreserved.
  - reflexivity.
  - intros c Hc Hsp Hn. now apply UrlFacts.url_encode_one_byte.
  - intros c Hn. now apply UrlFacts.url_encode_two_bytes.
  - intros s. now apply UrlFacts.url_encode_no_char.
  - intros encode s e He. unfold _url_encode_with. now rewrite He.
Qed.

Lemma query_string_shape_witness :
  query_string str_of_text [(VStr #"q", VStr #"a b"); (VStr #"x&y", VNone)]
  = Ret #"?q=a+b&x%26y=None".
Proof.
  etransitivity.
  - refine (proj1 (@query_string_shape str_of_text
              [(VStr #"q", VStr #"a b"); (VStr #"x&y", VNone)]
              [(#"q", #"a b"); (#"x&y", #"None")] _)).
    repeat constructor.
  - vm_compute. reflexivity.
Defined.

(* ================================================================== *)
(** * [simple_sample_from_schema] returns on well-formed nodes *)

Module SampleFacts.

Lemma sample_props_total (f : value -> outcome value)
    (props : list (str * value)) :
  (forall k s, In (k, s) props -> exists v, f s = Ret v) ->
  forall obj, exists v, sample_props f props obj = Ret v.
Proof.
  induction props as [|[k s] props IH]; intros H obj; simpl.
  - eexists. reflexivity.
  - destruct (H k s) as [v Hv]; [now left|].
    rewrite Hv. cbn [bind]. apply IH.
    intros k' s' Hin. apply (H k' s'). now right.
Qed.

(** Sampling by type returns when the recursive calls it makes do. *)
Lemma sample_by_type_total (rec : value -> outcome value) (t : value)
    (d : dict value) :
  (exists v, rec (VDict [(#"type", VStr #"string")]) = Ret v) ->
  (forall items, Dict.lookup #"items" d = Some items ->
                 exists v, rec items = Ret v) ->
  (forall props, Dict.lookup #"properties" d = Some props ->
                 is_dict props = true) ->
  (forall ps k s, Dict.lookup #"properties" d = Some (VDict ps) ->
                  In (k, s) ps -> exists v, rec s = Ret v) ->
  exists v, sample_by_type rec t (VDict d) = Ret v.
Proof.
  intros Hdefault Hitems Hdict Hprops. unfold sample_by_type.
  cbn [py_get py_in bind].
  destruct (eq_str t #"string").
  { repeat match goal with
           | |- context [if ?c then _ else _] => destruct c
           end; eexists; reflexivity. }
  destruct (eq_str t #"integer" || eq_str t #"number").
  { destruct (Dict.mem #"minimum" d); [eexists; reflexivity|].
    destruct (Dict.mem #"maximum" d); eexists; reflexivity. }
  destruct (eq_str t #"boolean"); [eexists; reflexivity|].
  destruct (eq_str t #"array").
  { destruct (Dict.lookup #"items" d) as [items|] eqn:E.
    - destruct (Hitems items eq_refl) as [v ->]. eexists. reflexivity.
    - destruct Hdefault as [v ->]. eexists. reflexivity. }
  destruct (eq_str t #"object"); [|eexists; reflexivity].
  destruct (Dict.lookup #"properties" d) as [props|] eqn:E.
  - pose proof (Hdict props eq_refl) as Hp.
    destruct props; try discriminate. cbn [py_items bind].
    apply sample_props_total. intros k s. now apply Hprops.
  - cbn [py_items bind sample_props]. eexists. reflexivity.
Qed.

(** One bound for finitely many eventually-true properties. *)
Lemma uniform_bound {A : Type} (P : A -> nat -> Prop) (l : list A) :
  (forall x, In x l -> exists n, forall m, n <= m -> P x m) ->
  exists N, forall x, In x l -> forall m, N <= m -> P x m.
Proof.
  induction l as [|a l IH]; intros H.
  - exists 0. intros x [].
  - destruct (H a (or_introl eq_refl)) as [na Ha].
    destruct IH as [N HN]; [intros x Hx; apply H; now right|].
    exists (Nat.max na N). intros x [<-|Hx] m Hm.
    + apply Ha. lia.
    + apply HN; [assumption | lia].
Qed.

Lemma sample_default_items (depth : nat) (spec : value) :
  1 <= depth ->
  simple_sample_from_schema depth (VDict [(#"type", VStr #"string")]) spec
  = Ret (VStr #"example").
Proof. intros H. destruct depth; [lia | reflexivity]. Qed.

Lemma lookup_some_truthy (k : str) (d : dict value) (v : value) :
  Dict.lookup k d = Some v -> truthy (VDict d) = true.
Proof. destruct d; [discriminate | reflexivity]. Qed.

End SampleFacts.

(** C1, as stated, fails: a [$ref] that is not a string and a node that is
    a list raise at every recursion limit, and a schema that refers to
    itself exhausts every recursion limit. *)
Lemma sampler_raises_on_malformed_nodes :
  ~ (exists depth v,
       simple_sample_from_schema depth schema_ref_not_string VNone = Ret v)
  /\ ~ (exists depth v,
          simple_sample_from_schema depth schema_list VNone = Ret v)
  /\ ~ (exists depth v,
          simple_sample_from_schema depth schema_loop spec_loop = Ret v).
Proof.
  repeat split.
  - intros [[|depth] [v H]]; vm_compute in H; discriminate.
  - intros [[|depth] [v H]]; vm_compute in H; discriminate.
  - intros [depth [v H]]. revert H.
    induction depth as [|depth IH]; [discriminate|].
    intros H. apply IH. exact H.
Qed.

(** C1 (amended).  On a well-formed node -- a falsy value, or a mapping
    whose [$ref] is a string with a well-formed target, or a mapping without
    [$ref] whose [items] is well-formed and whose [properties] is a mapping
    of well-formed nodes -- the sampler returns a value and does not raise,
    at every recursion limit from some bound on. *)
Theorem sampler_returns_on_well_formed (spec schema : value) :
  wf_schema spec schema ->
  exists n, forall depth, n <= depth ->
    exists v, simple_sample_from_schema depth schema spec = Ret v.
Proof.
  intros H.
  induction H as [s Hs | d r Href _ IH | d Href _ IHitems Hdict _ IHprops].
  - exists 1. intros [|depth] Hd; [lia|].
    cbn [simple_sample_from_schema]. rewrite Hs. eexists. reflexivity.
  - assert (Hn : exists n, forall depth, n <= depth ->
               Py.startswith #"#/" r = true ->
               exists v, simple_sample_from_schema depth
                           (walk_ref spec (ref_parts r)) spec = Ret v).
    { destruct (Py.startswith #"#/" r) eqn:E.
      - destruct (IH eq_refl) as [n Hn]. exists n. intros depth Hd _.
        now apply Hn.
      - exists 0. discriminate. }
    destruct Hn as [n Hn]. exists (S n). intros [|depth] Hd; [lia|].
    cbn [simple_sample_from_schema].
    rewrite (SampleFacts.lookup_some_truthy _ _ Href).
    cbn [negb py_in bind py_getitem]. unfold Dict.mem. rewrite Href.
    cbn [bind py_startswith].
    destruct (Py.startswith #"#/" r) eqn:E.
    + apply Hn; [lia | reflexivity || assumption].
    + eexists. reflexivity.
  - assert (Hi : exists ni, forall items,
               Dict.lookup #"items" d = Some items ->
               forall depth, ni <= depth ->
               exists v, simple_sample_from_schema depth items spec = Ret v).
    { destruct (Dict.lookup #"items" d) as [items|].
      - destruct (IHitems items eq_refl) as [n Hn]. exists n.
        intros items' [= <-]. exact Hn.
      - exists 0. discriminate. }
    assert (Hp : exists np, forall ps k s,
               Dict.lookup #"properties" d = Some (VDict ps) ->
               In (k, s) ps ->
               forall depth, np <= depth ->
               exists v, simple_sample_from_schema depth s spec = Ret v).
    { destruct (Dict.lookup #"properties" d) as [[ | | | | | |ps]|];
        try (exists 0; discriminate).
      destruct (@SampleFacts.uniform_bound (str * value)
                  (fun ks depth =>
                     exists v, simple_sample_from_schema depth (snd ks) spec
                               = Ret v) ps) as [N HN].
      - intros [k s] Hin. now apply (IHprops ps k s).
      - exists N. intros ps' k s [= <-] Hin. apply (HN (k, s) Hin). }
    destruct Hi as [ni Hni]. destruct Hp as [np Hnp].
    exists (S (Nat.max 1 (Nat.max ni np))). intros [|depth] Hd; [lia|].
    cbn [simple_sample_from_schema].
    destruct (truthy (VDict d)); cbn [negb]; [|eexists; reflexivity].
    cbn [py_in bind py_getitem py_get]. unfold Dict.mem. rewrite Href.
    destruct (Dict.lookup #"example" d); [eexists; reflexivity|].
    destruct (Dict.lookup #"default" d); [eexists; reflexivity|].
    assert (Hrec : forall t, exists v,
               sample_by_type
                 (fun s => simple_sample_from_schema depth s spec) t (VDict d)
               = Ret v).
    { intros t. apply SampleFacts.sample_by_type_total.
      - eexists. apply SampleFacts.sample_default_items. lia.
      - intros items Hi. apply (Hni items Hi). lia.
      - assumption.
      - intros ps k s Hp Hin. apply (Hnp ps k s Hp Hin). lia. }
    destruct (truthy _); cbn [negb]; [apply Hrec|].
    destruct (Dict.lookup #"properties" d); [apply Hrec|].
    destruct (Dict.lookup #"enum" d) as [enums|]; [|apply Hrec].
    destruct enums as [ | | | | |[|e l]| ]; eexists; reflexivity.
Qed.

(** A mapping with neither [$ref], [items] nor [properties] is well-formed. *)
Ltac wf_leaf :=
  apply wf_node;
  [ reflexivity
  | intros ? Hl; vm_compute in Hl; discriminate Hl
  | intros ? Hl; vm_compute in Hl; discriminate Hl
  | intros ? ? ? Hl; vm_compute in Hl; discriminate Hl ].

Lemma sampler_returns_on_well_formed_witness :
  exists n, forall depth, n <= depth ->
    exists v, simple_sample_from_schema depth schema_pet_ref spec_pet = Ret v.
Proof.
  apply (@sampler_returns_on_well_formed spec_pet schema_pet_ref).
  apply wf_ref with (r := #"#/components/schemas/Pet"); [reflexivity|].
  intros _. vm_compute walk_ref.
  apply wf_node.
  - reflexivity.
  - intros items Hl. vm_compute in Hl. discriminate Hl.
  - intros props Hl. vm_compute in Hl. injection Hl as <-. reflexivity.
  - intros ps k s Hl Hin. vm_compute in Hl. injection Hl as <-.
    destruct Hin as [E | [E | []]]; injection E as <- <-; wf_leaf.
Defined.

(* ================================================================== *)
(** * Further properties: whitespace *)

Module StripFacts.
Import PyFacts LineFacts.

Lemma lstrip_app (a b : str) :
  match b with c :: _ => Py.is_space c = false | [] => False end ->
  Py.lstrip (a ++ b) = Py.lstrip a ++ b.
Proof.
  intros Hb. induction a as [|x a IH]; simpl.
  - destruct b as [|c b]; [contradiction|]. simpl. now rewrite Hb.
  - destruct (Py.is_space x); [assumption | reflexivity].
Qed.

Lemma lstrip_idem (s : str) : Py.lstrip (Py.lstrip s) = Py.lstrip s.
Proof.
  induction s as [|c s IH]; [reflexivity|].
  simpl. destruct (Py.is_space c) eqn:E; [assumption|].
  simpl. now rewrite E.
Qed.

Lemma lstrip_fixed (c : ascii) (s : str) :
  Py.is_space c = false -> Py.lstrip (c :: s) = c :: s.
Proof. intros H. simpl. now rewrite H. Qed.

Lemma rstrip_cons (c : ascii) (s : str) :
  Py.is_space c = false -> Py.rstrip (c :: s) = c :: Py.rstrip s.
Proof.
  intros H. unfold Py.rstrip. simpl rev.
  rewrite lstrip_app by assumption.
  now rewrite rev_app_distr.
Qed.

Lemma rstrip_idem (s : str) : Py.rstrip (Py.rstrip s) = Py.rstrip s.
Proof. unfold Py.rstrip. now rewrite rev_involutive, lstrip_idem. Qed.

Lemma rstrip_nil : Py.rstrip [] = [].
Proof. reflexivity. Qed.

(** [strip] is idempotent. *)
Lemma strip_idem (s : str) : Py.strip (Py.strip s) = Py.strip s.
Proof.
  unfold Py.strip.
  assert (H : Py.lstrip (Py.rstrip (Py.lstrip s)) = Py.rstrip (Py.lstrip s)).
  { pose proof (lstrip_idem s) as Hi.
    destruct (Py.lstrip s) as [|c t] eqn:E; [reflexivity|].
    assert (Hc : Py.is_space c = false).
    { simpl in Hi. destruct (Py.is_space c) eqn:Ec; [|reflexivity].
      exfalso. assert (Hlen : length (Py.lstrip t) <= length t).
      { clear. induction t as [|x t IH]; simpl; [lia|].
        destruct (Py.is_space x); simpl; lia. }
      rewrite Hi in Hlen. simpl in Hlen. lia. }
    rewrite rstrip_cons by assumption. now apply lstrip_fixed. }
  rewrite H. apply rstrip_idem.
Qed.

(** A non-empty prefix whose first and last characters are not whitespace
    is kept, and only the end of what follows is trimmed. *)
Lemma rstrip_app (p s : str) (c : ascii) :
  Py.is_space c = false -> Py.rstrip ((p ++ [c]) ++ s) = (p ++ [c]) ++ Py.rstrip s.
Proof.
  intros H. unfold Py.rstrip.
  rewrite rev_app_distr, (rev_app_distr p [c]). simpl rev at 2. simpl app at 2.
  rewrite lstrip_app by assumption.
  rewrite rev_app_distr. simpl rev at 1. now rewrite rev_involutive.
Qed.

Lemma strip_app (a : ascii) (p s : str) (c : ascii) :
  Py.is_space a = false -> Py.is_space c = false ->
  Py.strip (((a :: p) ++ [c]) ++ s) = ((a :: p) ++ [c]) ++ Py.rstrip s.
Proof.
  intros Ha Hc. unfold Py.strip.
  change ((((a :: p) ++ [c]) ++ s)) with (a :: ((p ++ [c]) ++ s)).
  rewrite lstrip_fixed by assumption.
  change (a :: ((p ++ [c]) ++ s)) with (((a :: p) ++ [c]) ++ s).
  now apply rstrip_app.
Qed.

Lemma lstrip_keeps (c : ascii) (s : str) :
  In c s -> Py.is_space c = false -> In c (Py.lstrip s).
Proof.
  intros Hin Hc. induction s as [|x s IH]; [contradiction|].
  simpl. destruct (Py.is_space x) eqn:E; [|assumption].
  destruct Hin as [->|Hin]; [congruence | now apply IH].
Qed.

(** A character that is not whitespace survives [strip]. *)
Lemma strip_keeps (c : ascii) (s : str) :
  In c s -> Py.is_space c = false -> In c (Py.strip s).
Proof.
  intros Hin Hc. unfold Py.strip, Py.rstrip.
  apply in_rev. rewrite rev_involutive.
  apply lstrip_keeps; [|assumption].
  apply -> in_rev. now apply lstrip_keeps.
Qed.

Lemma strip_no_space (s : str) : no_space s -> s <> [] -> Py.strip s = s.
Proof.
  intros Hs Hne. unfold Py.strip.
  assert (Hl : forall t, no_space t -> Py.lstrip t = t).
  { intros [|x t] Ht; [reflexivity|].
    apply lstrip_fixed, Ht. now left. }
  rewrite (Hl s Hs). unfold Py.rstrip. rewrite Hl.
  - apply rev_involutive.
  - intros c Hc. apply Hs. now apply in_rev.
Qed.

(** The whitespace is that of Unicode: U+001C, U+0085 and U+00A0 are
    trimmed, and a line made of them is blank. *)
Lemma strip_unicode_space :
  Py.strip (map ascii_of_nat [28; 104; 160; 133]) = #"h"
  /\ is_blank (map ascii_of_nat [28; 160]) = true.
Proof. vm_compute. split; reflexivity. Qed.

Lemma has_colon_not_blank (l : str) :
  Py.has_char ":" l = true -> is_blank l = false.
Proof.
  intros H. apply has_char_In in H.
  unfold is_blank. apply str_eqb_neq. intros E.
  pose proof (@strip_keeps ":"%char l H eq_refl) as Hin. rewrite E in Hin. contradiction.
Qed.

End StripFacts.

(* ================================================================== *)
(** * Further properties: [parse_extra_headers] *)

Module ExtraFacts.
Import PyFacts LineFacts StripFacts RenderFacts DictFacts.

Lemma one_line_nil : one_line [].
Proof. split; intros []. Qed.

Lemma cons_hd_one_line (c : ascii) (ls : list str) :
  c <> CR -> c <> LF -> Forall one_line ls -> Forall one_line (Py.cons_hd c ls).
Proof.
  intros Hcr Hlf H. destruct H as [|l ls [H1 H2] Hls]; simpl.
  - constructor; [|constructor]. split; apply no_char_cons; split;
      (assumption || intros []).
  - constructor; [|assumption]. split; apply no_char_cons; now split.
Qed.

Lemma linebreak_cr_lf (c : ascii) :
  is_linebreak c = false -> c <> CR /\ c <> LF.
Proof. intros H; split; intros ->; discriminate. Qed.

Lemma splitlines_bounded (n : nat) :
  forall s, length s <= n -> Forall one_line (splitlines s).
Proof.
  induction n as [|n IH]; intros [|c s] Hn; simpl in Hn; try lia;
    try (constructor; fail).
  cbn [splitlines].
  destruct (is_linebreak c) eqn:Eb.
  { destruct (Ascii.eqb c CR).
    - destruct s as [|d s].
      + constructor; [apply one_line_nil | constructor].
      + destruct (Ascii.eqb d LF); (constructor; [apply one_line_nil|]);
          apply IH; simpl in *; lia.
    - constructor; [apply one_line_nil | apply IH; lia]. }
  destruct (linebreak_cr_lf c Eb) as [Hcr Hlf].
  apply cons_hd_one_line; [assumption | assumption | apply IH; lia].
Qed.

(** No piece of [splitlines] holds a line break. *)
Lemma splitlines_one_line (s : str) : Forall one_line (splitlines s).
Proof. now apply (splitlines_bounded (n := length s)). Qed.

Lemma no_line_break_cons (c : ascii) (l : str) :
  no_line_break (c :: l) -> is_linebreak c = false /\ no_line_break l.
Proof.
  intros H. split; [apply H; now left | intros x Hx; apply H; now right].
Qed.

Lemma no_line_break_one_line (l : str) : no_line_break l -> one_line l.
Proof.
  intros H. split; intros Hin; apply H in Hin; discriminate.
Qed.

Lemma splitlines_app (l rest : str) :
  no_line_break l -> splitlines (l ++ LF :: rest) = l :: splitlines rest.
Proof.
  induction l as [|c l IH]; intros H; simpl.
  - reflexivity.
  - apply no_line_break_cons in H. destruct H as [Hc Hl].
    rewrite Hc. now rewrite IH.
Qed.

Lemma splitlines_clean (l : str) :
  no_line_break l -> l <> [] -> splitlines l = [l].
Proof.
  induction l as [|c l IH]; intros H Hne; [congruence|].
  apply no_line_break_cons in H. destruct H as [Hc Hl].
  simpl. rewrite Hc.
  destruct l as [|d l]; [reflexivity|].
  rewrite IH; [reflexivity | assumption | discriminate].
Qed.

(** The boundaries are those of Unicode: a file separator (U+001C) ends a
    comment line, and the header after it is read. *)
Lemma splitlines_file_separator :
  splitlines (#"# c" ++ [ascii_of_nat 28] ++ #"A: 1") = [#"# c"; #"A: 1"]
  /\ parse_extra_headers (#"# c" ++ [ascii_of_nat 28] ++ #"A: 1")
     = [(#"A", #"1")].
Proof. vm_compute. split; reflexivity. Qed.

Lemma add_extra_line_nil (d : dict str) : add_extra_line d [] = d.
Proof. reflexivity. Qed.

(** On a text given line by line, the parser is the loop over the lines. *)
Lemma parse_extra_headers_lines (ls : list str) :
  Forall no_line_break ls ->
  parse_extra_headers (Py.join [LF] ls) = fold_left add_extra_line ls [].
Proof.
  intros H.
  assert (Hfold : forall d,
             fold_left add_extra_line (splitlines (Py.join [LF] ls)) d
             = fold_left add_extra_line ls d).
  { induction H as [|l ls Hl Hls IH]; intros d; [reflexivity|].
    destruct ls as [|l' ls].
    - simpl Py.join. destruct l as [|c l]; [reflexivity|].
      rewrite splitlines_clean; [reflexivity | assumption | discriminate].
    - rewrite join_cons by discriminate.
      change (l ++ [LF] ++ Py.join [LF] (l' :: ls))
        with (l ++ LF :: Py.join [LF] (l' :: ls)).
      rewrite splitlines_app by assumption. simpl fold_left. apply IH. }
  unfold parse_extra_headers. specialize (Hfold []).
  destruct (Py.join [LF] ls); exact Hfold.
Qed.

(** What one accepted line adds. *)
Lemma add_extra_line_cases (d : dict str) (raw : str) :
  add_extra_line d raw = d
  \/ exists a b,
       Py.strip raw = a ++ ":"%char :: b /\ no_char ":"%char a
       /\ Py.strip a <> []
       /\ add_extra_line d raw = Dict.set (Py.strip a) (Py.strip b) d.
Proof.
  unfold add_extra_line.
  destruct (negb (nonempty (Py.strip raw)) || Py.startswith #"#" (Py.strip raw));
    [now left|].
  destruct (Py.has_char ":" (Py.strip raw)) eqn:E.
  - apply has_char_In, first_cut in E. destruct E as [a [b [Hab Ha]]].
    rewrite Hab, split1_app by assumption. cbn [length Nat.eqb negb nth].
    destruct (Py.strip a) eqn:Ea; cbn [nonempty]; [now left|].
    right. exists a, b. rewrite Ea. repeat split; try assumption. discriminate.
  - apply has_char_false in E. rewrite split1_free by assumption. now left.
Qed.

Lemma add_extra_line_good (d : dict str) (raw : str) :
  one_line raw -> Forall good_extra d -> Forall good_extra (add_extra_line d raw).
Proof.
  intros Hraw Hd.
  destruct (add_extra_line_cases d raw) as [-> | [a [b [Hab [Ha [Hne ->]]]]]];
    [assumption|].
  apply set_Forall; [|assumption].
  apply one_line_strip in Hraw. rewrite Hab in Hraw.
  change (a ++ ":"%char :: b) with (a ++ [":"%char] ++ b) in Hraw.
  apply one_line_app in Hraw. destruct Hraw as [Hla Hlb].
  apply one_line_app in Hlb. destruct Hlb as [_ Hlb].
  repeat split; simpl; try (now apply one_line_strip); try assumption.
  - now apply strip_no_char.
  - apply strip_idem.
  - apply strip_idem.
Qed.

Lemma add_extra_line_NoDup (d : dict str) (raw : str) :
  NoDup (Dict.keys d) -> NoDup (Dict.keys (add_extra_line d raw)).
Proof.
  intros H.
  destruct (add_extra_line_cases d raw) as [-> | [a [b [_ [_ [_ ->]]]]]];
    [assumption | now apply set_NoDup].
Qed.

Lemma good_extra_plain (d : dict str) :
  Forall good_extra d -> Forall plain_header d.
Proof. apply Forall_impl. now intros kv [[H _] _]. Qed.

Lemma parse_extra_headers_good (text : str) :
  Forall good_extra (parse_extra_headers text).
Proof.
  unfold parse_extra_headers. destruct text as [|c text]; [constructor|].
  apply fold_left_invariant with (Q := one_line).
  - intros d raw Hraw Hd. now apply add_extra_line_good.
  - apply splitlines_one_line.
  - constructor.
Qed.

End ExtraFacts.

Module ComposeFacts.
Import PyFacts LineFacts StripFacts RenderFacts DictFacts ExtraFacts.

(** The Host line of an output rendered from clean inputs. *)
Lemma rendered_host_line (base host token : str) (extras : dict str) :
  no_char CR base -> one_line host -> one_line token ->
  Forall plain_header extras ->
  nth 1 (lines_crlf (_build_final_raw base host token extras)) []
  = #"Host: " ++ host
  /\ filter (named_ci #"host")
       (header_section (_build_final_raw base host token extras))
     = [#"Host: " ++ host].
Proof.
  intros Hb Hh Ht Hex. split.
  - destruct (render_lines Hb Hh Ht Hex) as [more ->]. reflexivity.
  - rewrite render_header_section by assumption.
    cbn [filter].
    replace (named_ci #"host" (#"Host: " ++ host)) with true by reflexivity.
    f_equal. apply emit_headers_no_host.
    apply merged_headers_plain; try assumption.
    apply headers_part_of, Forall_tl.
    now apply base_lines_one_line.
Qed.

Lemma add_extra_line_skip (d : dict str) (l : str) :
  is_blank l = true
  \/ Py.startswith #"#" (Py.strip l) = true
  \/ Py.has_char ":" l = false
  \/ (exists a b, Py.strip l = a ++ ":"%char :: b /\ no_char ":"%char a
                  /\ is_blank a = true) ->
  add_extra_line d l = d.
Proof.
  intros [H | [H | [H | [a [b [Hab [Ha Hblank]]]]]]]; unfold add_extra_line.
  - unfold is_blank in H. apply str_eqb_eq in H. now rewrite H.
  - now rewrite H, orb_true_r.
  - destruct (negb (nonempty (Py.strip l)) || Py.startswith #"#" (Py.strip l));
      [reflexivity|].
    apply has_char_false, strip_no_char in H.
    now rewrite split1_free by assumption.
  - destruct (negb (nonempty (Py.strip l)) || Py.startswith #"#" (Py.strip l));
      [reflexivity|].
    rewrite Hab, split1_app by assumption. cbn [length Nat.eqb negb nth].
    unfold is_blank in Hblank. apply str_eqb_eq in Hblank.
    now rewrite Hblank.
Qed.

End ComposeFacts.

(** X1.  Whatever the text of the extra-headers field, the parsed result
    is a mapping -- no name twice -- in which every name is non-empty and
    has no colon, and every name and value is on one line and has no
    surrounding whitespace. *)
Theorem parse_extra_headers_well_formed (text : str) :
  NoDup (Dict.keys (parse_extra_headers text))
  /\ Forall good_extra (parse_extra_headers text).
Proof.
  split; [|apply ExtraFacts.parse_extra_headers_good].
  unfold parse_extra_headers. destruct text as [|c text]; [constructor|].
  apply AuthFacts.fold_left_preserves; [|constructor].
  intros d raw Hd. now apply ExtraFacts.add_extra_line_NoDup.
Qed.

(** X2.  In a text given as lines -- pieces without any line boundary,
    joined with LF -- a line that is blank, starts with [#] after trimming,
    has no colon, or has nothing but whitespace before its first colon can
    be deleted without changing the parsed headers. *)
Theorem ignored_extra_header_line (ls1 : list str) (l : str)
    (ls2 : list str) :
  Forall no_line_break (ls1 ++ l :: ls2) ->
  is_blank l = true
  \/ Py.startswith #"#" (Py.strip l) = true
  \/ Py.has_char ":" l = false
  \/ (exists a b, Py.strip l = a ++ ":"%char :: b /\ no_char ":"%char a
                  /\ is_blank a = true) ->
  parse_extra_headers (Py.join [LF] (ls1 ++ l :: ls2))
  = parse_extra_headers (Py.join [LF] (ls1 ++ ls2)).
Proof.
  intros Hlines Hl.
  assert (Hlines' : Forall no_line_break (ls1 ++ ls2)).
  { apply Forall_app in Hlines. destruct Hlines as [H1 H2].
    inversion H2; subst. apply Forall_app. now split. }
  rewrite !ExtraFacts.parse_extra_headers_lines by assumption.
  rewrite !fold_left_app. simpl fold_left.
  now rewrite ComposeFacts.add_extra_line_skip.
Qed.

Lemma ignored_extra_header_line_witness :
  parse_extra_headers
    (Py.join [LF] ([#"X-Debug: 1"] ++ #"  # comment" :: [#"X-Trace:42"]))
  = parse_extra_headers (Py.join [LF] ([#"X-Debug: 1"] ++ [#"X-Trace:42"])).
Proof.
  apply (@ignored_extra_header_line [#"X-Debug: 1"] #"  # comment"
           [#"X-Trace:42"]).
  - repeat constructor; intros c Hc; simpl in Hc;
      repeat (destruct Hc as [<- | Hc]; [reflexivity|]); contradiction.
  - right. left. reflexivity.
Defined.

(** X3.  When the preview shows a request, a request was selected and the
    trimmed host field is not empty; if the selected [raw_base] has no
    carriage return and the host and token fields hold one line each, then
    whatever the text of the extra-headers field, the second line of the
    request is [Host: <trimmed host field>] and no other line of its header
    section is a Host line. *)
Theorem preview_has_single_host_line (idx : Z)
    (generated : list generated_request)
    (txt_host txt_bearer ta_extra_headers out : str) :
  view_selected_raw idx generated txt_host txt_bearer ta_extra_headers
  = Preview out ->
  (forall it, nth_error generated (Z.to_nat idx) = Some it ->
              no_char CR (raw_base it)) ->
  one_line txt_host -> one_line txt_bearer ->
  (0 <= idx < Z.of_nat (length generated))%Z
  /\ Py.strip txt_host <> []
  /\ nth 1 (lines_crlf out) [] = #"Host: " ++ Py.strip txt_host
  /\ filter (named_ci #"host") (header_section out)
     = [#"Host: " ++ Py.strip txt_host].
Proof.
  unfold view_selected_raw, get_selected_item.
  intros Hview Hbase Hhost Hbearer.
  destruct ((idx <? 0)%Z || (Z.of_nat (length generated) <=? idx)%Z) eqn:Eidx;
    [discriminate|].
  apply orb_false_iff in Eidx. destruct Eidx as [E1 E2].
  apply Z.ltb_ge in E1. apply Z.leb_gt in E2.
  destruct (nth_error generated (Z.to_nat idx)) as [it|] eqn:Eit;
    [|discriminate].
  destruct (Py.strip txt_host) as [|c h] eqn:Eh; [discriminate|].
  cbn [nonempty negb] in Hview. injection Hview as <-.
  split; [lia|]. split; [discriminate|].
  rewrite <- Eh.
  apply ComposeFacts.rendered_host_line.
  - now apply Hbase.
  - now apply RenderFacts.one_line_strip.
  - now apply RenderFacts.one_line_strip.
  - apply ExtraFacts.good_extra_plain, ExtraFacts.parse_extra_headers_good.
Qed.

Lemma preview_has_single_host_line_witness :
  filter (named_ci #"host")
    (header_section
       (_build_final_raw base_with_body #"h" #"tok"
          (parse_extra_headers extras_text_demo)))
  = [#"Host: " ++ Py.strip #" h "].
Proof.
  apply (@preview_has_single_host_line 0 demo_generated #" h " #" tok "
           extras_text_demo).
  - reflexivity.
  - intros it Hit. injection Hit as <-.
    apply PyFacts.has_char_false. reflexivity.
  - split; apply PyFacts.has_char_false; reflexivity.
  - split; apply PyFacts.has_char_false; reflexivity.
Defined.

(* ================================================================== *)
(** * Further properties: [normalize_crlf] *)

Module NormalizeFacts.
Import PyFacts LineFacts.

Lemma crlf_only_expand (u : str) :
  no_char CR u -> crlf_only (flat_map lf_to_crlf u) = true.
Proof.
  induction u as [|c u IH]; [reflexivity|].
  intros H. apply no_char_cons in H. destruct H as [Hc Hu].
  simpl flat_map. unfold lf_to_crlf at 1.
  destruct (Ascii.eqb c LF) eqn:E.
  - simpl. now apply IH.
  - cbn [app crlf_only]. rewrite (eqb_neq_false Hc), E. now apply IH.
Qed.

(** The normalised text as the expansion of a text without CR. *)
Lemma normalize_crlf_expansion (s : str) :
  exists u, no_char CR u /\ normalize_crlf s = flat_map lf_to_crlf u.
Proof.
  rewrite normalize_crlf_eq, crlf_lines_eq.
  set (u := map cr_to_lf (Py.replace CRLF [LF] s)).
  assert (Hu : no_char CR u) by apply map_cr_to_lf_no_cr.
  destruct (Py.endswith CRLF (flat_map lf_to_crlf u)).
  - now exists u.
  - exists (u ++ [LF]). split.
    + apply no_char_app. split; [assumption|].
      apply no_char_cons. split; [discriminate | intros []].
    + now rewrite flat_map_app.
Qed.

Lemma crlf_lines_free (s : str) :
  no_char CR s -> crlf_lines s = flat_map lf_to_crlf s.
Proof.
  intros H. rewrite crlf_lines_eq.
  now rewrite replace_crlf_free, map_cr_to_lf_free.
Qed.

Lemma normalize_crlf_by_lines (s t : str) :
  crlf_lines s = crlf_lines t -> normalize_crlf s = normalize_crlf t.
Proof. intros H. now rewrite !normalize_crlf_eq, H. Qed.

Lemma replace_lf_cr (s : str) :
  Py.replace [LF] [CR] s = map (fun c => if Ascii.eqb c LF then CR else c) s.
Proof.
  rewrite replace_char. induction s as [|c s IH]; [reflexivity|].
  simpl. destruct (Ascii.eqb c LF); simpl; now rewrite IH.
Qed.

Lemma replace_crlf_no_lf (s : str) :
  no_char LF s -> Py.replace CRLF [LF] s = s.
Proof.
  induction s as [|c s IH]; [reflexivity|].
  intros H. apply no_char_cons in H. destruct H as [Hc Hs].
  destruct (ascii_dec c CR) as [->|Hn].
  - unfold Py.replace, CRLF in *. cbn [Py.replace_from Py.startswith].
    rewrite Ascii.eqb_refl.
    destruct s as [|d s]; [reflexivity|].
    apply no_char_cons in Hs. destruct Hs as [Hd Hs'].
    rewrite (Ascii.eqb_sym LF d), (eqb_neq_false Hd). cbn [andb].
    f_equal. apply IH. apply no_char_cons. now split.
  - rewrite replace_crlf_other by assumption. now rewrite IH.
Qed.

Lemma cr_version_back (s : str) :
  no_char CR s ->
  map cr_to_lf (map (fun c => if Ascii.eqb c LF then CR else c) s) = s.
Proof.
  induction s as [|c s IH]; [reflexivity|].
  intros H. apply no_char_cons in H. destruct H as [Hc Hs].
  simpl. rewrite IH by assumption. f_equal.
  destruct (Ascii.eqb c LF) eqn:E.
  - apply Ascii.eqb_eq in E. now subst.
  - unfold cr_to_lf. now rewrite (eqb_neq_false Hc).
Qed.

Lemma cr_version_no_lf (s : str) :
  no_char LF (map (fun c => if Ascii.eqb c LF then CR else c) s).
Proof.
  induction s as [|c s IH]; [intros []|].
  simpl. apply no_char_cons. split; [|assumption].
  destruct (Ascii.eqb c LF) eqn:E; [discriminate | now apply Ascii.eqb_neq].
Qed.

Lemma endswith_last_char (x l : str) (c : ascii) :
  c <> LF -> Py.endswith CRLF (x ++ l ++ [c]) = false.
Proof.
  intros H. unfold Py.endswith, CRLF. rewrite app_assoc, rev_app_distr.
  cbn [rev app Py.startswith].
  now rewrite (Ascii.eqb_sym LF c), (eqb_neq_false H).
Qed.

Lemma crlf_lines_clean (l : str) : one_line l -> crlf_lines l = l.
Proof.
  intros [Hcr Hlf]. rewrite crlf_lines_free by assumption.
  now apply flat_map_lf_free.
Qed.

(** Reading back the normalised join of clean lines. *)
Lemma lines_of_normalized_join (ls : list str) :
  ls <> [] -> Forall one_line ls ->
  lines_crlf (normalize_crlf (Py.join [LF] ls))
  = if ends_blank ls then ls else ls ++ [[]].
Proof.
  intros Hne H.
  destruct (exists_last Hne) as [init [l ->]].
  apply Forall_app in H. destruct H as [Hinit Hl].
  inversion Hl as [|? ? Hl1 _]; subst.
  rewrite normalize_crlf_eq.
  rewrite crlf_lines_join by (assumption || discriminate).
  simpl Py.join. rewrite crlf_lines_clean by assumption.
  unfold ends_blank. rewrite rev_app_distr. simpl rev. simpl app.
  destruct (exists_last (l := l ++ [LF])) as [l0 [c0 Hl0]];
    [now destruct l|].
  destruct l as [|x l'] eqn:El.
  - (* the last line is empty *)
    rewrite app_nil_r.
    destruct init as [|h init'] eqn:Ei.
    + reflexivity.
    + rewrite endswith_crlf_terminated by discriminate.
      rewrite <- (app_nil_r (terminated (h :: init'))).
      rewrite lines_crlf_terminated by now apply RenderFacts.one_line_no_cr.
      destruct (rev (h :: init')) eqn:Er; [|reflexivity].
      apply (f_equal (@rev str)) in Er. rewrite rev_involutive in Er.
      discriminate.
  - rewrite <- El in *. clear Hl0 l0 c0.
    assert (Hlast : exists l1 c1, l = l1 ++ [c1] /\ c1 <> LF).
    { destruct (exists_last (l := l)) as [l1 [c1 E1]]; [subst; discriminate|].
      exists l1, c1. split; [assumption|].
      destruct Hl1 as [_ Hlf]. intros ->. apply Hlf. rewrite E1.
      apply in_or_app. right. now left. }
    destruct Hlast as [l1 [c1 [E1 Hc1]]].
    rewrite E1 at 1. rewrite endswith_last_char by assumption.
    replace ((terminated init ++ l) ++ CRLF)
      with (terminated (init ++ [l]) ++ []).
    + rewrite lines_crlf_terminated.
      * subst l. reflexivity.
      * apply RenderFacts.one_line_no_cr, Forall_app. split; assumption.
    + unfold terminated. rewrite flat_map_app. simpl.
      now rewrite !app_nil_r, app_assoc.
Qed.

End NormalizeFacts.

(** X4.  For every text, the normalised text ends with CRLF and holds CR
    and LF only as CRLF pairs: no lone CR and no lone LF is left. *)
Theorem normalize_crlf_only_crlf (s : str) :
  crlf_only (normalize_crlf s) = true
  /\ Py.endswith CRLF (normalize_crlf s) = true.
Proof.
  split.
  - destruct (NormalizeFacts.normalize_crlf_expansion s) as [u [Hu ->]].
    now apply NormalizeFacts.crlf_only_expand.
  - rewrite normalize_crlf_eq.
    destruct (Py.endswith CRLF (crlf_lines s)) eqn:E; [assumption|].
    apply PyFacts.endswith_app.
Qed.

(** X5.  The line-ending convention of the input does not matter: a text
    written with LF, the same text with every LF replaced by CRLF, and the
    same text with every LF replaced by a lone CR normalise to the same
    result. *)
Theorem normalize_crlf_convention_free (s : str) :
  no_char CR s ->
  normalize_crlf (Py.replace [LF] CRLF s) = normalize_crlf s
  /\ normalize_crlf (Py.replace [LF] [CR] s) = normalize_crlf s.
Proof.
  intros H. split; apply NormalizeFacts.normalize_crlf_by_lines.
  - rewrite PyFacts.replace_lf, crlf_lines_eq.
    rewrite PyFacts.collapse_expand, PyFacts.map_cr_to_lf_free by assumption.
    symmetry. now apply NormalizeFacts.crlf_lines_free.
  - rewrite NormalizeFacts.replace_lf_cr, crlf_lines_eq.
    rewrite NormalizeFacts.replace_crlf_no_lf
      by apply NormalizeFacts.cr_version_no_lf.
    rewrite NormalizeFacts.cr_version_back by assumption.
    symmetry. now apply NormalizeFacts.crlf_lines_free.
Qed.

Lemma normalize_crlf_convention_free_witness :
  normalize_crlf (Py.replace [LF] CRLF base_with_body)
  = normalize_crlf base_with_body.
Proof.
  refine (proj1 (@normalize_crlf_convention_free base_with_body _)).
  apply PyFacts.has_char_false. reflexivity.
Defined.

(** X6.  Joining lines that hold no line break with LF, normalising and
    cutting the result at every CRLF gives the lines back, followed by one
    empty piece unless the list already ended with an empty line after at
    least one other line. *)
Theorem normalize_crlf_keeps_lines (ls : list str) :
  ls <> [] -> Forall one_line ls ->
  lines_crlf (normalize_crlf (Py.join [LF] ls))
  = if ends_blank ls then ls else ls ++ [[]].
Proof. apply NormalizeFacts.lines_of_normalized_join. Qed.

Lemma normalize_crlf_keeps_lines_witness :
  lines_crlf (normalize_crlf (Py.join [LF] [#"GET / HTTP/1.1"; #"A: b"; []; #"{}"]))
  = [#"GET / HTTP/1.1"; #"A: b"; []; #"{}"; []].
Proof.
  etransitivity.
  - apply (@normalize_crlf_keeps_lines [#"GET / HTTP/1.1"; #"A: b"; []; #"{}"]).
    + discriminate.
    + repeat constructor; apply PyFacts.has_char_false; reflexivity.
  - vm_compute. reflexivity.
Defined.

(** X7.  When [raw_base] has no carriage return and host, token and extra
    headers are free of line breaks (extra header names also of colons),
    the output read line by line is exactly the list the renderer built:
    the request line, the Host line, the merged headers, an empty line and
    the body lines of [raw_base] unchanged -- followed by one empty piece
    unless the body already ended with an empty line. *)
Theorem rendered_lines_are_final_lines (base host token : str)
    (extras : dict str) :
  no_char CR base -> one_line host -> one_line token ->
  Forall plain_header extras ->
  let fl := final_lines base host token extras in
  lines_crlf (_build_final_raw base host token extras)
  = if ends_blank fl then fl else fl ++ [[]].
Proof.
  intros Hb Hh Ht Hex fl. unfold _build_final_raw. fold fl.
  apply NormalizeFacts.lines_of_normalized_join; [discriminate|].
  pose proof (RenderFacts.base_lines_one_line Hb) as Hlines.
  subst fl. unfold final_lines.
  apply Forall_app. split; [|apply Forall_app; split; [|apply Forall_app; split]].
  - constructor; [|constructor; [|constructor]].
    + apply RenderFacts.first_line_of; [apply ExtraFacts.one_line_nil | assumption].
    + now apply RenderFacts.host_line_one_line.
  - apply RenderFacts.emit_headers_one_line, RenderFacts.merged_headers_plain;
      try assumption.
    apply RenderFacts.headers_part_of, RenderFacts.Forall_tl, Hlines.
  - constructor; [apply ExtraFacts.one_line_nil | constructor].
  - unfold body_part.
    destruct (find_index is_blank (tl (Py.split LF base))); [|constructor].
    rewrite Forall_forall in *. intros x Hx. apply Hlines.
    assert (Hin : In x (tl (Py.split LF base))).
    { rewrite <- (firstn_skipn (n + 1) (tl (Py.split LF base))).
      apply in_or_app. now right. }
    destruct (Py.split LF base); [contradiction | now right].
Qed.

Lemma rendered_lines_are_final_lines_witness :
  lines_crlf (_build_final_raw base_with_body #"h" #"tok" extras_demo)
  = [#"POST /pets HTTP/1.1"; #"Host: h"; #"Accept: application/json";
     #"Authorization: Bearer tok"; #"X-Debug: 1"; []; #"{}"; []].
Proof.
  etransitivity.
  - apply (@rendered_lines_are_final_lines base_with_body #"h" #"tok"
             extras_demo).
    + apply PyFacts.has_char_false. reflexivity.
    + split; apply PyFacts.has_char_false; reflexivity.
    + split; apply PyFacts.has_char_false; reflexivity.
    + repeat constructor; apply PyFacts.has_char_false; reflexivity.
  - vm_compute. reflexivity.
Defined.

(* ================================================================== *)
(** * Further properties: the merged headers *)

Module MergeFacts.
Import PyFacts LineFacts RenderFacts DictFacts AuthFacts.

Lemma lookup_none_keys {V : Type} (k : str) (d : dict V) :
  Dict.lookup k d = None -> ~ In k (Dict.keys d).
Proof.
  induction d as [|[k' v'] d IH]; simpl; intros H; [tauto|].
  destruct (Py.str_eqb k k') eqn:E; [discriminate|].
  apply str_eqb_neq in E. intros [Hk|Hk]; [congruence | now apply IH].
Qed.

(** The emitted lines under one name, read off the mapping. *)
Lemma emitted_named (k : str) (d : dict str) :
  Forall plain_header d -> NoDup (Dict.keys d) ->
  filter (named k) (emit_headers d)
  = match Dict.lookup k d with
    | Some v => if is_host k then [] else [header_line (k, v)]
    | None => []
    end.
Proof.
  intros Hplain Hnd. unfold emit_headers.
  rewrite filter_map_comm.
  rewrite (filter_agree (P := plain_header)
             (fun kv => named k (header_line kv))
             (fun kv => Py.str_eqb (fst kv) k));
    [| intros kv Hkv; now apply named_header_line
     | now apply filter_Forall ].
  rewrite filter_swap.
  destruct (Dict.lookup k d) as [v|] eqn:E.
  - rewrite filter_key with (v := v) by assumption.
    cbn [filter fst]. now destruct (is_host k).
  - rewrite lookup_none_filter by now apply lookup_none_keys.
    reflexivity.
Qed.

Lemma fold_add_extra_untouched (k : str) (extras d : dict str) :
  ~ In k (Dict.keys extras) ->
  Dict.lookup k (fold_left add_extra extras d) = Dict.lookup k d.
Proof.
  revert d. induction extras as [|[k' v'] extras IH]; intros d H; [reflexivity|].
  simpl in H. simpl fold_left. rewrite IH by tauto.
  unfold add_extra. cbn [fst snd]. destruct (is_host k'); [reflexivity|].
  apply lookup_set_other. intros ->. tauto.
Qed.

Lemma fold_add_extra_wins (k v : str) (extras d : dict str) :
  NoDup (Dict.keys extras) -> In (k, v) extras -> is_host k = false ->
  Dict.lookup k (fold_left add_extra extras d) = Some v.
Proof.
  revert d. induction extras as [|[k' v'] extras IH]; intros d Hnd Hin Hk;
    [contradiction|].
  simpl in Hnd. inversion Hnd as [|? ? Hnot Hnd']; subst.
  simpl fold_left. destruct Hin as [Heq | Hin].
  - injection Heq as -> ->.
    rewrite fold_add_extra_untouched by assumption.
    unfold add_extra. cbn [fst snd]. rewrite Hk. apply lookup_set_same.
  - now apply IH.
Qed.

Lemma host_line_named (k host : str) :
  is_host k = false -> named k (#"Host: " ++ host) = false.
Proof.
  intros Hk. unfold named.
  replace (header_name (#"Host: " ++ host)) with #"Host" by reflexivity.
  destruct (Py.str_eqb #"Host" k) eqn:E; [|apply andb_false_r].
  apply str_eqb_eq in E. subst k. discriminate.
Qed.

Lemma headers_of_base_plain (base token : str) (extras : dict str) :
  no_char CR base -> one_line token -> Forall plain_header extras ->
  Forall plain_header
    (merged_headers (headers_part (tl (Py.split LF base))) token extras).
Proof.
  intros Hb Ht Hex. apply merged_headers_plain; try assumption.
  apply headers_part_of, Forall_tl. now apply base_lines_one_line.
Qed.

End MergeFacts.

(** X8.  An extra header whose name is not Host wins: whatever [raw_base]
    sampled under that name and whatever the bearer token, the header
    section of the output has exactly one line of that name, and it carries
    the extra header's value.  (Inputs free of stray line breaks as in C4;
    the extra headers form a mapping.) *)
Theorem extra_header_overrides (base host token : str) (extras : dict str)
    (k v : str) :
  no_char CR base -> one_line host -> one_line token ->
  Forall plain_header extras -> NoDup (Dict.keys extras) ->
  In (k, v) extras -> is_host k = false ->
  filter (named k) (header_section (_build_final_raw base host token extras))
  = [k ++ #": " ++ v].
Proof.
  intros Hb Hh Ht Hex Hnd Hin Hk.
  rewrite RenderFacts.render_header_section by assumption.
  cbn [filter]. rewrite MergeFacts.host_line_named by assumption.
  rewrite MergeFacts.emitted_named;
    [| now apply MergeFacts.headers_of_base_plain
     | apply AuthFacts.merged_headers_NoDup ].
  unfold merged_headers.
  rewrite MergeFacts.fold_add_extra_wins with (v := v) by assumption.
  now rewrite Hk.
Qed.

Lemma extra_header_overrides_witness :
  filter (named #"Authorization")
    (header_section
       (_build_final_raw base_with_body #"h" #"tok"
          [(#"Authorization", #"Basic eA=="); (#"HOST", #"evil.example")]))
  = [#"Authorization" ++ #": " ++ #"Basic eA=="].
Proof.
  apply (@extra_header_overrides base_with_body #"h" #"tok"
           [(#"Authorization", #"Basic eA=="); (#"HOST", #"evil.example")]).
  - apply PyFacts.has_char_false. reflexivity.
  - split; apply PyFacts.has_char_false; reflexivity.
  - split; apply PyFacts.has_char_false; reflexivity.
  - repeat constructor; apply PyFacts.has_char_false; reflexivity.
  - repeat constructor; simpl; intuition discriminate.
  - now left.
  - reflexivity.
Defined.

(** X9.  A header name that no extra header uses, and that is not
    [Authorization] when a token is given, is rendered exactly as without
    token and extra headers: the lines of that name in the header section
    are the same.  (Inputs free of stray line breaks as in C4.) *)
Theorem other_headers_untouched (base host token : str) (extras : dict str)
    (k : str) :
  no_char CR base -> one_line host -> one_line token ->
  Forall plain_header extras ->
  ~ In k (Dict.keys extras) ->
  token = [] \/ k <> #"Authorization" ->
  filter (named k) (header_section (_build_final_raw base host token extras))
  = filter (named k) (header_section (_build_final_raw base host [] [])).
Proof.
  intros Hb Hh Ht Hex Hk Hauth.
  rewrite !RenderFacts.render_header_section;
    try assumption; try constructor; try apply ExtraFacts.one_line_nil.
  set (hs := headers_part (tl (Py.split LF base))).
  assert (Hem : filter (named k) (emit_headers (merged_headers hs token extras))
                = filter (named k) (emit_headers (merged_headers hs [] []))).
  { rewrite !MergeFacts.emitted_named;
      try apply AuthFacts.merged_headers_NoDup;
      try (apply MergeFacts.headers_of_base_plain; try assumption;
           try constructor; apply ExtraFacts.one_line_nil).
    unfold merged_headers.
    rewrite MergeFacts.fold_add_extra_untouched by assumption.
    cbn [fold_left].
    destruct Hauth as [-> | Hne]; [reflexivity|].
    destruct token as [|c token]; [reflexivity|].
    now rewrite DictFacts.lookup_set_other. }
  cbn [filter]. now rewrite Hem.
Qed.

Lemma other_headers_untouched_witness :
  filter (named #"Accept")
    (header_section (_build_final_raw base_with_body #"h" #"tok" extras_demo))
  = filter (named #"Accept")
      (header_section (_build_final_raw base_with_body #"h" [] [])).
Proof.
  apply (@other_headers_untouched base_with_body #"h" #"tok" extras_demo
           #"Accept").
  - apply PyFacts.has_char_false. reflexivity.
  - split; apply PyFacts.has_char_false; reflexivity.
  - split; apply PyFacts.has_char_false; reflexivity.
  - repeat constructor; apply PyFacts.has_char_false; reflexivity.
  - simpl. intuition discriminate.
  - right. discriminate.
Defined.

(* ================================================================== *)
(** * Further properties: [parse_host_and_port] *)

Module HostFacts.
Import PyFacts LineFacts StripFacts.

Lemma strip_path_no_slash (s : str) : no_char "/"%char (strip_path s).
Proof.
  unfold strip_path. destruct (Py.has_char "/" s) eqn:E.
  - pose proof (split_pieces "/" s) as H.
    destruct (Py.split "/" s) as [|l ls]; [intros [] | now inversion H].
  - now apply has_char_false.
Qed.

Lemma digit_facts (c : ascii) :
  is_digit c = true ->
  Py.is_space c = false /\ c <> "/"%char /\ c <> ":"%char
  /\ c <> "-"%char /\ c <> "+"%char.
Proof.
  destruct c as [b0 b1 b2 b3 b4 b5 b6 b7].
  destruct b0, b1, b2, b3, b4, b5, b6, b7; intros H;
    try discriminate H; repeat split; discriminate.
Qed.

Lemma digits_val_digits (s : str) :
  forall acc p, digits_val acc s = Some p -> Forall (fun c => is_digit c = true) s.
Proof.
  induction s as [|c s IH]; intros acc p H; [constructor|].
  simpl in H. unfold is_digit.
  destruct (digit_val c) as [d|] eqn:E; [|discriminate].
  constructor; [now rewrite E | now apply (IH _ _ H)].
Qed.

Lemma startswith_app (p s : str) :
  Py.startswith p s = true -> exists rest, s = p ++ rest.
Proof.
  revert s. induction p as [|a p IH]; intros s H.
  - now exists s.
  - destruct s as [|b s]; [discriminate|]. simpl in H.
    apply andb_true_iff in H. destruct H as [Hab Hp].
    apply Ascii.eqb_eq in Hab. subst b.
    destruct (IH s Hp) as [rest ->]. now exists rest.
Qed.

(** The cut at the first separator is unique. *)
Lemma first_cut_unique (c : ascii) (a a' b b' : str) :
  a ++ c :: b = a' ++ c :: b' -> no_char c a -> no_char c a' ->
  a = a' /\ b = b'.
Proof.
  revert a'. induction a as [|x a IH]; intros [|y a'] E Ha Ha'; simpl in E.
  - injection E as ->. now split.
  - injection E as <- _. exfalso. apply Ha'. now left.
  - injection E as -> _. exfalso. apply Ha. now left.
  - injection E as <- E.
    apply no_char_cons in Ha. apply no_char_cons in Ha'.
    destruct (IH a' E) as [-> ->]; tauto.
Qed.

(** What is left after host and port does not look like a scheme. *)
Lemma no_scheme (pre post h ds tail : str) :
  no_char ":"%char pre -> no_char ":"%char h ->
  Forall (fun c => is_digit c = true) ds -> ds <> [] ->
  Py.startswith (pre ++ ":"%char :: "/"%char :: post) (h ++ ":"%char :: ds ++ tail)
  = false.
Proof.
  intros Hpre Hh Hds Hne.
  destruct (Py.startswith _ _) eqn:E; [|reflexivity].
  apply startswith_app in E. destruct E as [rest E].
  rewrite <- app_assoc in E. simpl in E.
  apply first_cut_unique in E; try assumption.
  destruct E as [_ E]. destruct ds as [|d ds]; [congruence|].
  injection E as -> _. inversion Hds; subst. discriminate.
Qed.

Lemma int_of_digits (ds : str) (p : Z) :
  ds <> [] -> digits_val 0 ds = Some p -> int_of_str ds = Some p.
Proof.
  intros Hne Hp. unfold int_of_str.
  pose proof (digits_val_digits _ _ Hp) as Hd.
  rewrite strip_no_space; [| | assumption].
  - destruct ds as [|c r]; [congruence|].
    inversion Hd as [|? ? Hc _]; subst.
    destruct (digit_facts c Hc) as [_ [_ [_ [Hm Hpl]]]].
    now rewrite (eqb_neq_false Hm), (eqb_neq_false Hpl).
  - intros c Hc. rewrite Forall_forall in Hd.
    now destruct (digit_facts c (Hd c Hc)).
Qed.

End HostFacts.

Module PortFacts.
Import PyFacts LineFacts StripFacts HostFacts.

Lemma all_space_nil : all_space [].
Proof. intros c []. Qed.

Lemma is_space_whitespace (c : ascii) :
  Py.is_space c = true <-> In c whitespace.
Proof.
  rewrite <- has_char_In.
  each_char c; vm_compute; split; intros H; (reflexivity || discriminate H).
Qed.

Lemma not_space_whitespace (c : ascii) :
  ~ In c whitespace -> Py.is_space c = false.
Proof.
  intros H. destruct (Py.is_space c) eqn:E; [|reflexivity].
  exfalso. now apply H, is_space_whitespace.
Qed.

Lemma whitespace_only_all_space (s : str) : whitespace_only s -> all_space s.
Proof. intros H c Hc. now apply is_space_whitespace, H. Qed.

Lemma all_space_rev (s : str) : all_space s -> all_space (rev s).
Proof. intros H c Hc. apply H. now apply in_rev. Qed.

Lemma lstrip_all_space (l x : str) :
  all_space l -> Py.lstrip (l ++ x) = Py.lstrip x.
Proof.
  induction l as [|c l IH]; intros H; [reflexivity|].
  simpl. rewrite (H c) by now left.
  apply IH. intros d Hd. apply H. now right.
Qed.

Lemma lstrip_blank (t : str) : all_space t -> Py.lstrip t = [].
Proof.
  intros H. pose proof (@lstrip_all_space t [] H) as E.
  now rewrite app_nil_r in E.
Qed.

Lemma rstrip_all_space (x t : str) :
  all_space t -> Py.rstrip (x ++ t) = Py.rstrip x.
Proof.
  intros H. unfold Py.rstrip. rewrite rev_app_distr.
  now rewrite lstrip_all_space by now apply all_space_rev.
Qed.

(** Whitespace around a text does not survive [strip]. *)
Lemma strip_around (lead x trail : str) :
  all_space lead -> all_space trail ->
  Py.strip (lead ++ x ++ trail) = Py.strip x.
Proof.
  intros Hl Ht. unfold Py.strip. rewrite lstrip_all_space by assumption.
  induction x as [|c x IH]; simpl.
  - now rewrite lstrip_blank.
  - destruct (Py.is_space c) eqn:E; [assumption|].
    change (c :: x ++ trail) with ((c :: x) ++ trail).
    now apply rstrip_all_space.
Qed.

Lemma lstrip_first (s : str) :
  (forall c x, s = c :: x -> Py.is_space c = false) -> Py.lstrip s = s.
Proof.
  destruct s as [|c x]; intros H; [reflexivity|].
  apply lstrip_fixed. now apply (H c x).
Qed.

Lemma rstrip_last (s : str) :
  (forall x c, s = x ++ [c] -> Py.is_space c = false) -> Py.rstrip s = s.
Proof.
  intros H. unfold Py.rstrip. rewrite lstrip_first; [apply rev_involutive|].
  intros c x E. apply (H (rev x) c).
  rewrite <- (rev_involutive s), E. reflexivity.
Qed.

(** What [lstrip], [rstrip] and [strip] remove is whitespace. *)
Lemma lstrip_split (s : str) : exists l, s = l ++ Py.lstrip s /\ all_space l.
Proof.
  induction s as [|c s [l [E Hl]]].
  - exists []. split; [reflexivity | apply all_space_nil].
  - simpl. destruct (Py.is_space c) eqn:Ec.
    + exists (c :: l). split; [simpl; now rewrite <- E|].
      intros d [<- | Hd]; [assumption | now apply Hl].
    + exists []. split; [reflexivity | apply all_space_nil].
Qed.

Lemma rstrip_split (s : str) : exists t, s = Py.rstrip s ++ t /\ all_space t.
Proof.
  destruct (lstrip_split (rev s)) as [l [E Hl]].
  exists (rev l). split; [|now apply all_space_rev].
  unfold Py.rstrip. rewrite <- rev_app_distr, <- E.
  symmetry. apply rev_involutive.
Qed.

Lemma strip_split (s : str) :
  exists l t, s = l ++ Py.strip s ++ t /\ all_space l /\ all_space t.
Proof.
  destruct (lstrip_split s) as [l [E Hl]].
  destruct (rstrip_split (Py.lstrip s)) as [t [E' Ht]].
  exists l, t. unfold Py.strip. rewrite <- E'. now repeat split.
Qed.

(** *** Decimal digits *)

Lemma digit_val_char (c : ascii) (d : Z) :
  digit_val c = Some d ->
  In c #"0123456789" /\ d = (Z.of_nat (nat_of_ascii c) - 48)%Z.
Proof.
  intros H. split.
  - apply has_char_In. revert H.
    each_char c; vm_compute; intros H; (reflexivity || discriminate H).
  - revert H.
    each_char c; vm_compute; intros H; try discriminate H;
      injection H as <-; reflexivity.
Qed.

Lemma digit_char_val (c : ascii) :
  In c #"0123456789" ->
  digit_val c = Some (Z.of_nat (nat_of_ascii c) - 48)%Z.
Proof.
  intros H. simpl in H.
  repeat (destruct H as [<- | H]; [reflexivity|]). contradiction.
Qed.

Lemma digit_char_plain (c : ascii) :
  In c #"0123456789" ->
  Py.is_space c = false /\ Ascii.eqb c "-" = false /\ Ascii.eqb c "+" = false.
Proof.
  intros H. simpl in H.
  repeat (destruct H as [<- | H]; [repeat split|]). contradiction.
Qed.

Lemma digits_val_decimal (ds : str) :
  forall acc,
    (forall c, In c ds -> In c #"0123456789") ->
    digits_val acc ds
    = Some (fold_left
              (fun a c => (10 * a + (Z.of_nat (nat_of_ascii c) - 48))%Z)
              ds acc).
Proof.
  induction ds as [|c ds IH]; intros acc H; cbn [digits_val fold_left];
    [reflexivity|].
  rewrite digit_char_val by (apply H; now left).
  apply IH. intros d Hd. apply H. now right.
Qed.

Lemma digits_val_inv (ds : str) :
  forall acc p,
    digits_val acc ds = Some p ->
    (forall c, In c ds -> In c #"0123456789")
    /\ p = fold_left
             (fun a c => (10 * a + (Z.of_nat (nat_of_ascii c) - 48))%Z)
             ds acc.
Proof.
  induction ds as [|c ds IH]; intros acc p H; cbn [digits_val fold_left] in *.
  - injection H as <-. split; [intros c [] | reflexivity].
  - destruct (digit_val c) as [d|] eqn:E; [|discriminate].
    apply digit_val_char in E. destruct E as [Hc ->].
    destruct (IH _ _ H) as [Hds Hp]. split; [|assumption].
    intros x [<- | Hx]; [assumption | now apply Hds].
Qed.

Lemma unsigned_val_digits (ds : str) :
  digits ds -> unsigned_val ds = Some (decimal ds).
Proof.
  intros [Hne Hd]. unfold unsigned_val, decimal.
  destruct ds as [|c ds]; [congruence|]. now apply digits_val_decimal.
Qed.

Lemma unsigned_val_inv (s : str) (p : Z) :
  unsigned_val s = Some p -> digits s /\ p = decimal s.
Proof.
  unfold unsigned_val, digits, decimal. intros H.
  destruct s as [|c s]; [discriminate|].
  apply digits_val_inv in H. destruct H as [Hd Hp].
  repeat split; [discriminate | assumption | assumption].
Qed.

Lemma digits_no_space (ds : str) : digits ds -> no_space ds.
Proof. intros [_ H] c Hc. now destruct (digit_char_plain (H c Hc)). Qed.

Lemma digits_last (x ds : str) :
  digits ds -> forall y c, x ++ ds = y ++ [c] -> Py.is_space c = false.
Proof.
  intros [Hne Hd] y c E.
  destruct (exists_last Hne) as [ds' [d Eds]]. subst ds.
  rewrite app_assoc in E. apply app_inj_tail in E. destruct E as [_ <-].
  apply digit_char_plain, Hd, in_or_app. right. now left.
Qed.

(** *** [int()] on a string reads exactly the integer texts *)

Lemma int_of_integer_text (b : str) (p : Z) :
  integer_text b p -> int_of_str b = Some p.
Proof.
  intros [ws1 [sign [ws2 [ds [ws3 [E [H1 [H2 [H3 [Hd Hcase]]]]]]]]]].
  pose proof (digits_no_space Hd) as Hns.
  assert (Hsigned : forall c : ascii,
            Py.is_space c = false ->
            Py.strip (ws1 ++ (c :: ws2 ++ ds) ++ ws3) = c :: ws2 ++ ds).
  { intros c Hc. rewrite strip_around by assumption. unfold Py.strip.
    rewrite lstrip_fixed by assumption. apply rstrip_last.
    intros y d Ey. apply (@digits_last (c :: ws2) ds Hd y d).
    now rewrite <- Ey. }
  assert (Hl : Py.lstrip (ws2 ++ ds) = ds).
  { rewrite lstrip_all_space by assumption.
    apply lstrip_first. intros c x Ex. apply Hns. rewrite Ex. now left. }
  unfold int_of_str.
  destruct Hcase as [[-> [-> ->]] | [[-> ->] | [-> ->]]]; subst b.
  - cbn [app]. rewrite strip_around by assumption.
    rewrite strip_no_space by (assumption || apply Hd).
    destruct Hd as [Hne Hd]. destruct ds as [|c x]; [congruence|].
    destruct (digit_char_plain (Hd c (or_introl eq_refl)))
      as [_ [Hm Hp]].
    rewrite Hm, Hp. apply unsigned_val_digits.
    split; [discriminate | assumption].
  - change (ws1 ++ #"+" ++ ws2 ++ ds ++ ws3)
      with (ws1 ++ "+"%char :: ws2 ++ ds ++ ws3).
    replace (ws1 ++ "+"%char :: ws2 ++ ds ++ ws3)
      with (ws1 ++ ("+"%char :: ws2 ++ ds) ++ ws3)
      by (simpl; now rewrite <- app_assoc).
    rewrite Hsigned by reflexivity.
    change (Ascii.eqb "+" "-") with false. change (Ascii.eqb "+" "+") with true.
    cbv iota. rewrite Hl. now apply unsigned_val_digits.
  - change (ws1 ++ #"-" ++ ws2 ++ ds ++ ws3)
      with (ws1 ++ "-"%char :: ws2 ++ ds ++ ws3).
    replace (ws1 ++ "-"%char :: ws2 ++ ds ++ ws3)
      with (ws1 ++ ("-"%char :: ws2 ++ ds) ++ ws3)
      by (simpl; now rewrite <- app_assoc).
    rewrite Hsigned by reflexivity.
    change (Ascii.eqb "-" "-") with true. cbv iota.
    rewrite Hl, unsigned_val_digits by assumption. reflexivity.
Qed.

Lemma integer_text_of_int (b : str) (p : Z) :
  int_of_str b = Some p -> integer_text b p.
Proof.
  unfold int_of_str. intros H.
  destruct (strip_split b) as [l [t [E [Hl Ht]]]].
  destruct (Py.strip b) as [|c x]; [discriminate|].
  destruct (lstrip_split x) as [w [Ex Hw]].
  destruct (Ascii.eqb c "-") eqn:Em.
  - apply Ascii.eqb_eq in Em. subst c.
    destruct (unsigned_val (Py.lstrip x)) as [q|] eqn:Eq; [|discriminate].
    injection H as <-. apply unsigned_val_inv in Eq. destruct Eq as [Hd ->].
    exists l, #"-", w, (Py.lstrip x), t.
    split; [|repeat split; try assumption; try apply Hd; right; right;
             now split].
    rewrite E. rewrite Ex at 1. simpl. now rewrite <- app_assoc.
  - destruct (Ascii.eqb c "+") eqn:Ep.
    + apply Ascii.eqb_eq in Ep. subst c.
      apply unsigned_val_inv in H. destruct H as [Hd ->].
      exists l, #"+", w, (Py.lstrip x), t.
      split; [|repeat split; try assumption; try apply Hd; right; left;
               now split].
      rewrite E. rewrite Ex at 1. simpl. now rewrite <- app_assoc.
    + apply unsigned_val_inv in H. destruct H as [Hd ->].
      exists l, [], [], (c :: x), t.
      split; [exact E|].
      repeat split; try assumption; try apply all_space_nil; try apply Hd.
      left. now repeat split.
Qed.

(** An integer text has a digit, and nothing but digits, signs and
    whitespace. *)
Lemma integer_text_chars (b : str) (p : Z) :
  integer_text b p ->
  ~ ((forall c, In c b -> ~ In c #"0123456789")
     \/ (exists c, In c b /\ ~ In c #"0123456789+-"
                   /\ Py.is_space c = false)).
Proof.
  intros [ws1 [sign [ws2 [ds [ws3 [E [H1 [H2 [H3 [[Hne Hd] Hcase]]]]]]]]]].
  intros [Hnone | [c [Hc [Hother Hsp]]]].
  - destruct ds as [|d ds']; [congruence|].
    apply (Hnone d); [|apply Hd; now left].
    subst b. apply in_or_app. right. apply in_or_app. right.
    apply in_or_app. right. now left.
  - subst b.
    assert (Hw : forall w, all_space w -> ~ In c w).
    { intros w Hw Hin. rewrite (Hw c Hin) in Hsp. discriminate. }
    apply in_app_or in Hc. destruct Hc as [Hc | Hc]; [now apply (Hw ws1)|].
    apply in_app_or in Hc. destruct Hc as [Hc | Hc].
    { apply Hother.
      destruct Hcase as [[-> _] | [[-> _] | [-> _]]];
        [contradiction | |];
        destruct Hc as [<- | []]; apply has_char_In; reflexivity. }
    apply in_app_or in Hc. destruct Hc as [Hc | Hc]; [now apply (Hw ws2)|].
    apply in_app_or in Hc. destruct Hc as [Hc | Hc]; [|now apply (Hw ws3)].
    apply Hother. apply Hd in Hc. simpl in Hc. simpl.
    repeat (destruct Hc as [<- | Hc]; [tauto|]). contradiction.
Qed.

(** *** The host field *)

Lemma scheme_first (scheme r : str) :
  In scheme [[]; #"http://"; #"https://"] ->
  (scheme = [] -> forall c x, r = c :: x -> Py.is_space c = false) ->
  forall z c x, scheme ++ r ++ z = c :: x ->
    Py.is_space c = false \/ (scheme = [] /\ r = []).
Proof.
  intros Hs Hr z c x E.
  destruct Hs as [<- | [<- | [<- | []]]].
  - destruct r as [|d r']; [right; now split|].
    left. simpl in E. injection E as <- _. now apply (Hr eq_refl d r').
  - left. injection E as <- _. reflexivity.
  - left. injection E as <- _. reflexivity.
Qed.

(** Trimming the host field gives the scheme, the part [r] up to the first
    slash, and a tail that is empty or starts with that slash. *)
Lemma strip_host_field (lead scheme r tail trail : str) :
  all_space lead -> all_space trail ->
  In scheme [[]; #"http://"; #"https://"] ->
  (scheme = [] -> forall c x, r = c :: x -> Py.is_space c = false) ->
  (tail = [] /\ (forall x c, r = x ++ [c] -> Py.is_space c = false))
  \/ (exists path, tail = "/"%char :: path) ->
  exists tail' t,
    tail = tail' ++ t
    /\ (tail' = [] \/ exists path', tail' = "/"%char :: path')
    /\ Py.strip (lead ++ scheme ++ r ++ tail ++ trail) = scheme ++ r ++ tail'.
Proof.
  intros Hl Ht Hs Hr Htail.
  replace (lead ++ scheme ++ r ++ tail ++ trail)
    with (lead ++ (scheme ++ r ++ tail) ++ trail)
    by now rewrite <- !app_assoc.
  rewrite strip_around by assumption.
  destruct Htail as [[-> Hlast] | [path ->]].
  - exists [], []. split; [reflexivity|]. split; [now left|].
    unfold Py.strip. rewrite lstrip_first.
    + apply rstrip_last. intros x c E. rewrite app_nil_r in E.
      destruct r as [|d r'].
      * rewrite app_nil_r in E.
        destruct Hs as [<- | [<- | [<- | []]]].
        -- now destruct x.
        -- change #"http://" with (#"http:/" ++ ["/"%char]) in E.
           apply app_inj_tail in E. now destruct E as [_ <-].
        -- change #"https://" with (#"https:/" ++ ["/"%char]) in E.
           apply app_inj_tail in E. now destruct E as [_ <-].
      * assert (Hne : d :: r' <> []) by discriminate.
        destruct (exists_last Hne) as [r0 [e Er]].
        rewrite Er, app_assoc in E. apply app_inj_tail in E.
        destruct E as [_ <-]. now apply (Hlast r0 e).
    + intros c x E.
      destruct (@scheme_first scheme r Hs Hr [] c x E) as [Hc | [-> ->]];
        [assumption | discriminate].
  - destruct (rstrip_split path) as [t [Ep Hsp]].
    exists ("/"%char :: Py.rstrip path), t.
    split; [simpl; now rewrite <- Ep|]. split; [right; now eexists|].
    unfold Py.strip. rewrite lstrip_first.
    + replace (scheme ++ r ++ "/"%char :: path)
        with (((scheme ++ r) ++ ["/"%char]) ++ path)
        by (rewrite <- !app_assoc; reflexivity).
      rewrite rstrip_app by reflexivity.
      rewrite <- !app_assoc. reflexivity.
    + intros c x E.
      destruct (@scheme_first scheme r Hs Hr _ c x E) as [Hc | [-> ->]];
        [assumption|].
      simpl in E. now injection E as <- _.
Qed.

(** The text that is cut at the first colon is the part [r] of the field. *)
Lemma host_field_core (lead scheme r tail trail : str) :
  all_space lead -> all_space trail ->
  In scheme [[]; #"http://"; #"https://"] ->
  (scheme = [] ->
   (forall c x, r = c :: x -> Py.is_space c = false)
   /\ (forall rest, r ++ tail <> #"http://" ++ rest)
   /\ (forall rest, r ++ tail <> #"https://" ++ rest)) ->
  no_char "/"%char r ->
  (tail = [] /\ (forall x c, r = x ++ [c] -> Py.is_space c = false))
  \/ (exists path, tail = "/"%char :: path) ->
  strip_path
    (strip_scheme (Py.strip (lead ++ scheme ++ r ++ tail ++ trail))) = r.
Proof.
  intros Hl Ht Hs Hr Hslash Htail.
  destruct (@strip_host_field lead scheme r tail trail Hl Ht Hs
              (fun E => proj1 (Hr E)) Htail)
    as [tail' [t [Et [Htail' ->]]]].
  assert (Hscheme : strip_scheme (scheme ++ r ++ tail') = r ++ tail').
  { destruct Hs as [<- | [<- | [<- | []]]]; [|reflexivity|reflexivity].
    destruct (Hr eq_refl) as [_ [H1 H2]].
    simpl app. unfold strip_scheme.
    destruct (Py.startswith #"http://" (r ++ tail')) eqn:E1.
    { apply startswith_app in E1. destruct E1 as [rest E1].
      exfalso. apply (H1 (rest ++ t)).
      now rewrite Et, app_assoc, E1, <- app_assoc. }
    destruct (Py.startswith #"https://" (r ++ tail')) eqn:E2.
    { apply startswith_app in E2. destruct E2 as [rest E2].
      exfalso. apply (H2 (rest ++ t)).
      now rewrite Et, app_assoc, E2, <- app_assoc. }
    reflexivity. }
  rewrite Hscheme.
  destruct Htail' as [-> | [path' ->]].
  - rewrite app_nil_r. now apply strip_path_none.
  - now apply strip_path_cut.
Qed.

Lemma lstrip_head (s : str) (c : ascii) (x : str) :
  Py.lstrip s = c :: x -> Py.is_space c = false.
Proof.
  induction s as [|d s IH]; simpl; [discriminate|].
  destruct (Py.is_space d) eqn:E; [assumption|].
  intros H. injection H as <- _. exact E.
Qed.

Lemma strip_head (s : str) (c : ascii) (x : str) :
  Py.strip s = c :: x -> Py.is_space c = false.
Proof.
  unfold Py.strip. destruct (Py.lstrip s) as [|d y] eqn:E; [discriminate|].
  pose proof (lstrip_head _ E) as Hd.
  rewrite rstrip_cons by assumption. intros H. injection H as <- _. exact Hd.
Qed.

Lemma strip_tail (s x : str) (c : ascii) :
  Py.strip s = x ++ [c] -> Py.is_space c = false.
Proof.
  unfold Py.strip, Py.rstrip. intros H.
  apply (f_equal (@rev ascii)) in H.
  rewrite rev_involutive, rev_app_distr in H. simpl in H.
  now apply lstrip_head in H.
Qed.

Lemma startswith_prefix (p s : str) : Py.startswith p (p ++ s) = true.
Proof.
  induction p as [|c p IH]; [reflexivity|].
  simpl. now rewrite Ascii.eqb_refl.
Qed.

Lemma cut_at_slash (s : str) :
  exists r tail,
    s = r ++ tail /\ no_char "/"%char r
    /\ (tail = [] \/ exists path, tail = "/"%char :: path).
Proof.
  destruct (Py.has_char "/" s) eqn:E.
  - apply has_char_In, first_cut in E. destruct E as [a [b [E Ha]]].
    exists a, ("/"%char :: b). split; [assumption|]. split; [assumption|].
    right. now eexists.
  - exists s, []. split; [now rewrite app_nil_r|].
    split; [now apply has_char_false | now left].
Qed.

(** Every host field can be written [lead scheme r tail trail] as
    [host_field_core] reads it. *)
Lemma host_field_shape (host_field : str) :
  exists lead scheme r tail trail : str,
    host_field = lead ++ scheme ++ r ++ tail ++ trail
    /\ all_space lead /\ all_space trail
    /\ In scheme [[]; #"http://"; #"https://"]
    /\ (scheme = [] ->
        (forall c x, r = c :: x -> Py.is_space c = false)
        /\ (forall rest, r ++ tail <> #"http://" ++ rest)
        /\ (forall rest, r ++ tail <> #"https://" ++ rest))
    /\ no_char "/"%char r
    /\ ((tail = [] /\ (forall x c, r = x ++ [c] -> Py.is_space c = false))
        \/ (exists path, tail = "/"%char :: path)).
Proof.
  destruct (strip_split host_field) as [l [t [E [Hl Ht]]]].
  pose proof (@strip_head host_field) as Hhead.
  pose proof (@strip_tail host_field) as Hlast.
  set (core := Py.strip host_field) in *.
  assert (Hscheme : forall scheme rest,
            In scheme [#"http://"; #"https://"] ->
            core = scheme ++ rest ->
            exists r tail,
              rest = r ++ tail /\ no_char "/"%char r
              /\ ((tail = []
                   /\ (forall x c, r = x ++ [c] -> Py.is_space c = false))
                  \/ (exists path, tail = "/"%char :: path))).
  { intros scheme rest Hs Ec.
    destruct (cut_at_slash rest) as [r [tail [Er [Hr Htail]]]].
    exists r, tail. split; [assumption|]. split; [assumption|].
    destruct Htail as [-> | Hp]; [left | now right].
    split; [reflexivity|]. intros x c Ex.
    apply (Hlast (scheme ++ x) c).
    rewrite Ec, Er, Ex, app_nil_r. now rewrite app_assoc. }
  destruct (Py.startswith #"http://" core) eqn:E1.
  { apply startswith_app in E1. destruct E1 as [rest Ec].
    destruct (Hscheme #"http://" rest (or_introl eq_refl) Ec)
      as [r [tail [Er [Hr Htail]]]].
    exists l, #"http://", r, tail, t.
    split; [rewrite E, Ec, Er; now rewrite <- !app_assoc|].
    split; [assumption|]. split; [assumption|].
    split; [right; now left|]. split; [discriminate|]. now split. }
  destruct (Py.startswith #"https://" core) eqn:E2.
  { apply startswith_app in E2. destruct E2 as [rest Ec].
    destruct (Hscheme #"https://" rest (or_intror (or_introl eq_refl)) Ec)
      as [r [tail [Er [Hr Htail]]]].
    exists l, #"https://", r, tail, t.
    split; [rewrite E, Ec, Er; now rewrite <- !app_assoc|].
    split; [assumption|]. split; [assumption|].
    split; [right; right; now left|]. split; [discriminate|]. now split. }
  destruct (cut_at_slash core) as [r [tail [Er [Hr Htail]]]].
  exists l, [], r, tail, t.
  split; [rewrite E, Er; now rewrite <- !app_assoc|].
  split; [assumption|]. split; [assumption|]. split; [now left|].
  split; [|split; [assumption|]].
  - intros _. split; [|split].
    + intros c x Ex. apply (Hhead c (x ++ tail)). now rewrite Er, Ex.
    + intros rest Erest. rewrite <- Er in Erest.
      rewrite Erest, startswith_prefix in E1. discriminate.
    + intros rest Erest. rewrite <- Er in Erest.
      rewrite Erest, startswith_prefix in E2. discriminate.
  - destruct Htail as [-> | Hp]; [left | now right].
    split; [reflexivity|]. intros x c Ex.
    apply (Hlast x c). now rewrite Er, Ex, app_nil_r.
Qed.

End PortFacts.

(** C3 (amended).  A host field is written [lead scheme r tail trail]:
    whitespace [lead] and [trail] around a scheme that is empty, [http://]
    or [https://], a part [r] without slash, and a [tail] that is empty or
    starts with a slash; without a scheme, [r] does not start with
    whitespace and the field does not start with one of the two schemes;
    without a tail, [r] does not end with whitespace; every host field
    can be written so ([PortFacts.host_field_shape]).  Then whitespace,
    scheme and tail play no part, and [r] is cut at its FIRST colon:
    without a colon the host is [r] and the port is the default one (443
    with HTTPS, 80 without); otherwise the host is what precedes the first
    colon.  When decimal digits follow that colon, possibly after a sign
    and within whitespace, the port is their value, negated after [-];
    when what follows has no digit, or has a character that is not a
    digit, a sign or whitespace, the port is the default one. *)
Theorem parse_host_and_port_first_colon
    (lead scheme r tail trail : str) (use_https : bool) :
  whitespace_only lead -> whitespace_only trail ->
  In scheme [[]; #"http://"; #"https://"] ->
  (scheme = [] ->
   (forall c x, r = c :: x -> ~ In c whitespace)
   /\ (forall rest, r ++ tail <> #"http://" ++ rest)
   /\ (forall rest, r ++ tail <> #"https://" ++ rest)) ->
  no_char "/"%char r ->
  (tail = [] /\ (forall x c, r = x ++ [c] -> ~ In c whitespace))
  \/ (exists path, tail = "/"%char :: path) ->
  (no_char ":"%char r ->
   parse_host_and_port (lead ++ scheme ++ r ++ tail ++ trail) use_https
   = (r, if use_https then 443%Z else 80%Z))
  /\ (forall a b : str,
        r = a ++ ":"%char :: b -> no_char ":"%char a ->
        (forall ws1 sign ds ws3 : str,
           b = ws1 ++ sign ++ ds ++ ws3 ->
           whitespace_only ws1 -> whitespace_only ws3 -> digits ds ->
           (sign = [] \/ sign = #"+" ->
            parse_host_and_port (lead ++ scheme ++ r ++ tail ++ trail)
              use_https
            = (a, decimal ds))
           /\ (sign = #"-" ->
               parse_host_and_port (lead ++ scheme ++ r ++ tail ++ trail)
                 use_https
               = (a, (- decimal ds)%Z)))
        /\ ((forall c, In c b -> ~ In c #"0123456789")
            \/ (exists c, In c b /\ ~ In c #"0123456789+-"
                          /\ ~ In c whitespace) ->
            parse_host_and_port (lead ++ scheme ++ r ++ tail ++ trail)
              use_https
            = (a, if use_https then 443%Z else 80%Z))).
Proof.
  intros Hl Ht Hs Hr Hslash Htail.
  apply PortFacts.whitespace_only_all_space in Hl, Ht.
  assert (Hr' : scheme = [] ->
                (forall c x, r = c :: x -> Py.is_space c = false)
                /\ (forall rest, r ++ tail <> #"http://" ++ rest)
                /\ (forall rest, r ++ tail <> #"https://" ++ rest)).
  { intros E. destruct (Hr E) as [H1 H2]. split; [|exact H2].
    intros c x Ec. now apply PortFacts.not_space_whitespace, (H1 c x). }
  assert (Htail' : (tail = []
                    /\ (forall x c, r = x ++ [c] -> Py.is_space c = false))
                   \/ (exists path, tail = "/"%char :: path)).
  { destruct Htail as [[E H] | H]; [left | now right]. split; [exact E|].
    intros x c Ec. now apply PortFacts.not_space_whitespace, (H x c). }
  pose proof (@PortFacts.host_field_core lead scheme r tail trail
                Hl Ht Hs Hr' Hslash Htail') as Hcore.
  change (if use_https then 443%Z else 80%Z) with (default_port use_https).
  unfold parse_host_and_port. rewrite Hcore. split.
  - intros H. apply PyFacts.has_char_false in H. now rewrite H.
  - intros a b Er Ha.
    assert (E : Py.has_char ":" r = true).
    { rewrite Er. apply PyFacts.has_char_In, in_or_app. right. now left. }
    rewrite E, Er, LineFacts.split1_app by assumption.
    cbn [nth py_int]. split.
    + intros ws1 sign ds ws3 Eb H1 H3 Hd.
      apply PortFacts.whitespace_only_all_space in H1, H3. split.
      * intros Hsign.
        rewrite (@PortFacts.int_of_integer_text b (decimal ds));
          [reflexivity|].
        exists ws1, sign, [], ds, ws3.
        split; [exact Eb|]. split; [assumption|].
        split; [apply PortFacts.all_space_nil|].
        split; [assumption|]. split; [assumption|].
        destruct Hsign as [-> | ->]; [left | right; left]; now repeat split.
      * intros ->.
        rewrite (@PortFacts.int_of_integer_text b (- decimal ds)%Z);
          [reflexivity|].
        exists ws1, #"-", [], ds, ws3.
        split; [exact Eb|]. split; [assumption|].
        split; [apply PortFacts.all_space_nil|].
        split; [assumption|]. split; [assumption|].
        right. right. now split.
    + intros Hno. destruct (int_of_str b) as [p|] eqn:Ep; [|reflexivity].
      exfalso. apply PortFacts.integer_text_of_int in Ep.
      apply (PortFacts.integer_text_chars Ep).
      destruct Hno as [Hnone | [c [Hc [Hother Hsp]]]]; [now left | right].
      exists c. split; [assumption|]. split; [assumption|].
      now apply PortFacts.not_space_whitespace.
Qed.

Lemma parse_host_and_port_first_colon_witness :
  parse_host_and_port
    (#" " ++ #"https://" ++ #"example.com:444" ++ #"/a/b" ++ #" ") true
  = (#"example.com", 444%Z).
Proof.
  refine (proj1 (proj1 (proj2 (@parse_host_and_port_first_colon
                                 #" " #"https://" #"example.com:444"
                                 #"/a/b" #" " true _ _ _ _ _ _)
                          #"example.com" #"444" _ _)
                   [] [] #"444" [] _ _ _ _) _).
  - intros c [<- | []]. apply PyFacts.has_char_In. reflexivity.
  - intros c [<- | []]. apply PyFacts.has_char_In. reflexivity.
  - right. right. now left.
  - discriminate.
  - apply PyFacts.has_char_false. reflexivity.
  - right. now eexists.
  - reflexivity.
  - apply PyFacts.has_char_false. reflexivity.
  - reflexivity.
  - intros c [].
  - intros c [].
  - split; [discriminate|]. intros c Hc. simpl in Hc.
    repeat (destruct Hc as [<- | Hc];
            [apply PyFacts.has_char_In; reflexivity|]).
    contradiction.
  - now left.
Defined.

(** X10.  For every host field, the host that is returned contains neither
    a colon nor a slash. *)
Theorem parsed_host_has_no_colon_or_slash (host_field : str)
    (use_https : bool) :
  no_char ":"%char (fst (parse_host_and_port host_field use_https))
  /\ no_char "/"%char (fst (parse_host_and_port host_field use_https)).
Proof.
  unfold parse_host_and_port.
  set (r := strip_path (strip_scheme (Py.strip host_field))).
  pose proof (HostFacts.strip_path_no_slash
                (strip_scheme (Py.strip host_field))) as Hr.
  fold r in Hr.
  destruct (Py.has_char ":" r) eqn:E.
  - apply PyFacts.has_char_In, LineFacts.first_cut in E.
    destruct E as [a [b [Hab Ha]]].
    rewrite Hab, LineFacts.split1_app by assumption. cbn [nth fst].
    split; [assumption|].
    rewrite Hab in Hr. apply PyFacts.no_char_app in Hr. tauto.
  - cbn [fst]. split; [now apply PyFacts.has_char_false | assumption].
Qed.

(** X11.  The scheme that is stripped never decides the port: a host field
    written with [http://] and the same one written with [https://] give
    the same host and port; only the HTTPS flag chooses the default. *)
Theorem scheme_does_not_choose_port (s : str) (use_https : bool) :
  parse_host_and_port (#"http://" ++ s) use_https
  = parse_host_and_port (#"https://" ++ s) use_https.
Proof.
  unfold parse_host_and_port.
  replace (Py.strip (#"http://" ++ s)) with (#"http://" ++ Py.rstrip s).
  - replace (Py.strip (#"https://" ++ s)) with (#"https://" ++ Py.rstrip s).
    + reflexivity.
    + symmetry.
      apply (@StripFacts.strip_app "h"%char #"ttps:/" s "/"%char);
        reflexivity.
  - symmetry.
    apply (@StripFacts.strip_app "h"%char #"ttp:/" s "/"%char); reflexivity.
Qed.

(** X12.  An explicit decimal port wins over the HTTPS flag: for a host
    [h] without colon, slash or whitespace and a non-empty digit string
    [ds] of value [p], the field [<scheme>h:ds<tail>] -- with no scheme or
    [http://] or [https://], and with nothing or a path after the port --
    parses to host [h] and port [p]. *)
Theorem explicit_port_wins (scheme h ds tail : str) (p : Z)
    (use_https : bool) :
  In scheme [[]; #"http://"; #"https://"] ->
  no_char ":"%char h -> no_char "/"%char h -> no_space h ->
  ds <> [] -> digits_val 0 ds = Some p ->
  tail = [] \/ (exists path, tail = "/"%char :: path) ->
  parse_host_and_port (scheme ++ h ++ ":"%char :: ds ++ tail) use_https
  = (h, p).
Proof.
  intros Hscheme Hcolon Hslash Hspace Hne Hp Htail.
  pose proof (HostFacts.digits_val_digits _ _ Hp) as Hd.
  assert (Hdf : forall c, In c ds ->
            Py.is_space c = false /\ c <> "/"%char).
  { rewrite Forall_forall in Hd. intros c Hc.
    destruct (HostFacts.digit_facts c (Hd c Hc)) as [H1 [H2 _]]. now split. }
  set (core := h ++ ":"%char :: ds).
  assert (Hcore_space : no_space (scheme ++ core)).
  { intros c Hc. apply in_app_or in Hc. destruct Hc as [Hc | Hc].
    - destruct Hscheme as [<- | [<- | [<- | []]]];
        [contradiction | |];
        repeat (destruct Hc as [<- | Hc]; [reflexivity|]); contradiction.
    - subst core. apply in_app_or in Hc. destruct Hc as [Hc | [<- | Hc]].
      + now apply Hspace.
      + reflexivity.
      + now apply Hdf. }
  assert (Hcore_ne : scheme ++ core <> []).
  { subst core. intros E. apply app_eq_nil in E. destruct E as [_ E].
    now destruct h. }
  assert (Hcore_slash : no_char "/"%char core).
  { subst core. apply PyFacts.no_char_app. split; [assumption|].
    apply PyFacts.no_char_cons. split; [discriminate|].
    intros Hc. now destruct (Hdf _ Hc). }
  (* the host field after [strip]: only the end of a path can change *)
  assert (Hstrip : exists tail',
             Py.strip (scheme ++ h ++ ":"%char :: ds ++ tail)
             = scheme ++ core ++ tail'
             /\ (tail' = [] \/ exists path, tail' = "/"%char :: path)).
  { destruct Htail as [-> | [path ->]].
    - exists []. split; [|now left]. rewrite !app_nil_r.
      now apply StripFacts.strip_no_space.
    - exists ("/"%char :: Py.rstrip path). split; [|right; now eexists].
      assert (Hx : exists a q, scheme ++ core = a :: q).
      { destruct (scheme ++ core) as [|a q]; [congruence | eauto]. }
      destruct Hx as [a [q Eq]].
      assert (Ha : Py.is_space a = false).
      { apply Hcore_space. rewrite Eq. now left. }
      replace (scheme ++ h ++ ":"%char :: ds ++ "/"%char :: path)
        with (((scheme ++ core) ++ ["/"%char]) ++ path)
        by (subst core; rewrite <- ?app_assoc; simpl;
            rewrite <- ?app_assoc; reflexivity).
      replace (scheme ++ core ++ "/"%char :: Py.rstrip path)
        with (((scheme ++ core) ++ ["/"%char]) ++ Py.rstrip path)
        by (rewrite <- ?app_assoc; reflexivity).
      rewrite Eq. now apply StripFacts.strip_app. }
  destruct Hstrip as [tail' [Hs Htail']].
  unfold parse_host_and_port. rewrite Hs.
  assert (Hscheme' : strip_scheme (scheme ++ core ++ tail') = core ++ tail').
  { destruct Hscheme as [<- | [<- | [<- | []]]]; [|reflexivity|reflexivity].
    simpl app. unfold strip_scheme. subst core. rewrite <- app_assoc. simpl app.
    assert (H1 : Py.startswith #"http://" (h ++ ":"%char :: ds ++ tail')
                 = false).
    { apply (@HostFacts.no_scheme #"http" [ "/"%char ] h ds tail');
        try assumption. apply PyFacts.has_char_false. reflexivity. }
    assert (H2 : Py.startswith #"https://" (h ++ ":"%char :: ds ++ tail')
                 = false).
    { apply (@HostFacts.no_scheme #"https" [ "/"%char ] h ds tail');
        try assumption. apply PyFacts.has_char_false. reflexivity. }
    now rewrite H1, H2. }
  rewrite Hscheme'.
  assert (Hpath : strip_path (core ++ tail') = core).
  { destruct Htail' as [-> | [path ->]].
    - rewrite app_nil_r. now apply strip_path_none.
    - now apply strip_path_cut. }
  rewrite Hpath. subst core.
  assert (E : Py.has_char ":" (h ++ ":"%char :: ds) = true).
  { apply PyFacts.has_char_In, in_or_app. right. now left. }
  rewrite E, LineFacts.split1_app by assumption. cbn [nth py_int].
  now rewrite (HostFacts.int_of_digits Hne Hp).
Qed.

Lemma explicit_port_wins_witness :
  parse_host_and_port
    (#"https://" ++ #"example.com" ++ ":"%char :: #"8443" ++ #"/api/v1 ") false
  = (#"example.com", 8443%Z).
Proof.
  apply (@explicit_port_wins #"https://" #"example.com" #"8443" #"/api/v1 "
           8443%Z false).
  - right. right. now left.
  - apply PyFacts.has_char_false. reflexivity.
  - apply PyFacts.has_char_false. reflexivity.
  - intros c Hc. simpl in Hc.
    repeat (destruct Hc as [<- | Hc]; [reflexivity|]). contradiction.
  - discriminate.
  - reflexivity.
  - right. now eexists.
Defined.

(* ================================================================== *)
(** * Further properties: the sampler *)

Module StepFacts.
Import PyFacts LineFacts DictFacts.

Lemma sample_unfold (depth : nat) (schema spec : value) :
  simple_sample_from_schema (S depth) schema spec
  = sample_step (fun s => simple_sample_from_schema depth s spec) schema spec.
Proof. reflexivity. Qed.

(** *** More recursion depth does not change a result *)





(** *** No [KeyError] *)

Lemma bind_no_key {A B : Type} (m : outcome A) (k : A -> outcome B) :
  no_key_error m -> (forall a, m = Ret a -> no_key_error (k a)) ->
  no_key_error (bind m k).
Proof.
  unfold no_key_error. intros Hm Hk. destruct m as [a|e]; simpl.
  - now apply Hk.
  - congruence.
Qed.

Lemma py_in_no_key (k : str) (v : value) : no_key_error (py_in k v).
Proof. destruct v; discriminate. Qed.

Lemma py_get_no_key (v : value) (k : str) (dflt : value) :
  no_key_error (py_get v k dflt).
Proof. destruct v; discriminate. Qed.

Lemma py_startswith_no_key (v : value) (p : str) :
  no_key_error (py_startswith v p).
Proof. destruct v; discriminate. Qed.

Lemma py_items_no_key (v : value) : no_key_error (py_items v).
Proof. destruct v; discriminate. Qed.

(** A subscript that follows a successful [in] test finds its key. *)
Lemma py_getitem_after_in (v : value) (k : str) :
  py_in k v = Ret true -> no_key_error (py_getitem v k).
Proof.
  destruct v; try discriminate. simpl. unfold Dict.mem.
  destruct (Dict.lookup k d); discriminate.
Qed.

Lemma sample_props_no_key (f : value -> outcome value)
    (props : list (str * value)) :
  (forall s, no_key_error (f s)) ->
  forall obj, no_key_error (sample_props f props obj).
Proof.
  intros Hf. induction props as [|[k s] props IH]; intros obj; simpl.
  - discriminate.
  - apply bind_no_key; [apply Hf | intros; apply IH].
Qed.

Lemma sample_by_type_no_key (f : value -> outcome value) (t schema : value) :
  (forall s, no_key_error (f s)) -> no_key_error (sample_by_type f t schema).
Proof.
  intros Hf. unfold sample_by_type.
  destruct (eq_str t #"string").
  { apply bind_no_key; [apply py_get_no_key | intros fmt _].
    repeat match goal with
           | |- no_key_error (if ?c then _ else _) => destruct c
           end; try discriminate.
    apply bind_no_key; [apply py_get_no_key | intros ? _].
    apply bind_no_key; [apply py_get_no_key | intros ? _]. discriminate. }
  destruct (eq_str t #"integer" || eq_str t #"number").
  { apply bind_no_key; [apply py_in_no_key | intros [|] _].
    - apply bind_no_key; [apply py_get_no_key | intros ? _]. discriminate.
    - apply bind_no_key; [apply py_in_no_key | intros [|] _]; [|discriminate].
      apply bind_no_key; [apply py_get_no_key | intros ? _]. discriminate. }
  destruct (eq_str t #"boolean"); [discriminate|].
  destruct (eq_str t #"array").
  { apply bind_no_key; [apply py_get_no_key | intros items _].
    apply bind_no_key; [apply Hf | intros ? _]. discriminate. }
  destruct (eq_str t #"object"); [|discriminate].
  apply bind_no_key; [apply py_get_no_key | intros props _].
  apply bind_no_key; [apply py_items_no_key | intros items _].
  now apply sample_props_no_key.
Qed.

Lemma sample_step_no_key (f : value -> outcome value) (schema spec : value) :
  (forall s, no_key_error (f s)) -> no_key_error (sample_step f schema spec).
Proof.
  intros Hf. unfold sample_step.
  destruct (negb (truthy schema)); [discriminate|].
  apply bind_no_key; [apply py_in_no_key | intros [|] Href].
  { apply bind_no_key; [now apply py_getitem_after_in | intros ref _].
    apply bind_no_key; [apply py_startswith_no_key | intros [|] _];
      [|discriminate].
    destruct ref; try discriminate. apply Hf. }
  apply bind_no_key; [apply py_in_no_key | intros [|] Hex];
    [now apply py_getitem_after_in|].
  apply bind_no_key; [apply py_in_no_key | intros [|] Hdf];
    [now apply py_getitem_after_in|].
  apply bind_no_key; [apply py_get_no_key | intros t _].
  destruct (negb (truthy t)); [|now apply sample_by_type_no_key].
  apply bind_no_key; [apply py_in_no_key | intros [|] _];
    [now apply sample_by_type_no_key|].
  apply bind_no_key; [apply py_in_no_key | intros [|] _];
    [|now apply sample_by_type_no_key].
  apply bind_no_key; [apply py_get_no_key | intros enums _].
  destruct enums as [ | | | | |[|e l]| ]; discriminate.
Qed.

(** *** The keys of an object sample *)

Lemma set_fresh {V : Type} (k : str) (v : V) (d : dict V) :
  ~ In k (Dict.keys d) -> Dict.set k v d = d ++ [(k, v)].
Proof.
  induction d as [|[k' v'] d IH]; intros H; simpl; [reflexivity|].
  simpl in H. destruct (Py.str_eqb k k') eqn:E.
  - apply str_eqb_eq in E. subst. tauto.
  - rewrite IH by tauto. reflexivity.
Qed.

Lemma lookup_app_right {V : Type} (k : str) (v : V) (d : dict V) :
  ~ In k (Dict.keys d) -> Dict.lookup k (d ++ [(k, v)]) = Some v.
Proof.
  intros H. rewrite <- (set_fresh _ v d H). apply lookup_set_same.
Qed.

Lemma sample_props_keys (f : value -> outcome value)
    (props : list (str * value)) :
  forall obj v,
    NoDup (Dict.keys obj ++ Dict.keys props) ->
    sample_props f props obj = Ret v ->
    exists obj',
      v = VDict obj'
      /\ Dict.keys obj' = Dict.keys obj ++ Dict.keys props
      /\ (forall k w, Dict.lookup k obj = Some w -> Dict.lookup k obj' = Some w)
      /\ (forall k sub, In (k, sub) props ->
            exists w, f sub = Ret w /\ Dict.lookup k obj' = Some w).
Proof.
  induction props as [|[k s] props IH]; intros obj v Hnd H; simpl in H.
  - injection H as <-. exists obj. unfold Dict.keys. simpl.
    rewrite app_nil_r. repeat split; [auto | intros k sub []].
  - destruct (f s) as [w|e] eqn:E; [|discriminate]. cbn [bind] in H.
    assert (Hk : ~ In k (Dict.keys obj)).
    { unfold Dict.keys in *. simpl in Hnd.
      apply NoDup_remove_2 in Hnd. intros Hin. apply Hnd.
      apply in_or_app. now left. }
    rewrite set_fresh in H by assumption.
    destruct (IH (obj ++ [(k, w)]) v) as [obj' [Hv [Hkeys [Hold Hnew]]]].
    + unfold Dict.keys in *. rewrite map_app. simpl in *.
      now rewrite <- app_assoc.
    + assumption.
    + exists obj'. split; [assumption|]. split.
      { rewrite Hkeys. unfold Dict.keys. rewrite map_app. simpl.
        now rewrite <- app_assoc. }
      split.
      { intros k0 w0 Hl. apply Hold.
        assert (Hne : k0 <> k).
        { intros ->. apply Hk. clear - Hl.
          induction obj as [|[k' v'] obj IHo]; [discriminate|].
          simpl in Hl. destruct (Py.str_eqb k k') eqn:E.
          - apply str_eqb_eq in E. subst. now left.
          - right. now apply IHo. }
        rewrite <- (set_fresh _ w obj Hk).
        now rewrite lookup_set_other. }
      intros k0 sub [Heq | Hin].
      * injection Heq as <- <-. exists w. split; [assumption|].
        apply Hold. now apply lookup_app_right.
      * now apply Hnew.
Qed.

End StepFacts.

(** X13.  The sampler never raises [KeyError], whatever the node, the
    document and the recursion limit: every subscript follows a successful
    [in] test on the same key. *)
Theorem sampler_never_raises_key_error (depth : nat) (schema spec : value) :
  simple_sample_from_schema depth schema spec <> Raise KeyError.
Proof.
  revert schema. induction depth as [|depth IH]; intros schema.
  - discriminate.
  - rewrite StepFacts.sample_unfold.
    apply StepFacts.sample_step_no_key. intros s. apply IH.
Qed.



(** X15.  For a mapping of type [object] without [$ref], [example] and
    [default], whose [properties] is a mapping: when the sampler returns,
    the result is a mapping with the declared property names in the
    declared order, each bound to the sample of its sub-schema. *)
Theorem object_sample_has_declared_keys (depth : nat) (d : dict value)
    (props : dict value) (spec v : value) :
  Dict.lookup #"$ref" d = None ->
  Dict.lookup #"example" d = None ->
  Dict.lookup #"default" d = None ->
  Dict.lookup #"type" d = Some (VStr #"object") ->
  Dict.lookup #"properties" d = Some (VDict props) ->
  NoDup (Dict.keys props) ->
  simple_sample_from_schema (S depth) (VDict d) spec = Ret v ->
  exists obj,
    v = VDict obj
    /\ Dict.keys obj = Dict.keys props
    /\ (forall k sub, In (k, sub) props ->
          exists w, simple_sample_from_schema depth sub spec = Ret w
                    /\ Dict.lookup k obj = Some w).
Proof.
  intros Href Hex Hdf Hty Hprops Hnd H.
  rewrite StepFacts.sample_unfold in H. unfold sample_step in H.
  rewrite (SampleFacts.lookup_some_truthy _ _ Hty) in H.
  cbn [negb py_in py_get bind] in H. unfold Dict.mem in H.
  rewrite Href, Hex, Hdf, Hty in H. cbn [bind truthy negb] in H.
  unfold sample_by_type in H.
  replace (eq_str (VStr #"object") #"string") with false in H by reflexivity.
  replace (eq_str (VStr #"object") #"integer") with false in H by reflexivity.
  replace (eq_str (VStr #"object") #"number") with false in H by reflexivity.
  replace (eq_str (VStr #"object") #"boolean") with false in H by reflexivity.
  replace (eq_str (VStr #"object") #"array") with false in H by reflexivity.
  replace (eq_str (VStr #"object") #"object") with true in H by reflexivity.
  cbn [orb py_get bind] in H. rewrite Hprops in H. cbn [py_items bind] in H.
  destruct (StepFacts.sample_props_keys _ props [] Hnd H)
    as [obj [Hv [Hkeys [_ Hnew]]]].
  exists obj. repeat split; assumption.
Qed.

Lemma object_sample_has_declared_keys_witness :
  exists obj,
    VDict [(#"name", VStr #"example"); (#"age", VInt 3)] = VDict obj
    /\ Dict.keys obj = [#"name"; #"age"]
    /\ (forall k sub,
          In (k, sub)
            [(#"name", VDict [(#"type", VStr #"string")]);
             (#"age", VDict [(#"type", VStr #"integer"); (#"minimum", VInt 3)])] ->
          exists w, simple_sample_from_schema 1 sub VNone = Ret w
                    /\ Dict.lookup k obj = Some w).
Proof.
  apply (@object_sample_has_declared_keys 1 schema_pet
           [(#"name", VDict [(#"type", VStr #"string")]);
            (#"age", VDict [(#"type", VStr #"integer"); (#"minimum", VInt 3)])]
           VNone).
  - reflexivity.
  - reflexivity.
  - reflexivity.
  - reflexivity.
  - reflexivity.
  - repeat constructor; simpl; intuition discriminate.
  - vm_compute. reflexivity.
Defined.

(* ================================================================== *)
(** * Further properties: references *)

Module RefFacts.
Import PyFacts LineFacts.

Lemma lstrip_chars_fixed (chars s : str) :
  first_char_not_in chars s -> Py.lstrip_chars chars s = s.
Proof.
  destruct s as [|c s]; [contradiction|]. simpl. intros H. now rewrite H.
Qed.

Lemma join_first_char (sep : str) (chars : str) (p : str) (ps : list str) :
  first_char_not_in chars p -> first_char_not_in chars (Py.join sep (p :: ps)).
Proof.
  destruct p as [|c p]; [contradiction|].
  intros H. destruct ps; exact H.
Qed.

(** The parts of a pointer written from its parts. *)
Lemma ref_parts_join (p : str) (ps : list str) :
  first_char_not_in #"#/" p -> Forall (no_char "/"%char) (p :: ps) ->
  ref_parts (#"#/" ++ Py.join #"/" (p :: ps)) = p :: ps.
Proof.
  intros Hp Hps. unfold ref_parts.
  change (Py.lstrip_chars #"#/" (#"#/" ++ Py.join #"/" (p :: ps)))
    with (Py.lstrip_chars #"#/" (Py.join #"/" (p :: ps))).
  rewrite lstrip_chars_fixed by now apply join_first_char.
  apply split_join; [discriminate | assumption].
Qed.

Lemma get_path_empty (parts : list str) :
  get_path (VDict []) parts = Ret (VDict []).
Proof. induction parts as [|p parts IH]; [reflexivity | exact IH]. Qed.

End RefFacts.

(** X16.  A node whose [$ref] is the local pointer [#/p1/.../pn] is
    sampled as the node found by walking the document along [p1 ... pn],
    with one level of recursion less; the other keys of the node play no
    role.  (The first part does not start with [#] or [/], and no part
    contains [/].) *)
Theorem local_ref_samples_target (depth : nat) (d : dict value) (p : str)
    (ps : list str) (spec : value) :
  Dict.lookup #"$ref" d = Some (VStr (#"#/" ++ Py.join #"/" (p :: ps))) ->
  first_char_not_in #"#/" p ->
  Forall (no_char "/"%char) (p :: ps) ->
  simple_sample_from_schema (S depth) (VDict d) spec
  = simple_sample_from_schema depth (walk_ref spec (p :: ps)) spec.
Proof.
  intros Href Hp Hps.
  rewrite StepFacts.sample_unfold. unfold sample_step.
  rewrite (SampleFacts.lookup_some_truthy _ _ Href).
  cbn [negb py_in py_getitem bind]. unfold Dict.mem. rewrite Href.
  cbn [bind py_startswith].
  replace (Py.startswith #"#/" (#"#/" ++ Py.join #"/" (p :: ps))) with true
    by reflexivity.
  now rewrite RefFacts.ref_parts_join.
Qed.

Lemma local_ref_samples_target_witness :
  simple_sample_from_schema 5
    (VDict [(#"$ref", VStr (#"#/" ++ Py.join #"/" [#"components"; #"schemas"; #"Pet"]));
            (#"type", VStr #"boolean")])
    spec_pet
  = simple_sample_from_schema 4
      (walk_ref spec_pet [#"components"; #"schemas"; #"Pet"]) spec_pet.
Proof.
  apply (@local_ref_samples_target 4
           [(#"$ref", VStr (#"#/" ++ Py.join #"/" [#"components"; #"schemas"; #"Pet"]));
            (#"type", VStr #"boolean")]
           #"components" [#"schemas"; #"Pet"] spec_pet).
  - reflexivity.
  - reflexivity.
  - repeat constructor; apply PyFacts.has_char_false; reflexivity.
Defined.

(** X17.  The reference walk of the extractor and the one of the sampler
    agree whenever the extractor's returns; otherwise the extractor's raises
    [AttributeError] (it met a value that is not a mapping), where the
    sampler's walk gives the empty mapping. *)
Theorem reference_walks_agree (spec : value) (parts : list str) :
  (forall node, get_path spec parts = Ret node -> walk_ref spec parts = node)
  /\ (forall e, get_path spec parts = Raise e ->
                e = AttributeError /\ walk_ref spec parts = VDict []).
Proof.
  revert spec. induction parts as [|p parts IH]; intros spec.
  - split; [now intros node [= <-] | discriminate].
  - simpl. destruct spec as [ | b | z | f | s | l | d];
      try (split; [discriminate | now intros e [= <-]]).
    cbn [py_get bind].
    destruct (Dict.lookup p d) as [n|]; [apply IH|].
    rewrite RefFacts.get_path_empty.
    split; [now intros node [= <-] | discriminate].
Qed.

Lemma reference_walks_agree_witness :
  walk_ref spec_pet [#"components"; #"schemas"; #"Nope"; #"x"] = VDict [].
Proof.
  apply (proj1 (@reference_walks_agree spec_pet
                  [#"components"; #"schemas"; #"Nope"; #"x"])).
  reflexivity.
Defined.

(* ================================================================== *)
(** * Further properties: from the generated text to the renderer *)

Module GenerateFacts.
Import PyFacts LineFacts StripFacts RenderFacts DictFacts SplitFacts.

Lemma split_join_last (c : ascii) (init : list str) (b : str) :
  Forall (no_char c) init ->
  Py.split c (Py.join [c] (init ++ [b])) = init ++ Py.split c b.
Proof.
  intros H. induction H as [|h init Hh Hinit IH]; [reflexivity|].
  simpl app. rewrite join_cons by (destruct init; discriminate).
  change ([c] ++ Py.join [c] (init ++ [b])) with (c :: Py.join [c] (init ++ [b])).
  rewrite split_app by assumption. now rewrite IH.
Qed.

Lemma headers_part_blank (rest : list str) : headers_part ([] :: rest) = [].
Proof. reflexivity. Qed.

Lemma body_part_blank (rest : list str) : body_part ([] :: rest) = rest.
Proof. reflexivity. Qed.

Lemma add_header_tidy (d : dict str) (kv : str * str) :
  tidy_header kv -> ~ In (fst kv) (Dict.keys d) ->
  add_header d (header_line kv) = d ++ [kv].
Proof.
  intros [[Hcolon _] [Hk Hv]] Hfresh. unfold add_header.
  rewrite header_line_has_colon. unfold header_line.
  change (fst kv ++ #": " ++ snd kv)
    with (fst kv ++ ":"%char :: (" "%char :: snd kv)).
  rewrite split1_app by assumption. cbn [nth].
  change (Py.strip (" "%char :: snd kv)) with (Py.strip (snd kv)).
  unfold stripped in *. rewrite Hk, Hv.
  rewrite StepFacts.set_fresh by assumption. now destruct kv.
Qed.

Lemma parse_header_lines (hb : dict str) :
  forall d, NoDup (Dict.keys d ++ Dict.keys hb) -> Forall tidy_header hb ->
            fold_left add_header (map header_line hb) d = d ++ hb.
Proof.
  induction hb as [|kv hb IH]; intros d Hnd Ht; simpl.
  - now rewrite app_nil_r.
  - inversion Ht as [|? ? Hkv Hhb]; subst.
    unfold Dict.keys in Hnd. simpl in Hnd.
    rewrite add_header_tidy; [|assumption|].
    + rewrite IH; [now rewrite <- app_assoc | | assumption].
      unfold Dict.keys. rewrite map_app. simpl. now rewrite <- app_assoc.
    + apply NoDup_remove_2 in Hnd. intros Hin. apply Hnd.
      apply in_or_app. now left.
Qed.

Lemma header_lines_not_blank (hb : dict str) :
  Forall (fun h => is_blank h = false) (map header_line hb).
Proof.
  apply Forall_map, Forall_forall. intros kv _.
  apply has_colon_not_blank, header_line_has_colon.
Qed.

Lemma tidy_lines_no_lf (hb : dict str) :
  Forall tidy_header hb -> Forall (no_char LF) (map header_line hb).
Proof.
  intros H. apply Forall_map. revert H. apply Forall_impl.
  intros kv [Hp _]. now destruct (header_line_one_line Hp).
Qed.

Lemma fold_set_untouched {V : Type} (k : str) (l d : dict V) :
  ~ In k (Dict.keys l) ->
  Dict.lookup k (fold_left (fun hb kv => Dict.set (fst kv) (snd kv) hb) l d)
  = Dict.lookup k d.
Proof.
  revert d. induction l as [|[k' v'] l IH]; intros d H; [reflexivity|].
  simpl in H. simpl fold_left. rewrite IH by tauto.
  apply lookup_set_other. intros ->. tauto.
Qed.

Lemma fold_set_wins {V : Type} (k : str) (v : V) (l d : dict V) :
  NoDup (Dict.keys l) -> In (k, v) l ->
  Dict.lookup k (fold_left (fun hb kv => Dict.set (fst kv) (snd kv) hb) l d)
  = Some v.
Proof.
  revert d. induction l as [|[k' v'] l IH]; intros d Hnd Hin; [contradiction|].
  simpl in Hnd. inversion Hnd as [|? ? Hnot Hnd']; subst.
  simpl fold_left. destruct Hin as [Heq | Hin].
  - injection Heq as -> ->.
    rewrite fold_set_untouched by assumption. apply lookup_set_same.
  - now apply IH.
Qed.

End GenerateFacts.

(** X18.  The text that the extractor composes is read back by the
    renderer without loss: when the request line has no line feed and the
    headers form a mapping of tidy entries (name without colon, name and
    value on one line and without surrounding whitespace), the first line of
    [raw_base] is the request line, the header mapping parsed from it is
    [headers_base] again, in the same order, and the body lines are the
    lines of the serialised body. *)
Theorem generated_request_parses_back (method final_path qs : str)
    (hb : dict str) (body_text : option str) :
  no_char LF (request_line method final_path qs) ->
  NoDup (Dict.keys hb) -> Forall tidy_header hb ->
  let lines := Py.split LF (compose_raw_base method final_path qs hb body_text) in
  nth 0 lines [] = request_line method final_path qs
  /\ parse_headers (headers_part (tl lines)) = hb
  /\ body_part (tl lines)
     = match body_text with Some b => Py.split LF b | None => [] end.
Proof.
  intros Hrl Hnd Htidy lines.
  set (rl := request_line method final_path qs) in *.
  assert (Hclean : Forall (no_char LF) (rl :: map header_line hb ++ [[]])).
  { constructor; [assumption|]. apply Forall_app. split.
    - now apply GenerateFacts.tidy_lines_no_lf.
    - constructor; [intros [] | constructor]. }
  assert (Hlines : lines = (rl :: map header_line hb ++ [[]])
                           ++ match body_text with
                              | Some b => Py.split LF b
                              | None => []
                              end).
  { subst lines. unfold compose_raw_base. fold rl. destruct body_text as [b|].
    - replace ([rl] ++ map header_line hb ++ [[]] ++ [b])
        with ((rl :: map header_line hb ++ [[]]) ++ [b])
        by (simpl; now rewrite <- app_assoc).
      now apply GenerateFacts.split_join_last.
    - rewrite !app_nil_r.
      apply LineFacts.split_join; [discriminate | assumption]. }
  rewrite Hlines. cbn [app nth tl]. rewrite <- app_assoc. cbn [app].
  split; [reflexivity|].
  rewrite SplitFacts.headers_part_app, SplitFacts.body_part_app
    by apply GenerateFacts.header_lines_not_blank.
  rewrite GenerateFacts.headers_part_blank, GenerateFacts.body_part_blank.
  rewrite app_nil_r. split; [|reflexivity].
  unfold parse_headers. now rewrite GenerateFacts.parse_header_lines.
Qed.

Lemma generated_request_parses_back_witness :
  parse_headers
    (headers_part
       (tl (Py.split LF
              (compose_raw_base #"post" #"/pets" #"?a=1" seed_headers
                 (Some (#"{" ++ [LF] ++ #"}"))))))
  = seed_headers.
Proof.
  apply (@generated_request_parses_back #"post" #"/pets" #"?a=1" seed_headers
           (Some (#"{" ++ [LF] ++ #"}"))).
  - apply PyFacts.has_char_false. reflexivity.
  - repeat constructor; simpl; intuition discriminate.
  - repeat constructor; try (apply PyFacts.has_char_false; reflexivity).
Defined.

(** X19.  Before a body adds its [Content-Type], the headers of a
    generated request are the two seeded ones overlaid by the stringified
    header parameters: a header parameter gives its value to its name, also
    to [User-Agent] or [Accept]; any other name keeps the seeded value, if
    it has one; and no name occurs twice. *)
Theorem header_params_override_seeds (header_params : dict str) (k : str) :
  (~ In k (Dict.keys header_params) ->
   Dict.lookup k (overlay_headers header_params) = Dict.lookup k seed_headers)
  /\ (forall v, NoDup (Dict.keys header_params) -> In (k, v) header_params ->
                Dict.lookup k (overlay_headers header_params) = Some v)
  /\ NoDup (Dict.keys (overlay_headers header_params)).
Proof.
  unfold overlay_headers. repeat split.
  - apply GenerateFacts.fold_set_untouched.
  - intros v. apply GenerateFacts.fold_set_wins.
  - apply AuthFacts.fold_left_preserves.
    + intros d kv Hd. now apply DictFacts.set_NoDup.
    + repeat constructor; simpl; intuition discriminate.
Qed.

Lemma header_params_override_seeds_witness :
  Dict.lookup #"Accept" (overlay_headers [(#"Accept", #"text/plain")])
  = Some #"text/plain".
Proof.
  apply (proj1 (proj2 (@header_params_override_seeds
                         [(#"Accept", #"text/plain")] #"Accept"))).
  - repeat constructor. intros [].
  - now left.
Defined.

(* ================================================================== *)
(** * Further properties: path templating *)

Module ReplaceFacts.
Import PyFacts.

Lemma replace_from_skip (old new p s : str) :
  Py.replace_from old new (length p) (p ++ s) = Py.replace_from old new 0 s.
Proof. induction p as [|c p IH]; [reflexivity | exact IH]. Qed.

Lemma startswith_self (p s : str) : Py.startswith p (p ++ s) = true.
Proof.
  induction p as [|c p IH]; [reflexivity|].
  simpl. now rewrite Ascii.eqb_refl.
Qed.

(** An occurrence at the front is replaced, and the search goes on after
    it. *)
Lemma replace_match (o : ascii) (old new s : str) :
  Py.replace (o :: old) new ((o :: old) ++ s)
  = new ++ Py.replace (o :: old) new s.
Proof.
  unfold Py.replace. simpl app. cbn [Py.replace_from].
  pose proof (startswith_self (o :: old) s) as Hs. simpl app in Hs.
  rewrite Hs. cbn [length Nat.sub]. rewrite Nat.sub_0_r.
  now rewrite replace_from_skip.
Qed.

Lemma replace_miss (o c : ascii) (old new s : str) :
  c <> o ->
  Py.replace (o :: old) new (c :: s) = c :: Py.replace (o :: old) new s.
Proof.
  intros H. unfold Py.replace. cbn [Py.replace_from Py.startswith].
  now rewrite (Ascii.eqb_sym o c), (eqb_neq_false H).
Qed.

Lemma replace_prefix (o : ascii) (old new a s : str) :
  no_char o a ->
  Py.replace (o :: old) new (a ++ s) = a ++ Py.replace (o :: old) new s.
Proof.
  induction a as [|c a IH]; intros H; [reflexivity|].
  apply no_char_cons in H. destruct H as [Hc Ha].
  simpl app. rewrite replace_miss by assumption. now rewrite IH.
Qed.

Lemma replace_absent (o : ascii) (old new s : str) :
  no_char o s -> Py.replace (o :: old) new s = s.
Proof.
  intros H. rewrite <- (app_nil_r s) at 1.
  rewrite replace_prefix by assumption. now rewrite app_nil_r.
Qed.

Lemma replace_placeholder_absent (k v t : str) :
  no_char "{"%char t -> Py.replace (placeholder k) v t = t.
Proof.
  intros H. unfold placeholder.
  change (#"{" ++ k ++ #"}") with ("{"%char :: k ++ #"}").
  now apply replace_absent.
Qed.

Lemma replace_placeholder_match (k v a b : str) :
  no_char "{"%char a ->
  Py.replace (placeholder k) v (a ++ placeholder k ++ b)
  = a ++ v ++ Py.replace (placeholder k) v b.
Proof.
  intros H. unfold placeholder.
  change (#"{" ++ k ++ #"}") with ("{"%char :: k ++ #"}").
  rewrite replace_prefix by assumption.
  now rewrite replace_match.
Qed.

Lemma substitute_absent (path_params : dict str) (path_template : str) :
  no_char "{"%char path_template ->
  substitute_path path_params path_template = path_template.
Proof.
  intros H. unfold substitute_path.
  induction path_params as [|[k v] ps IH]; [reflexivity|].
  simpl fold_left. cbn [fst snd].
  now rewrite replace_placeholder_absent.
Qed.

End ReplaceFacts.

(** X20.  A path template without an opening brace is left as it is by the
    substitution of the path parameters, whatever they are. *)
Theorem template_without_brace_unchanged (path_params : dict str)
    (path_template : str) :
  no_char "{"%char path_template ->
  substitute_path path_params path_template = path_template.
Proof. apply ReplaceFacts.substitute_absent. Qed.

Lemma template_without_brace_unchanged_witness :
  substitute_path [(#"id", #"1")] #"/pets" = #"/pets".
Proof.
  apply (@template_without_brace_unchanged [(#"id", #"1")] #"/pets").
  apply PyFacts.has_char_false. reflexivity.
Defined.

(** X21.  A template with one placeholder [{k}], and no other opening
    brace, becomes the same text with the placeholder replaced by the value
    of the path parameter [k]; when the value has no opening brace, further
    path parameters change nothing. *)
Theorem placeholder_is_substituted (k v a b : str) (others : dict str) :
  no_char "{"%char a -> no_char "{"%char b -> no_char "{"%char v ->
  substitute_path ((k, v) :: others) (a ++ placeholder k ++ b) = a ++ v ++ b.
Proof.
  intros Ha Hb Hv.
  change (substitute_path ((k, v) :: others) (a ++ placeholder k ++ b))
    with (substitute_path others
            (Py.replace (placeholder k) v (a ++ placeholder k ++ b))).
  rewrite ReplaceFacts.replace_placeholder_match by assumption.
  rewrite ReplaceFacts.replace_placeholder_absent by assumption.
  apply ReplaceFacts.substitute_absent.
  rewrite !PyFacts.no_char_app. tauto.
Qed.

Lemma placeholder_is_substituted_witness :
  substitute_path [(#"id", #"1"); (#"x", #"2")] (#"/pets/" ++ placeholder #"id" ++ #"/toys")
  = #"/pets/" ++ #"1" ++ #"/toys".
Proof.
  apply (@placeholder_is_substituted #"id" #"1" #"/pets/" #"/toys"
           [(#"x", #"2")]);
    apply PyFacts.has_char_false; reflexivity.
Defined.
